(** * Gondolin host: HTTP hooks (secret injection and egress admission)

    A shallow embedding of [createHttpHooks] and of the helpers it closes
    over: placeholder generation, the secret allowlist defence, placeholder
    substitution in headers and query parameters, glob matching of
    hostnames and the internal address ranges.

    Strings.  A JavaScript string is modelled by the list of the bytes of
    its UTF-8 encoding; ASCII text is one byte per character.  Case mapping
    and white space are the ASCII ones: bytes above 0x7F are caseless and
    never white space. *)

From Stdlib Require Import Ascii String.
From Stdlib Require Import List ZArith NArith Lia Bool Arith.
Import ListNotations.

Set Implicit Arguments.

(** ** JavaScript string primitives *)

Definition str := list ascii.

(** A string literal. *)
Definition lit (s : string) : str := list_ascii_of_string s.

Definition code (c : ascii) : N := N_of_ascii c.

Definition ascii_eqb (a b : ascii) : bool := Ascii.eqb a b.

Fixpoint str_eqb (a b : str) : bool :=
  match a, b with
  | [], [] => true
  | c :: a', d :: b' => ascii_eqb c d && str_eqb a' b'
  | _, _ => false
  end.

(** [!s] is true of the empty string only. *)
Definition isEmpty (s : str) : bool :=
  match s with [] => true | _ => false end.

(** [s.startsWith(p)] *)
Fixpoint startsWith (s p : str) : bool :=
  match p, s with
  | [], _ => true
  | c :: p', d :: s' => ascii_eqb c d && startsWith s' p'
  | _ :: _, [] => false
  end.

(** [s.includes(p)] *)
Fixpoint includes (s p : str) : bool :=
  startsWith s p ||
  match s with
  | [] => false
  | _ :: s' => includes s' p
  end.

(** Puts a character in front of the piece being read. *)
Definition push_front (c : ascii) (pieces : list str) : list str :=
  match pieces with
  | p :: ps => (c :: p) :: ps
  | [] => [[c]]
  end.

(** The scan of [s.split(sep)] for a non-empty separator: the leftmost
    occurrence is cut out and the scan resumes behind it; [skip] counts
    the characters of the separator still to pass. *)
Fixpoint split_go (sep s : str) (skip : nat) : list str :=
  match s with
  | [] => [[]]
  | c :: s' =>
      match skip with
      | S k => split_go sep s' k
      | O =>
          if startsWith s sep
          then [] :: split_go sep s' (length sep - 1)
          else push_front c (split_go sep s' 0)
      end
  end.

(** [s.split(sep)]: an empty separator splits into characters. *)
Definition split (s sep : str) : list str :=
  match sep with
  | [] => map (fun c => [c]) s
  | _ => split_go sep s 0
  end.

(** [pieces.join(sep)] *)
Fixpoint join (sep : str) (pieces : list str) : str :=
  match pieces with
  | [] => []
  | [p] => p
  | p :: ps => p ++ sep ++ join sep ps
  end.

Definition isUpper (c : ascii) : bool := ((65 <=? code c) && (code c <=? 90))%N.
Definition isLower (c : ascii) : bool := ((97 <=? code c) && (code c <=? 122))%N.

Definition lower (c : ascii) : ascii :=
  if isUpper c then ascii_of_N (code c + 32) else c.

Definition upper (c : ascii) : ascii :=
  if isLower c then ascii_of_N (code c - 32) else c.

(** [s.toLowerCase()] *)
Definition toLowerCase (s : str) : str := map lower s.

(** White space and line terminators, the class [\s] of regular
    expressions and what [trim] removes: TAB, LF, VT, FF, CR and space. *)
Definition isSpace (c : ascii) : bool :=
  ((9 <=? code c) && (code c <=? 13) || (code c =? 32))%N.

(** The characters [.] does not match. *)
Definition isLineTerminator (c : ascii) : bool :=
  ((code c =? 10) || (code c =? 13))%N.

Fixpoint trimStart (s : str) : str :=
  match s with
  | c :: s' => if isSpace c then trimStart s' else s
  | [] => []
  end.

(** [s.trim()] *)
Definition trim (s : str) : str := rev (trimStart (rev (trimStart s))).

(** Comparison under the [i] flag: both sides are put in upper case. *)
Definition ci_eqb (a b : ascii) : bool := ascii_eqb (upper a) (upper b).

Fixpoint ci_str_eqb (a b : str) : bool :=
  match a, b with
  | [], [] => true
  | c :: a', d :: b' => ci_eqb c d && ci_str_eqb a' b'
  | _, _ => false
  end.

(** ** Node's [Buffer]: base64, UTF-8 and hex *)

Definition byte (n : N) : ascii := ascii_of_N (n mod 256).

(** The value of a base64 digit; the decoder reads the standard and the
    URL-safe alphabet. *)
Definition unbase64 (c : ascii) : option N :=
  let n := code c in
  (if isUpper c then Some (n - 65)
  else if isLower c then Some (n - 71)
  else if (48 <=? n) && (n <=? 57) then Some (n + 4)
  else if (n =? 43) || (n =? 45) then Some 62
  else if (n =? 47) || (n =? 95) then Some 63
  else None)%N.

(** The digits the decoder reads: characters outside the alphabet are
    passed over and the first [=] ends the input. *)
Fixpoint sextets (s : str) : list N :=
  match s with
  | [] => []
  | c :: s' =>
      match unbase64 c with
      | Some n => n :: sextets s'
      | None => if (code c =? 61)%N then [] else sextets s'
      end
  end.

(** Four digits give three bytes; a last group of two or three digits
    gives one or two bytes, a single digit none. *)
Fixpoint decode_groups (l : list N) : list ascii :=
  match l with
  | a :: b :: c :: d :: r =>
      byte (a * 4 + b / 16) :: byte ((b mod 16) * 16 + c / 4)
        :: byte ((c mod 4) * 64 + d) :: decode_groups r
  | [a; b; c] => [byte (a * 4 + b / 16); byte ((b mod 16) * 16 + c / 4)]
  | [a; b] => [byte (a * 4 + b / 16)]
  | _ => []
  end%N.

(** [Buffer.from(token, "base64")] *)
Definition base64_decode (token : str) : list ascii :=
  decode_groups (sextets token).

Definition b64char (n : N) : ascii :=
  (if n <? 26 then ascii_of_N (n + 65)
   else if n <? 52 then ascii_of_N (n + 71)
   else if n <? 62 then ascii_of_N (n - 4)
   else if n =? 62 then "+"%char else "/"%char)%N.

(** [buf.toString("base64")]: the standard alphabet, padded with [=]. *)
Fixpoint base64_encode (bs : list ascii) : str :=
  match bs with
  | x :: y :: z :: r =>
      let a := code x in let b := code y in let c := code z in
      b64char (a / 4) :: b64char ((a mod 4) * 16 + b / 16)
        :: b64char ((b mod 16) * 4 + c / 64) :: b64char (c mod 64)
        :: base64_encode r
  | [x; y] =>
      let a := code x in let b := code y in
      [b64char (a / 4); b64char ((a mod 4) * 16 + b / 16);
       b64char ((b mod 16) * 4); "="%char]
  | [x] =>
      let a := code x in
      [b64char (a / 4); b64char ((a mod 4) * 16); "="%char; "="%char]
  | [] => []
  end%N.

(** The state of the UTF-8 decoder between two bytes: nothing pending, or
    a sequence begun, with the bytes read (last first), the number of
    bytes still needed and the bounds of the next byte. *)
Inductive utf8_state :=
| Idle
| Pending (seen : list ascii) (needed : nat) (lo hi : N).

(** U+FFFD, which replaces each ill-formed sequence. *)
Definition replacement : list ascii := [byte 239; byte 191; byte 189].

(** A byte read with nothing pending: what is written and the next state. *)
Definition utf8_start (b : ascii) : list ascii * utf8_state :=
  let n := code b in
  (if n <=? 127 then ([b], Idle)
   else if (194 <=? n) && (n <=? 223) then ([], Pending [b] 1 128 191)
   else if n =? 224 then ([], Pending [b] 2 160 191)
   else if n =? 237 then ([], Pending [b] 2 128 159)
   else if (225 <=? n) && (n <=? 239) then ([], Pending [b] 2 128 191)
   else if n =? 240 then ([], Pending [b] 3 144 191)
   else if n =? 244 then ([], Pending [b] 3 128 143)
   else if (241 <=? n) && (n <=? 243) then ([], Pending [b] 3 128 191)
   else (replacement, Idle))%N.

Fixpoint utf8_go (bs : list ascii) (st : utf8_state) : list ascii :=
  match bs with
  | [] => match st with Idle => [] | Pending _ _ _ _ => replacement end
  | b :: bs' =>
      match st with
      | Idle => let '(out, st') := utf8_start b in out ++ utf8_go bs' st'
      | Pending seen needed lo hi =>
          if ((lo <=? code b) && (code b <=? hi))%N
          then match needed with
               | S (S k) => utf8_go bs' (Pending (b :: seen) (S k) 128 191)
               | _ => rev (b :: seen) ++ utf8_go bs' Idle
               end
          else replacement ++
               (let '(out, st') := utf8_start b in out ++ utf8_go bs' st')
      end
  end.

(** [buf.toString("utf8")], as the bytes of the string it gives. *)
Definition utf8_toString (bs : list ascii) : str := utf8_go bs Idle.

(** [Buffer.from(s, "utf8")]: the bytes of the string. *)
Definition utf8_bytes (s : str) : list ascii := s.

Definition hexDigit (n : N) : ascii :=
  (if n <? 10 then ascii_of_N (n + 48) else ascii_of_N (n + 87))%N.

(** [buf.toString("hex")] *)
Definition toHex (bs : list ascii) : str :=
  flat_map (fun b => [hexDigit (code b / 16); hexDigit (code b mod 16)]) bs.

(** ** The regular expressions of the module *)

(** [/^(authorization|proxy-authorization)$/i.test(headerName)] *)
Definition isCredentialHeader (headerName : str) : bool :=
  ci_str_eqb headerName (lit "authorization")
  || ci_str_eqb headerName (lit "proxy-authorization").

(** The longest prefix of characters in a class, and the rest. *)
Fixpoint span (f : ascii -> bool) (s : str) : str * str :=
  match s with
  | c :: s' => if f c then let '(a, b) := span f s' in (c :: a, b) else ([], s)
  | [] => ([], [])
  end.

(** The four groups of the pattern of a Basic credential. *)
Record BasicMatch := mkBasicMatch {
  scheme : str;
  whitespace : str;
  token : str;
  trailing : str
}.

(** [value.match] on the pattern of a Basic credential, anchored at both
    ends and case-insensitive: the word Basic, one or more white space
    characters, one or more characters that are not white space, and white
    space up to the end.  The two classes are complementary, so each group
    takes the longest run it can. *)
Definition matchBasic (value : str) : option BasicMatch :=
  let sch := firstn 5 value in
  if ci_str_eqb sch (lit "Basic") then
    let '(ws, r1) := span isSpace (skipn 5 value) in
    let '(tok, r2) := span (fun c => negb (isSpace c)) r1 in
    if isEmpty ws || isEmpty tok || negb (forallb isSpace r2) then None
    else Some (mkBasicMatch sch ws tok r2)
  else None.

(** The syntax characters [part.replace(/[.+?^${}()|[\]\\]/g, "\\$&")]
    puts a backslash before. *)
Definition isRegexSpecial (c : ascii) : bool :=
  existsb (ascii_eqb c) (lit ".+?^${}()|[]\").

Definition escapePart (part : str) : str :=
  flat_map (fun c => if isRegexSpecial c then ["\"%char; c] else [c]) part.

(** The fragment of regular expressions a glob compiles to. *)
Inductive atom := Chr (c : ascii) | Dot.

Inductive item :=
| One (a : atom)
| Star (a : atom)
| Bol
| Eol.

Inductive token_kind :=
| TAtom (a : atom)
| TStar
| TBol
| TEol
| TBad.

(** Reading the source of a regular expression: a backslash makes the
    syntax character behind it a literal. *)
Fixpoint tokens (s : str) (escaped : bool) : list token_kind :=
  match s with
  | [] => if escaped then [TBad] else []
  | c :: s' =>
      if escaped then
        (if isRegexSpecial c || ascii_eqb c "*"%char
         then TAtom (Chr c) else TBad) :: tokens s' false
      else if ascii_eqb c "\"%char then tokens s' true
      else if ascii_eqb c "."%char then TAtom Dot :: tokens s' false
      else if ascii_eqb c "*"%char then TStar :: tokens s' false
      else if ascii_eqb c "^"%char then TBol :: tokens s' false
      else if ascii_eqb c "$"%char then TEol :: tokens s' false
      else if isRegexSpecial c then TBad :: tokens s' false
      else TAtom (Chr c) :: tokens s' false
  end.

Fixpoint items_of (ts : list token_kind) : option (list item) :=
  match ts with
  | [] => Some []
  | TAtom a :: TStar :: r => option_map (cons (Star a)) (items_of r)
  | TAtom a :: r => option_map (cons (One a)) (items_of r)
  | TBol :: r => option_map (cons Bol) (items_of r)
  | TEol :: r => option_map (cons Eol) (items_of r)
  | TStar :: _ => None
  | TBad :: _ => None
  end.

(** [new RegExp(source, "i")]; [None] is a syntax error or a construct
    outside the fragment. *)
Definition RegExp_new (source : str) : option (list item) :=
  items_of (tokens source false).

Definition atom_matches (a : atom) (c : ascii) : bool :=
  match a with
  | Chr d => ci_eqb d c
  | Dot => negb (isLineTerminator c)
  end.

(** Matching from a position; [atStart] tells whether it is the start of
    the input. *)
Fixpoint rmatch (its : list item) (atStart : bool) (s : str) : bool :=
  match its with
  | [] => true
  | Bol :: r => atStart && rmatch r atStart s
  | Eol :: r => isEmpty s && rmatch r atStart s
  | One a :: r =>
      match s with
      | c :: s' => atom_matches a c && rmatch r false s'
      | [] => false
      end
  | Star a :: r =>
      (fix loop (s : str) (atStart : bool) : bool :=
         rmatch r atStart s
         || match s with
            | c :: s' => atom_matches a c && loop s' false
            | [] => false
            end) s atStart
  end.

Fixpoint rsearch (its : list item) (atStart : bool) (s : str) : bool :=
  rmatch its atStart s
  || match s with
     | _ :: s' => rsearch its false s'
     | [] => false
     end.

(** [regex.test(s)]: a match starting anywhere. *)
Definition RegExp_test (its : list item) (s : str) : bool :=
  rsearch its true s.

(** ** What the module takes from its platform

    The WHATWG [URL] class, [crypto.randomBytes], [net.isIP] on IPv6 text,
    the conversion [Number] and the two helpers of [ip-utils] are used
    through this interface. *)

Class Platform := {
  (** a parsed URL *)
  URL : Type;
  (** [new URL(s)]; [None] when it throws *)
  URL_parse : str -> option URL;
  URL_hostname : URL -> str;
  URL_search : URL -> str;
  (** [parsed.searchParams.entries()], decoded, in order *)
  URL_searchParams : URL -> list (str * str);
  (** [parsed.search = s; parsed.toString()] *)
  URL_toString_withSearch : URL -> str -> str;
  (** [params.toString()] of a [URLSearchParams] built by [append] *)
  URLSearchParams_toString : list (str * str) -> str;
  (** the state of the random generator *)
  Rng : Type;
  (** [crypto.randomBytes(n)] *)
  randomBytes : nat -> Rng -> list ascii * Rng;
  (** [net.isIP(s) === 6] *)
  net_isIPv6 : str -> bool;
  (** [Number(part)] when [Number.isInteger] holds of it *)
  Number_integer : str -> option Z;
  (** [parseIPv6Hextets] of [ip-utils] *)
  parseIPv6Hextets : str -> option (list Z);
  (** [extractIPv4Mapped] of [ip-utils] *)
  extractIPv4Mapped : list Z -> option str
}.

(** ** Errors *)

(** A computation that may throw [HttpRequestBlockedError]. *)
Inductive result (A : Type) :=
| Ok (a : A)
| HttpRequestBlockedError (message : str).

Arguments Ok {A} a.
Arguments HttpRequestBlockedError {A} message.

Definition bind {A B : Type} (r : result A) (k : A -> result B) : result B :=
  match r with
  | Ok a => k a
  | HttpRequestBlockedError m => HttpRequestBlockedError m
  end.

Notation "x <- r ;; k" := (bind r (fun x => k))
  (at level 61, r at next level, right associativity).

Definition isBlocked {A : Type} (r : result A) : bool :=
  match r with Ok _ => false | HttpRequestBlockedError _ => true end.

(** ** Data *)

Record SecretDefinition := mkSecretDefinition {
  def_hosts : list str;
  def_value : str
}.

Record SecretEntry := mkSecretEntry {
  name : str;
  placeholder : str;
  value : str;
  hosts : list str
}.

Record HttpHookRequest := mkRequest {
  method : str;
  url : str;
  (** [Object.entries(headers)]: names are distinct *)
  headers : list (str * str);
  body : option str
}.

(** The argument of [isIpAllowed]. *)
Record IpInfo := mkIpInfo {
  info_hostname : str;
  info_ip : str
}.

(** A caller's [isIpAllowed]: it may keep state of its own [St] and may
    throw ([None]). *)
Definition IpHook (St : Type) : Type := IpInfo -> St -> option bool * St.

Record CreateHttpHooksOptions (St : Type) := mkOptions {
  opt_allowedHosts : option (list str);
  (** [Object.entries(options.secrets)] *)
  opt_secrets : option (list (str * SecretDefinition));
  opt_replaceSecretsInQuery : option bool;
  opt_blockInternalRanges : option bool;
  opt_isIpAllowed : option (IpHook St)
}.

(** [a ?? b] *)
Definition orElse {A : Type} (a : option A) (b : A) : A :=
  match a with Some x => x | None => b end.

(** ** Host patterns *)

Definition normalizeHostnamePattern (pattern : str) : str :=
  toLowerCase (trim pattern).

(** The source of the regular expression of a glob. *)
Definition globSource (pattern : str) : str :=
  let escaped :=
    join (lit ".*") (map escapePart (split pattern (lit "*"))) in
  lit "^" ++ escaped ++ lit "$".

(** [matchHostname]; the constructor of the regular expression does not
    throw on the source of a glob, see [RegExp_new_globSource]. *)
Definition matchHostname (hostname pattern : str) : bool :=
  if isEmpty pattern then false
  else if str_eqb pattern (lit "*") then true
  else
    match RegExp_new (globSource pattern) with
    | Some regex => RegExp_test regex hostname
    | None => false
    end.

Definition matchesAnyHost (hostname : str) (patterns : list str) : bool :=
  let normalized := toLowerCase hostname in
  existsb (fun pattern => matchHostname normalized pattern) patterns.

(** [seen.has(normalized)] *)
Definition has (seen : list str) (s : str) : bool := existsb (str_eqb s) seen.

(** The loop of [uniqueHosts], with the set and the result so far. *)
Fixpoint uniqueHosts_loop (hostList seen result : list str) : list str :=
  match hostList with
  | [] => result
  | host :: rest =>
      let normalized := normalizeHostnamePattern host in
      if isEmpty normalized || has seen normalized
      then uniqueHosts_loop rest seen result
      else uniqueHosts_loop rest (normalized :: seen) (result ++ [normalized])
  end.

Definition uniqueHosts (hostList : list str) : list str :=
  uniqueHosts_loop hostList [] [].

(** [replaceAll] *)
Definition replaceAll (value search replacement : str) : str :=
  if isEmpty search then value
  else join replacement (split value search).

Section Hooks.

Context {platform : Platform}.

(** ** The secret allowlist defence *)

Definition getHostname (request : HttpHookRequest) : str :=
  match URL_parse (url request) with
  | Some parsed => toLowerCase (URL_hostname parsed)
  | None => []
  end.

(** The message of the error: the name of the secret and the hostname,
    or the word unknown for an empty one. *)
Definition notAllowedMessage (entry : SecretEntry) (hostname : str) : str :=
  lit "secret " ++ name entry ++ lit " not allowed for host: "
  ++ (if isEmpty hostname then lit "unknown" else hostname).

Definition decodeBasicAuth (headerValue : str) : option str :=
  match matchBasic headerValue with
  | None => None
  | Some m => Some (utf8_toString (base64_decode (token m)))
  end.

Definition requestContainsSecretValueInHeaders
    (hdrs : list (str * str)) (entry : SecretEntry) : bool :=
  if isEmpty (value entry) then false
  else
    existsb
      (fun '(headerName, headerValue) =>
         if isEmpty headerValue then false
         else if includes headerValue (value entry) then true
         else if isCredentialHeader headerName then
           match decodeBasicAuth headerValue with
           | Some decoded =>
               negb (isEmpty decoded) && includes decoded (value entry)
           | None => false
           end
         else false)
      hdrs.

Definition requestContainsSecretValueInQuery
    (u : str) (entry : SecretEntry) : bool :=
  if isEmpty (value entry) then false
  else
    match URL_parse u with
    | None => false
    | Some parsed =>
        if isEmpty (URL_search parsed) then false
        else
          existsb
            (fun '(n, v) =>
               includes n (value entry) || includes v (value entry))
            (URL_searchParams parsed)
    end.

Fixpoint assertSecretValuesAllowedForHost
    (request : HttpHookRequest) (hostname : str)
    (entries : list SecretEntry) (checkQuery : bool) : result unit :=
  match entries with
  | [] => Ok tt
  | entry :: rest =>
      if matchesAnyHost hostname (hosts entry)
      then assertSecretValuesAllowedForHost request hostname rest checkQuery
      else if requestContainsSecretValueInHeaders (headers request) entry
      then HttpRequestBlockedError (notAllowedMessage entry hostname)
      else if checkQuery
              && requestContainsSecretValueInQuery (url request) entry
      then HttpRequestBlockedError (notAllowedMessage entry hostname)
      else assertSecretValuesAllowedForHost request hostname rest checkQuery
  end.

(** ** Placeholder substitution *)

Definition assertSecretAllowedForHost
    (entry : SecretEntry) (hostname : str) : result unit :=
  if matchesAnyHost hostname (hosts entry) then Ok tt
  else HttpRequestBlockedError (notAllowedMessage entry hostname).

Fixpoint replaceSecretPlaceholdersInString
    (v hostname : str) (entries : list SecretEntry) : result str :=
  match entries with
  | [] => Ok v
  | entry :: rest =>
      if negb (includes v (placeholder entry))
      then replaceSecretPlaceholdersInString v hostname rest
      else
        _ <- assertSecretAllowedForHost entry hostname ;;
        replaceSecretPlaceholdersInString
          (replaceAll v (placeholder entry) (value entry)) hostname rest
  end.

Definition replaceBasicAuthSecretPlaceholders
    (headerName headerValue hostname : str)
    (entries : list SecretEntry) : result str :=
  if negb (isCredentialHeader headerName) then Ok headerValue
  else
    match matchBasic headerValue with
    | None => Ok headerValue
    | Some m =>
        let decoded := utf8_toString (base64_decode (token m)) in
        updatedDecoded <-
          replaceSecretPlaceholdersInString decoded hostname entries ;;
        if str_eqb updatedDecoded decoded then Ok headerValue
        else
          let updatedToken := base64_encode (utf8_bytes updatedDecoded) in
          Ok (scheme m ++ whitespace m ++ updatedToken ++ trailing m)
    end.

(** The body of the loop over the headers. *)
Definition replaceInHeader
    (hostname : str) (entries : list SecretEntry)
    (header : str * str) : result (str * str) :=
  let '(headerName, v) := header in
  updated <- replaceSecretPlaceholdersInString v hostname entries ;;
  updated' <-
    replaceBasicAuthSecretPlaceholders headerName updated hostname entries ;;
  Ok (headerName, updated').

Fixpoint mapResult {A B : Type} (f : A -> result B) (l : list A)
  : result (list B) :=
  match l with
  | [] => Ok []
  | a :: rest =>
      b <- f a ;;
      bs <- mapResult f rest ;;
      Ok (b :: bs)
  end.

Definition replaceSecretPlaceholdersInHeaders
    (request : HttpHookRequest) (hostname : str)
    (entries : list SecretEntry) : result (list (str * str)) :=
  match entries with
  | [] => Ok (headers request)
  | _ => mapResult (replaceInHeader hostname entries) (headers request)
  end.

Definition replaceInParameter
    (hostname : str) (entries : list SecretEntry)
    (param : str * str) : result (str * str) :=
  let '(n, v) := param in
  updatedName <- replaceSecretPlaceholdersInString n hostname entries ;;
  updatedValue <- replaceSecretPlaceholdersInString v hostname entries ;;
  Ok (updatedName, updatedValue).

Definition param_eqb (a b : str * str) : bool :=
  str_eqb (fst a) (fst b) && str_eqb (snd a) (snd b).

Fixpoint params_eqb (a b : list (str * str)) : bool :=
  match a, b with
  | [], [] => true
  | x :: a', y :: b' => param_eqb x y && params_eqb a' b'
  | _, _ => false
  end.

Definition replaceSecretPlaceholdersInUrlParameters
    (u hostname : str) (entries : list SecretEntry) (enabled : bool)
  : result str :=
  if negb enabled || (length entries =? 0) then Ok u
  else
    match URL_parse u with
    | None => Ok u
    | Some parsed =>
        if isEmpty (URL_search parsed) then Ok u
        else
          updatedParams <-
            mapResult (replaceInParameter hostname entries)
                      (URL_searchParams parsed) ;;
          let changed :=
            negb (params_eqb updatedParams (URL_searchParams parsed)) in
          if negb changed then Ok u
          else
            let nextSearch := URLSearchParams_toString updatedParams in
            Ok (URL_toString_withSearch parsed
                  (if isEmpty nextSearch then []
                   else lit "?" ++ nextSearch))
    end.

(** [applySecretsToRequest], with the entries and the option the closure
    holds. *)
Definition applySecretsToRequest
    (secretEntries : list SecretEntry) (replaceSecretsInQuery : option bool)
    (request : HttpHookRequest) : result HttpHookRequest :=
  let hostname := getHostname request in
  _ <- assertSecretValuesAllowedForHost request hostname secretEntries
         (orElse replaceSecretsInQuery false) ;;
  hdrs <- replaceSecretPlaceholdersInHeaders request hostname secretEntries ;;
  u <- replaceSecretPlaceholdersInUrlParameters (url request) hostname
         secretEntries (orElse replaceSecretsInQuery false) ;;
  Ok (mkRequest (method request) u hdrs (body request)).

(** ** Internal addresses *)

Definition isDigit (c : ascii) : bool := ((48 <=? code c) && (code c <=? 57))%N.

Definition digitsValue (s : str) : N :=
  fold_left (fun acc c => (acc * 10 + (code c - 48))%N) s 0%N.

(** A decimal octet as [net.isIP] reads it: one to three digits, no
    leading zero, at most 255. *)
Definition octet (part : str) : option N :=
  match part with
  | [] => None
  | c :: rest =>
      if forallb isDigit part && (length part <=? 3)
         && negb (ascii_eqb c "0"%char && negb (isEmpty rest))
         && (digitsValue part <=? 255)%N
      then Some (digitsValue part)
      else None
  end.

(** [net.isIP(s) === 4] *)
Definition net_isIPv4 (s : str) : bool :=
  match map octet (split s (lit ".")) with
  | [Some _; Some _; Some _; Some _] => true
  | _ => false
  end.

(** [net.isIP] *)
Definition net_isIP (s : str) : Z :=
  if net_isIPv4 s then 4 else if net_isIPv6 s then 6 else 0.

Definition isNone {A : Type} (o : option A) : bool :=
  match o with None => true | Some _ => false end.

Definition isPrivateIPv4 (ip : str) : bool :=
  let octets := map Number_integer (split ip (lit ".")) in
  if negb (length octets =? 4) || existsb isNone octets then false
  else
    match octets with
    | Some a :: Some b :: _ =>
        if a =? 0 then true
        else if a =? 10 then true
        else if a =? 127 then true
        else if (a =? 169) && (b =? 254) then true
        else if (a =? 172) && (16 <=? b) && (b <=? 31) then true
        else if (a =? 192) && (b =? 168) then true
        else if (a =? 100) && (64 <=? b) && (b <=? 127) then true
        else if a =? 255 then true
        else false
    | _ => false
    end%Z.

(** The conversion to a signed 32-bit integer the operator [&] applies
    to its operands. *)
Definition toInt32 (z : Z) : Z := ((z + 2 ^ 31) mod 2 ^ 32 - 2 ^ 31)%Z.

(** [hextets[i] & mask]; an index out of range gives [undefined], which
    the operator reads as 0. *)
Definition hextetAnd (hextets : list Z) (i : nat) (mask : Z) : Z :=
  Z.land (toInt32 (nth i hextets 0%Z)) mask.

Definition isPrivateIPv6 (ip : str) : bool :=
  match parseIPv6Hextets ip with
  | None => false
  | Some hextets =>
      let isAllZero := forallb (Z.eqb 0) hextets in
      let isLoopback :=
        forallb (Z.eqb 0) (firstn 7 hextets)
        && match nth_error hextets 7 with
           | Some v => (v =? 1)%Z
           | None => false
           end in
      if isAllZero || isLoopback then true
      else if (hextetAnd hextets 0 65024 =? 64512)%Z then true
      else if (hextetAnd hextets 0 65472 =? 65152)%Z then true
      else
        match extractIPv4Mapped hextets with
        | Some mapped => if isEmpty mapped then false else isPrivateIPv4 mapped
        | None => false
        end
  end.

(** The part of [isPrivateIPv6] on an address mapped from IPv4. *)
Definition mappedIsPrivate (hextets : list Z) : bool :=
  match extractIPv4Mapped hextets with
  | Some mapped => negb (isEmpty mapped) && isPrivateIPv4 mapped
  | None => false
  end.

Definition isInternalAddress (ip : str) : bool :=
  let family := net_isIP ip in
  if (family =? 4)%Z then isPrivateIPv4 ip
  else if (family =? 6)%Z then isPrivateIPv6 ip
  else false.

(** ** createHttpHooks *)

Definition placeholderPrefix : str := lit "GONDOLIN_SECRET_".

(** The loop over the secrets: one draw of 24 bytes for each. *)
Fixpoint buildSecretEntries
    (secrets : list (str * SecretDefinition)) (g : Rng)
  : list SecretEntry * Rng :=
  match secrets with
  | [] => ([], g)
  | (n, secret) :: rest =>
      let '(bytes, g1) := randomBytes 24 g in
      let ph := placeholderPrefix ++ toHex bytes in
      let '(entries, g2) := buildSecretEntries rest g1 in
      (mkSecretEntry n ph (def_value secret)
         (map normalizeHostnamePattern (def_hosts secret)) :: entries, g2)
  end.

(** A plain object with string values: its own properties in the order of
    their creation. *)
Definition PlainObject : Type := list (str * str).

(** An own property is overwritten where it stands, a new one is created
    behind the others. *)
Fixpoint setOwn (o : PlainObject) (key v : str) : PlainObject :=
  match o with
  | [] => [(key, v)]
  | (k, x) :: rest =>
      if str_eqb k key then (k, v) :: rest else (k, x) :: setOwn rest key v
  end.

(** [o[key] = v] for a string [v] on an object whose prototype is
    [Object.prototype]: the key [__proto__] is the accessor of the
    prototype, whose setter ignores a value that is neither an object nor
    null, so no property is created; every other key is an own property
    or a writable property of the prototype, and the assignment makes or
    overwrites the own property. *)
Definition assign (o : PlainObject) (key v : str) : PlainObject :=
  if str_eqb key (lit "__proto__") then o else setOwn o key v.


(** What [createHttpHooks] returns and what its closures hold. *)
Record CreateHttpHooksResult := mkResult {
  env : PlainObject;
  allowedHosts : list str;
  secretEntries : list SecretEntry;
  blockInternalRanges : bool
}.

Definition createHttpHooks {St : Type}
    (options : CreateHttpHooksOptions St) (g : Rng)
  : CreateHttpHooksResult * Rng :=
  let '(entries, g') := buildSecretEntries (orElse (opt_secrets options) []) g in
  (mkResult
     (fold_left (fun o e => assign o (name e) (placeholder e)) entries [])
     (uniqueHosts (orElse (opt_allowedHosts options) []
                   ++ flat_map hosts entries))
     entries
     (orElse (opt_blockInternalRanges options) true),
   g').

(** [httpHooks.isIpAllowed] *)
Definition isIpAllowed {St : Type}
    (blockInternal : bool) (allowed : list str)
    (hook : option (IpHook St)) (info : IpInfo) (st : St)
  : option bool * St :=
  if blockInternal && isInternalAddress (info_ip info) then (Some false, st)
  else if (0 <? length allowed)
          && negb (matchesAnyHost (info_hostname info) allowed)
  then (Some false, st)
  else
    match hook with
    | Some h => h info st
    | None => (Some true, st)
    end.

(** [isIpAllowed] of the hooks [createHttpHooks] returns. *)
Definition httpHooks_isIpAllowed {St : Type}
    (options : CreateHttpHooksOptions St) (created : CreateHttpHooksResult)
  : IpInfo -> St -> option bool * St :=
  isIpAllowed (blockInternalRanges created) (allowedHosts created)
              (opt_isIpAllowed options).

(** The built-in part of the admission: both checks pass. *)
Definition builtinAllows
    (blockInternal : bool) (allowed : list str) (info : IpInfo) : bool :=
  negb (blockInternal && isInternalAddress (info_ip info))
  && negb ((0 <? length allowed)
           && negb (matchesAnyHost (info_hostname info) allowed)).

End Hooks.

(** ** Notions the statements use *)

(** The hex digits are the lower-case ones. *)
Definition isHexChar (c : ascii) : bool :=
  isDigit c || ((97 <=? code c) && (code c <=? 102))%N.

(** Two strings are apart when an occurrence of the one never overlaps an
    occurrence of the other. *)
Definition apart (p q : str) : Prop :=
  forall x y u w, x ++ p ++ y = u ++ q ++ w ->
    length x + length p <= length u
    \/ length u + length q <= length x
    \/ p = q.

(** A placeholder as [createHttpHooks] makes it: the prefix and the hex
    digits of 24 bytes. *)
Definition isPlaceholder (p : str) : Prop :=
  exists bytes, length bytes = 24 /\ p = placeholderPrefix ++ toHex bytes.

(** The entries as [createHttpHooks] makes them from distinct draws. *)
Definition wellFormed (entries : list SecretEntry) : Prop :=
  Forall (fun e => isPlaceholder (placeholder e)) entries
  /\ NoDup (map placeholder entries).

(** *** Addresses as the specification writes them *)

Definition digit (n : N) : ascii := ascii_of_N (n mod 10 + 48).

(** The decimal text of an octet. *)
Definition showOctet (n : N) : str :=
  (if n <? 10 then [digit n]
   else if n <? 100 then [digit (n / 10); digit n]
   else [digit (n / 100); digit (n / 10); digit n])%N.

(** The dotted text of an IPv4 address. *)
Definition dotted (a b c d : N) : str :=
  showOctet a ++ lit "." ++ showOctet b ++ lit "." ++ showOctet c
  ++ lit "." ++ showOctet d.

(** An IPv4 address as a number of 32 bits. *)
Definition ipv4Number (a b c d : Z) : Z :=
  (((a * 256 + b) * 256 + c) * 256 + d)%Z.

(** An IPv6 address as a number of 128 bits. *)
Definition ipv6Number (hextets : list Z) : Z :=
  fold_left (fun acc h => (acc * 65536 + h)%Z) hextets 0%Z.

(** [addr] lies in the block [base/len] of addresses of [width] bits. *)
Definition inCidr (width addr base len : Z) : bool :=
  (addr / 2 ^ (width - len) =? base / 2 ^ (width - len))%Z.

(** The IPv4 blocks the specification lists: 0.0.0.0/8, 10/8, 127/8,
    169.254/16, 172.16/12, 192.168/16, 100.64/10 and 255/8. *)
Definition internalIPv4Blocks : list (Z * Z) :=
  [(ipv4Number 0 0 0 0, 8); (ipv4Number 10 0 0 0, 8);
   (ipv4Number 127 0 0 0, 8); (ipv4Number 169 254 0 0, 16);
   (ipv4Number 172 16 0 0, 12); (ipv4Number 192 168 0 0, 16);
   (ipv4Number 100 64 0 0, 10); (ipv4Number 255 0 0 0, 8)]%Z.

Definition inInternalIPv4Blocks (a b c d : Z) : bool :=
  existsb (fun '(base, len) => inCidr 32 (ipv4Number a b c d) base len)
          internalIPv4Blocks.

(** The IPv6 addresses the specification lists: [::] and [::1], and the
    blocks fc00::/7 and fe80::/10. *)
Definition inInternalIPv6Blocks (hextets : list Z) : bool :=
  let addr := ipv6Number hextets in
  ((addr =? 0) || (addr =? 1)
   || inCidr 128 addr (ipv6Number [64512; 0; 0; 0; 0; 0; 0; 0]) 7
   || inCidr 128 addr (ipv6Number [65152; 0; 0; 0; 0; 0; 0; 0]) 10)%Z.

(** The numbers a parser of IPv6 text gives: eight of 16 bits. *)
Definition isHextets (hextets : list Z) : Prop :=
  length hextets = 8 /\ Forall (fun h => (0 <= h < 65536)%Z) hextets.

(** *** Globs as the specification reads them *)

(** A glob matches a hostname when it accounts for the whole of it:
    a star stands for any run of characters other than line terminators,
    every other character for itself, whatever the case of letters. *)
Fixpoint globMatch (pattern hostname : str) : bool :=
  match pattern with
  | [] => isEmpty hostname
  | c :: pattern' =>
      if ascii_eqb c "*"%char then
        (fix run (h : str) : bool :=
           globMatch pattern' h
           || match h with
              | d :: h' => negb (isLineTerminator d) && run h'
              | [] => false
              end) hostname
      else
        match hostname with
        | d :: h' => ci_eqb c d && globMatch pattern' h'
        | [] => false
        end
  end.

(** What a character of a glob becomes in the source of the regular
    expression, and its tokens and its item. *)
Definition globChar (c : ascii) : str :=
  if ascii_eqb c "*"%char then lit ".*"
  else if isRegexSpecial c then ["\"%char; c]
  else [c].

Definition globTokens (c : ascii) : list token_kind :=
  if ascii_eqb c "*"%char then [TAtom Dot; TStar] else [TAtom (Chr c)].

Definition globItem (c : ascii) : item :=
  if ascii_eqb c "*"%char then Star Dot else One (Chr c).

(** *** Occurrences of a secret value, as the specification reads them *)

Section Occurrences.

Context {platform : Platform}.

(** The value occurs in a header: literally in its value, or in the
    decoded credentials of an [Authorization] or [Proxy-Authorization]
    header of the Basic scheme. *)
Definition valueAppearsInHeader (v : str) (header : str * str) : bool :=
  let '(headerName, headerValue) := header in
  includes headerValue v
  || (isCredentialHeader headerName
      && match decodeBasicAuth headerValue with
         | Some decoded => includes decoded v
         | None => false
         end).

Definition valueAppearsInHeaders (v : str) (hdrs : list (str * str)) : bool :=
  existsb (valueAppearsInHeader v) hdrs.

(** The query parameters of a URL: none when it does not parse or has no
    query. *)
Definition queryParameters (u : str) : list (str * str) :=
  match URL_parse u with
  | Some parsed =>
      if isEmpty (URL_search parsed) then [] else URL_searchParams parsed
  | None => []
  end.

(** The value occurs in the name or in the value of a query parameter. *)
Definition valueAppearsInQuery (v u : str) : bool :=
  existsb (fun '(n, x) => includes n v || includes x v) (queryParameters u).

(** *** What the substitution is to give *)

(** Every occurrence of every placeholder replaced by the value of its
    secret, one secret after the other in the order of the table. *)
Definition substituteAll (entries : list SecretEntry) (s : str) : str :=
  fold_left (fun s e => replaceAll s (placeholder e) (value e)) entries s.

(** The value of a header after the Basic pass: on an [Authorization] or
    [Proxy-Authorization] header of the Basic scheme the credentials are
    decoded and substituted and, when that changed them, encoded again
    between the scheme, the white space and the trailing white space;
    any other value is kept. *)
Definition substitutedBasic (entries : list SecretEntry)
    (headerName headerValue : str) : str :=
  if isCredentialHeader headerName then
    match matchBasic headerValue with
    | Some m =>
        let decoded := utf8_toString (base64_decode (token m)) in
        if str_eqb (substituteAll entries decoded) decoded then headerValue
        else scheme m ++ whitespace m
             ++ base64_encode (substituteAll entries decoded) ++ trailing m
    | None => headerValue
    end
  else headerValue.

(** A header after the substitution: the name is kept, the value is
    substituted as a string and then as a Basic credential. *)
Definition substitutedHeader (entries : list SecretEntry)
    (header : str * str) : str * str :=
  (fst header,
   substitutedBasic entries (fst header)
     (substituteAll entries (snd header))).

(** A query parameter after the substitution, in its name and in its
    value. *)
Definition substitutedParameter (entries : list SecretEntry)
    (param : str * str) : str * str :=
  (substituteAll entries (fst param), substituteAll entries (snd param)).

(** A URL after the substitution in its query parameters: the URL itself
    when it does not parse, has no query or has no parameter that the
    substitution changes, and otherwise the URL written again with the
    substituted parameters as its query. *)
Definition substitutedUrl (entries : list SecretEntry) (u : str) : str :=
  match URL_parse u with
  | None => u
  | Some parsed =>
      if isEmpty (URL_search parsed) then u
      else
        let params := map (substitutedParameter entries)
                          (URL_searchParams parsed) in
        if params_eqb params (URL_searchParams parsed) then u
        else
          let search := URLSearchParams_toString params in
          URL_toString_withSearch parsed
            (if isEmpty search then [] else lit "?" ++ search)
  end.

(** A request after the substitution: the method and the body are kept,
    the headers are substituted, and so is the URL when the query flag is
    on. *)
Definition substitutedRequest (entries : list SecretEntry)
    (replaceSecretsInQuery : option bool) (request : HttpHookRequest)
  : HttpHookRequest :=
  mkRequest (method request)
    (if orElse replaceSecretsInQuery false
     then substitutedUrl entries (url request) else url request)
    (map (substitutedHeader entries) (headers request))
    (body request).


(** An entry the defence fails the request for: its secret is not
    allowed for the host, its value is not empty and occurs in a header
    or, when the query is checked, in a query parameter. *)
Definition offends (request : HttpHookRequest) (hostname : str)
    (checkQuery : bool) (entry : SecretEntry) : bool :=
  negb (matchesAnyHost hostname (hosts entry))
  && negb (isEmpty (value entry))
  && (valueAppearsInHeaders (value entry) (headers request)
      || checkQuery && valueAppearsInQuery (value entry) (url request)).

End Occurrences.

(** *** The list of hosts, as the specification reads it *)

(** The first occurrence of each string, in order. *)
Fixpoint keepFirst (l : list str) : list str :=
  match l with
  | [] => []
  | x :: rest => x :: filter (fun y => negb (str_eqb y x)) (keepFirst rest)
  end.

(** The patterns [uniqueHosts] keeps: normalized and not empty. *)
Definition keptPatterns (hostList : list str) : list str :=
  filter (fun h => negb (isEmpty h)) (map normalizeHostnamePattern hostList).

(** ** A platform for the examples

    URLs of the form [scheme://host/path?query] without escapes, a
    generator whose [k]-th draw repeats the byte [k], [Number] on decimal
    digits, and a few IPv6 texts. *)

Record DemoURL := mkDemoURL {
  demo_scheme : str;
  demo_host : str;
  demo_path : str;
  demo_query : str
}.

Definition isNot (c : ascii) (d : ascii) : bool := negb (ascii_eqb d c).

Definition demo_parse (s : str) : option DemoURL :=
  match split s (lit "://") with
  | [sch; rest] =>
      let '(before, after) := span (isNot "?"%char) rest in
      let '(host, path) := span (isNot "/"%char) before in
      if isEmpty sch || isEmpty host then None
      else Some (mkDemoURL sch (toLowerCase host) path (tl after))
  | _ => None
  end.

Definition demo_search (u : DemoURL) : str :=
  if isEmpty (demo_query u) then [] else lit "?" ++ demo_query u.

Definition demo_searchParams (u : DemoURL) : list (str * str) :=
  map (fun kv => let '(k, v) := span (isNot "="%char) kv in (k, tl v))
      (filter (fun kv => negb (isEmpty kv)) (split (demo_query u) (lit "&"))).

Definition demo_toString_withSearch (u : DemoURL) (search : str) : str :=
  demo_scheme u ++ lit "://" ++ demo_host u
  ++ (if isEmpty (demo_path u) then lit "/" else demo_path u) ++ search.

Definition demo_params_toString (params : list (str * str)) : str :=
  join (lit "&") (map (fun '(k, v) => k ++ lit "=" ++ v) params).

Definition demo_randomBytes (n : nat) (g : N) : list ascii * N :=
  (repeat (byte g) n, (g + 1)%N).

Definition demo_Number (s : str) : option Z :=
  if negb (isEmpty s) && forallb isDigit s
  then Some (Z.of_N (digitsValue s)) else None.

Definition demo_hextets (s : str) : option (list Z) :=
  if str_eqb s (lit "::") then Some [0; 0; 0; 0; 0; 0; 0; 0]%Z
  else if str_eqb s (lit "::1") then Some [0; 0; 0; 0; 0; 0; 0; 1]%Z
  else if str_eqb s (lit "fe80::1") then Some [65152; 0; 0; 0; 0; 0; 0; 1]%Z
  else if str_eqb s (lit "fd00::1") then Some [64768; 0; 0; 0; 0; 0; 0; 1]%Z
  else if str_eqb s (lit "2001:db8::1")
  then Some [8193; 3512; 0; 0; 0; 0; 0; 1]%Z
  else if str_eqb s (lit "::ffff:10.0.0.1")
  then Some [0; 0; 0; 0; 0; 65535; 2560; 1]%Z
  else None.

Definition demo_isIPv6 (s : str) : bool :=
  match demo_hextets s with Some _ => true | None => false end.

Definition demo_extractIPv4Mapped (hextets : list Z) : option str :=
  match hextets with
  | [0; 0; 0; 0; 0; 65535; hi; lo]%Z =>
      Some (dotted (Z.to_N (hi / 256)) (Z.to_N (hi mod 256))
                   (Z.to_N (lo / 256)) (Z.to_N (lo mod 256)))
  | _ => None
  end.

Definition demoPlatform : Platform := {|
  URL := DemoURL;
  URL_parse := demo_parse;
  URL_hostname := demo_host;
  URL_search := demo_search;
  URL_searchParams := demo_searchParams;
  URL_toString_withSearch := demo_toString_withSearch;
  URLSearchParams_toString := demo_params_toString;
  Rng := N;
  randomBytes := demo_randomBytes;
  net_isIPv6 := demo_isIPv6;
  Number_integer := demo_Number;
  parseIPv6Hextets := demo_hextets;
  extractIPv4Mapped := demo_extractIPv4Mapped
|}.

(** ** Examples *)

(** The policy of scenario S3: one secret for one host. *)
Definition exampleOptions : CreateHttpHooksOptions unit :=
  mkOptions (Some [lit "api.example.com"])
    (Some [(lit "TOKEN",
            mkSecretDefinition [lit "api.example.com"] (lit "s3cr3t"))])
    None None None.

Definition exampleHooks : CreateHttpHooksResult :=
  fst (createHttpHooks (platform := demoPlatform) exampleOptions 0%N).

Definition exampleEntries : list SecretEntry := secretEntries exampleHooks.

Definition examplePlaceholder : str :=
  lit "GONDOLIN_SECRET_000000000000000000000000000000000000000000000000".

(** Scenario S4: the value of the secret in a header of a request to
    another host. *)
Definition leakRequest : HttpHookRequest :=
  mkRequest (lit "GET") (lit "https://evil.test/")
    [(lit "X-Leak", lit "s3cr3t")] None.

(** A secret whose value is the empty string. *)
Definition emptySecretOptions : CreateHttpHooksOptions unit :=
  mkOptions None
    (Some [(lit "TOKEN", mkSecretDefinition [lit "api.example.com"] [])])
    None None None.

Definition emptySecretEntries : list SecretEntry :=
  secretEntries
    (fst (createHttpHooks (platform := demoPlatform) emptySecretOptions 0%N)).

Definition plainRequest : HttpHookRequest :=
  mkRequest (lit "GET") (lit "https://evil.test/")
    [(lit "Accept", lit "text/plain")] None.

(** Two secrets for different hosts. *)
Definition twoSecretOptions : CreateHttpHooksOptions unit :=
  mkOptions None
    (Some [(lit "TOKEN",
            mkSecretDefinition [lit "api.example.com"] (lit "s3cr3t"));
           (lit "KEY", mkSecretDefinition [lit "*.github.com"] (lit "hunter2"))])
    None None None.


Definition secondPlaceholder : str :=
  lit "GONDOLIN_SECRET_010101010101010101010101010101010101010101010101".


(** The value of the secret in the query of a request to another host. *)
Definition queryLeakRequest : HttpHookRequest :=
  mkRequest (lit "GET") (lit "https://evil.test/?q=s3cr3t")
    [(lit "Accept", lit "text/plain")] None.

(** A placeholder in the query and in a Basic credential of a request to
    the host of the secret. *)
Definition queryRequest : HttpHookRequest :=
  mkRequest (lit "GET")
    (lit "https://api.example.com/?q=" ++ examplePlaceholder ++ lit "&z=1")
    [(lit "authorization",
      lit "Basic " ++ base64_encode (lit "user:" ++ examplePlaceholder))]
    None.

(** A request whose URL does not parse. *)
Definition brokenRequest : HttpHookRequest :=
  mkRequest (lit "GET") (lit "not a url")
    [(lit "Authorization", lit "Bearer " ++ examplePlaceholder)] None.

(** What the hooks are to make of [queryRequest] with the query flag on
    and with the flag off. *)
Definition queryResult : HttpHookRequest :=
  mkRequest (lit "GET") (lit "https://api.example.com/?q=s3cr3t&z=1")
    [(lit "authorization",
      lit "Basic " ++ base64_encode (lit "user:s3cr3t"))]
    None.

Definition queryResultFlagOff : HttpHookRequest :=
  mkRequest (lit "GET")
    (lit "https://api.example.com/?q=" ++ examplePlaceholder ++ lit "&z=1")
    [(lit "authorization",
      lit "Basic " ++ base64_encode (lit "user:s3cr3t"))]
    None.


(** A blank pattern among the allowed hosts. *)
Definition blankPatternOptions : CreateHttpHooksOptions unit :=
  mkOptions (Some [lit " "; lit "Example.com"]) None None None None.

(** ** Notions the further properties use *)

(** No character of the string is a line terminator. *)
Definition noLineTerminator (s : str) : bool :=
  forallb (fun c => negb (isLineTerminator c)) s.

(** The placeholders of the table are absent from a string. *)
Definition placeholderFree (entries : list SecretEntry) (s : str) : Prop :=
  Forall (fun e => includes s (placeholder e) = false) entries.

(** The message is the one for a secret of the table that is not allowed
    for the host. *)
Definition namesDeniedSecret (entries : list SecretEntry) (hostname : str)
    (message : str) : Prop :=
  exists e, In e entries /\ matchesAnyHost hostname (hosts e) = false
            /\ message = notAllowedMessage e hostname.

(** ** Build configuration *)

(** The values [validateBuildConfig] may be given; the payload of a number
    is never looked at. *)
#[warnings="-register-all"] Inductive jsValue :=
| VUndefined
| VNull
| VBool (b : bool)
| VNumber (n : Z)
| VString (s : str)
| VArray (items : list jsValue)
| VObject (fields : list (str * jsValue)).

(** [typeof v] *)
Definition typeOf (v : jsValue) : str :=
  match v with
  | VUndefined => lit "undefined"
  | VNull => lit "object"
  | VBool _ => lit "boolean"
  | VNumber _ => lit "number"
  | VString _ => lit "string"
  | VArray _ => lit "object"
  | VObject _ => lit "object"
  end.

(** The own property [key] of an object given by its entries. *)
Fixpoint lookup (fields : list (str * jsValue)) (key : str) : jsValue :=
  match fields with
  | [] => VUndefined
  | (k, v) :: rest => if str_eqb k key then v else lookup rest key
  end.

(** A key that is the index of an array element: decimal digits without a
    leading zero. *)
Definition arrayIndex (key : str) : option nat :=
  match key with
  | [] => None
  | c :: rest =>
      if forallb isDigit key
         && negb (ascii_eqb c "0"%char && negb (isEmpty rest))
      then Some (N.to_nat (digitsValue key)) else None
  end.

(** [v.key] on an object or an array, own properties only; the validation
    reads no property of another value. *)
Definition getProp (v : jsValue) (key : str) : jsValue :=
  match v with
  | VObject fields => lookup fields key
  | VArray items =>
      if str_eqb key (lit "length") then VNumber (Z.of_nat (length items))
      else match arrayIndex key with
           | Some i => nth i items VUndefined
           | None => VUndefined
           end
  | _ => VUndefined
  end.

Definition isUndefined (v : jsValue) : bool :=
  match v with VUndefined => true | _ => false end.

Definition isNull (v : jsValue) : bool :=
  match v with VNull => true | _ => false end.

(** [v === s] for a string literal [s] *)
Definition isTheString (v : jsValue) (s : str) : bool :=
  match v with VString t => str_eqb t s | _ => false end.

(** [typeof v !== "object" || v === null] *)
Definition notAnObject (v : jsValue) : bool :=
  negb (str_eqb (typeOf v) (lit "object")) || isNull v.

Definition validateBuildConfig (config : jsValue) : bool :=
  if notAnObject config then false
  else
    let arch := getProp config (lit "arch") in
    let distro := getProp config (lit "distro") in
    if negb (isTheString arch (lit "aarch64"))
       && negb (isTheString arch (lit "x86_64")) then false
    else if negb (isTheString distro (lit "alpine"))
            && negb (isTheString distro (lit "nixos")) then false
    else if isTheString distro (lit "alpine")
            && negb (isUndefined (getProp config (lit "alpine")))
            && (notAnObject (getProp config (lit "alpine"))
                || negb (str_eqb
                           (typeOf (getProp (getProp config (lit "alpine"))
                                            (lit "version")))
                           (lit "string"))) then false
    else if isTheString distro (lit "nixos")
            && (isUndefined (getProp config (lit "nixos"))
                || notAnObject (getProp config (lit "nixos"))
                || negb (str_eqb
                           (typeOf (getProp (getProp config (lit "nixos"))
                                            (lit "channel")))
                           (lit "string"))) then false
    else true.

(** [getDefaultArch], of [process.arch] *)
Definition getDefaultArch (processArch : str) : str :=
  if str_eqb processArch (lit "arm64") then lit "aarch64" else lit "x86_64".

(** [getDefaultBuildConfig], of [process.arch] *)
Definition getDefaultBuildConfig (processArch : str) : jsValue :=
  VObject
    [(lit "arch", VString (getDefaultArch processArch));
     (lit "distro", VString (lit "alpine"));
     (lit "alpine",
      VObject
        [(lit "version", VString (lit "3.23.0"));
         (lit "kernelPackage", VString (lit "linux-virt"));
         (lit "kernelImage", VString (lit "vmlinuz-virt"));
         (lit "rootfsPackages",
          VArray (map (fun s => VString (lit s))
                      ["linux-virt"; "rng-tools"; "bash"; "ca-certificates";
                       "curl"; "nodejs"; "npm"; "uv"; "python3"]%string));
         (lit "initramfsPackages", VArray [])]);
     (lit "rootfs", VObject [(lit "label", VString (lit "gondolin-root"))])].

(** ** Further examples *)

(** Scenario S3: the placeholder in a bearer token for the host of the
    secret, and what the hooks make of it. *)
Definition bearerRequest : HttpHookRequest :=
  mkRequest (lit "GET") (lit "https://api.example.com/user")
    [(lit "Accept", lit "text/plain");
     (lit "Authorization", lit "Bearer " ++ examplePlaceholder)] None.

Definition bearerResult : HttpHookRequest :=
  mkRequest (lit "GET") (lit "https://api.example.com/user")
    [(lit "Accept", lit "text/plain");
     (lit "Authorization", lit "Bearer s3cr3t")] None.

(** A NixOS configuration, and the same with a size where the rootfs
    section should be. *)
Definition nixosFields : list (str * jsValue) :=
  [(lit "arch", VString (lit "x86_64"));
   (lit "distro", VString (lit "nixos"));
   (lit "nixos", VObject [(lit "channel", VString (lit "nixos-24.05"))])].

Definition nixosFieldsWithRootfs : list (str * jsValue) :=
  (lit "rootfs", VNumber 5) :: nixosFields.

(** A request to the host of the secret with a Basic credential and a
    query, none of which holds a value or a placeholder of a secret. *)
Definition cleanRequest : HttpHookRequest :=
  mkRequest (lit "POST") (lit "https://API.example.com?page=2")
    [(lit "Accept", lit "text/plain");
     (lit "Authorization", lit "Basic " ++ base64_encode (lit "user:pw"))]
    (Some (lit "payload")).

(** The value of the secret in a Basic credential of a request to another
    host. *)
Definition encodedLeakRequest : HttpHookRequest :=
  mkRequest (lit "GET") (lit "https://evil.test/")
    [(lit "authorization",
      lit "BASIC" ++ lit " " ++ base64_encode (lit "user:s3cr3t") ++ [])]
    None.

(** * Properties *)

Unset Implicit Arguments.

(** ** Strings *)

Lemma ascii_eqb_eq (a b : ascii) : ascii_eqb a b = true <-> a = b.
Proof. apply Ascii.eqb_eq. Qed.

Lemma ascii_eqb_refl (a : ascii) : ascii_eqb a a = true.
Proof. apply Ascii.eqb_refl. Qed.

Lemma ascii_eqb_neq (a b : ascii) : ascii_eqb a b = false <-> a <> b.
Proof. apply Ascii.eqb_neq. Qed.

Lemma str_eqb_eq (a b : str) : str_eqb a b = true <-> a = b.
Proof.
  revert b; induction a as [|c a IH]; intros [|d b]; simpl; split;
    try congruence; try reflexivity.
  - rewrite andb_true_iff, ascii_eqb_eq, IH. intros [-> ->]; reflexivity.
  - intros E; injection E as -> ->.
    rewrite ascii_eqb_refl; simpl. apply IH; reflexivity.
Qed.

Lemma str_eqb_refl (a : str) : str_eqb a a = true.
Proof. apply str_eqb_eq; reflexivity. Qed.

Lemma str_eqb_neq (a b : str) : str_eqb a b = false <-> a <> b.
Proof.
  split.
  - intros E H. apply str_eqb_eq in H. congruence.
  - intros H. destruct (str_eqb a b) eqn:E; [|reflexivity].
    apply str_eqb_eq in E. contradiction.
Qed.

Lemma isEmpty_true (s : str) : isEmpty s = true <-> s = [].
Proof. destruct s; simpl; split; congruence. Qed.

Lemma isEmpty_false (s : str) : isEmpty s = false <-> s <> [].
Proof. destruct s; simpl; split; congruence. Qed.

Lemma startsWith_iff (s p : str) :
  startsWith s p = true <-> exists r, s = p ++ r.
Proof.
  revert s; induction p as [|c p IH]; intros s; simpl.
  - split; [intros _; exists s; reflexivity | intros _; destruct s; reflexivity].
  - destruct s as [|d s].
    + split; [discriminate | intros [r E]; discriminate].
    + simpl. rewrite andb_true_iff, ascii_eqb_eq, IH. split.
      * intros [-> [r ->]]. exists r; reflexivity.
      * intros [r E]. injection E as -> ->. split; [reflexivity | eauto].
Qed.

Lemma startsWith_app (p r : str) : startsWith (p ++ r) p = true.
Proof. apply startsWith_iff; eauto. Qed.

Lemma includes_nil (p : str) : includes [] p = startsWith [] p.
Proof. simpl. apply orb_false_r. Qed.

Lemma includes_cons (c : ascii) (s p : str) :
  includes (c :: s) p = startsWith (c :: s) p || includes s p.
Proof. reflexivity. Qed.

Lemma includes_iff (s p : str) :
  includes s p = true <-> exists a b, s = a ++ p ++ b.
Proof.
  induction s as [|c s IH].
  - rewrite includes_nil, startsWith_iff. split.
    + intros [r E]. exists [], r. exact E.
    + intros [a [b E]]. destruct a; [eauto|discriminate].
  - rewrite includes_cons, orb_true_iff, IH, startsWith_iff. split.
    + intros [[r E] | [a [b E]]].
      * exists [], r. exact E.
      * exists (c :: a), b. rewrite E. reflexivity.
    + intros [[|d a] [b E]].
      * left. exists b. exact E.
      * right. injection E as -> E. eauto.
Qed.

Lemma includes_app_intro (a p b : str) : includes (a ++ p ++ b) p = true.
Proof. apply includes_iff; eauto. Qed.

Lemma includes_self (p : str) : includes p p = true.
Proof. apply includes_iff. exists [], []. rewrite app_nil_r. reflexivity. Qed.

Lemma includes_app_r (x s p : str) :
  includes s p = true -> includes (x ++ s) p = true.
Proof.
  rewrite !includes_iff. intros [a [b ->]].
  exists (x ++ a), b. rewrite app_assoc. reflexivity.
Qed.

Lemma includes_app_l (x s p : str) :
  includes s p = true -> includes (s ++ x) p = true.
Proof.
  rewrite !includes_iff. intros [a [b ->]].
  exists a, (b ++ x). rewrite <- !app_assoc. reflexivity.
Qed.

Lemma includes_empty (s : str) : includes s [] = true.
Proof. destruct s; reflexivity. Qed.

(** *** split and join *)

Lemma split_go_nonempty (sep s : str) (k : nat) : split_go sep s k <> [].
Proof.
  revert k; induction s as [|c s IH]; intros k.
  - simpl; discriminate.
  - destruct k as [|k]; cbn [split_go]; [|apply IH].
    destruct (startsWith (c :: s) sep); [discriminate|].
    destruct (split_go sep s 0); simpl; discriminate.
Qed.

Lemma split_go_skip (sep x r : str) :
  split_go sep (x ++ r) (length x) = split_go sep r 0.
Proof. induction x as [|c x IH]; simpl; [reflexivity | exact IH]. Qed.

(** The scan at an occurrence of the separator. *)
Lemma split_go_match (sep r : str) :
  sep <> [] -> split_go sep (sep ++ r) 0 = [] :: split_go sep r 0.
Proof.
  intros Hne. destruct sep as [|c sep]; [contradiction|].
  change ((c :: sep) ++ r) with (c :: (sep ++ r)).
  unfold split_go at 1; fold split_go.
  change (c :: sep ++ r) with ((c :: sep) ++ r).
  rewrite startsWith_app.
  replace (length (c :: sep) - 1) with (length sep) by (simpl; lia).
  rewrite split_go_skip. reflexivity.
Qed.

(** The scan at a character where the separator does not start. *)
Lemma split_go_step (sep : str) (c : ascii) (s : str) :
  startsWith (c :: s) sep = false ->
  split_go sep (c :: s) 0 = push_front c (split_go sep s 0).
Proof. intros E. cbn [split_go]. rewrite E. reflexivity. Qed.

Lemma join_cons (sep p : str) (ps : list str) :
  ps <> [] -> join sep (p :: ps) = p ++ sep ++ join sep ps.
Proof. destruct ps; [contradiction | reflexivity]. Qed.

Lemma join_push_front (sep : str) (c : ascii) (ps : list str) :
  ps <> [] -> join sep (push_front c ps) = c :: join sep ps.
Proof.
  destruct ps as [|p [|q ps]]; [contradiction| |]; reflexivity.
Qed.

(** *** replaceAll, by the three cases of the scan *)

Lemma replaceAll_nil (search replacement : str) :
  replaceAll [] search replacement = [].
Proof. unfold replaceAll. destruct search; reflexivity. Qed.

Lemma replaceAll_match (search replacement r : str) :
  search <> [] ->
  replaceAll (search ++ r) search replacement
  = replacement ++ replaceAll r search replacement.
Proof.
  intros Hne. unfold replaceAll.
  destruct search as [|c search]; [contradiction|]. simpl isEmpty. cbv iota.
  unfold split. rewrite split_go_match by discriminate.
  rewrite join_cons by apply split_go_nonempty. reflexivity.
Qed.

Lemma replaceAll_step (search replacement : str) (c : ascii) (s : str) :
  startsWith (c :: s) search = false ->
  replaceAll (c :: s) search replacement
  = c :: replaceAll s search replacement.
Proof.
  intros E. unfold replaceAll.
  destruct search as [|d search]; [discriminate|]. simpl isEmpty. cbv iota.
  unfold split. rewrite split_go_step by exact E.
  rewrite join_push_front by apply split_go_nonempty. reflexivity.
Qed.

Lemma replaceAll_absent (s search replacement : str) :
  includes s search = false -> replaceAll s search replacement = s.
Proof.
  induction s as [|c s IH]; intros H.
  - apply replaceAll_nil.
  - simpl in H. apply orb_false_iff in H as [H1 H2].
    rewrite replaceAll_step by exact H1. rewrite IH by exact H2. reflexivity.
Qed.

Lemma includes_nil_false (sep : str) : sep <> [] -> includes [] sep = false.
Proof. destruct sep; [contradiction | reflexivity]. Qed.



Lemma join_split (s sep : str) : sep <> [] -> join sep (split s sep) = s.
Proof.
  intros Hne. unfold split. destruct sep as [|d sep]; [contradiction|].
  remember (d :: sep) as p eqn:Hp.
  assert (forall n s, length s <= n -> join p (split_go p s 0) = s) as H.
  { induction n as [|n IH]; intros t Hlen.
    - destruct t; [reflexivity | simpl in Hlen; lia].
    - destruct t as [|c t]; [reflexivity|].
      destruct (startsWith (c :: t) p) eqn:E.
      + apply startsWith_iff in E as [r E]. rewrite E.
        rewrite split_go_match by exact Hne.
        rewrite join_cons by apply split_go_nonempty.
        rewrite IH; [reflexivity|].
        apply (f_equal (@length ascii)) in E. rewrite length_app in E.
        simpl in E, Hlen. subst p. simpl in E. lia.
      + rewrite split_go_step by exact E.
        rewrite join_push_front by apply split_go_nonempty.
        rewrite IH; [reflexivity | simpl in Hlen; lia]. }
  apply (H (length s)). apply le_n.
Qed.


(** *** Occurrences of one string survive the replacement of another *)

Lemma app_eq_length (A : Type) (a b c d : list A) :
  a ++ b = c ++ d -> length a = length c -> a = c /\ b = d.
Proof.
  revert c; induction a as [|x a IH]; intros [|y c] E L;
    simpl in *; try discriminate; [auto|].
  injection E as -> E. injection L as L.
  destruct (IH c E L) as [-> ->]. auto.
Qed.

Lemma replaceAll_through (p q v b : str) :
  p <> [] -> apart p q -> p <> q ->
  forall q2 q1, q = q1 ++ q2 ->
    replaceAll (q2 ++ b) p v = q2 ++ replaceAll b p v.
Proof.
  intros Hp Hapart Hneq. induction q2 as [|c q2 IH]; intros q1 Hq.
  - reflexivity.
  - assert (startsWith (c :: q2 ++ b) p = false) as E.
    { destruct (startsWith (c :: q2 ++ b) p) eqn:E; [|reflexivity].
      apply startsWith_iff in E as [r E]. exfalso.
      assert (q1 ++ p ++ r = [] ++ q ++ b) as H.
      { rewrite <- E, Hq. simpl. rewrite <- app_assoc. reflexivity. }
      apply Hapart in H as [H | [H | H]].
      - simpl in H. destruct p; [contradiction | simpl in H; lia].
      - rewrite Hq, length_app in H. simpl in H. lia.
      - contradiction. }
    change ((c :: q2) ++ b) with (c :: q2 ++ b).
    rewrite replaceAll_step by exact E.
    rewrite (IH (q1 ++ [c])); [reflexivity|].
    rewrite <- app_assoc. exact Hq.
Qed.

Lemma replaceAll_keeps (p q v : str) :
  p <> [] -> q <> [] -> apart p q -> p <> q ->
  forall s, includes s q = true -> includes (replaceAll s p v) q = true.
Proof.
  intros Hp Hq Hapart Hneq s Hs.
  apply includes_iff in Hs as [a [b ->]].
  remember (length a) as n eqn:Hn. revert a Hn.
  induction n as [n IH] using lt_wf_ind. intros a Hn.
  destruct (startsWith (a ++ q ++ b) p) eqn:E.
  - apply startsWith_iff in E as [r E].
    assert ([] ++ p ++ r = a ++ q ++ b) as H by (simpl; congruence).
    apply Hapart in H as [H | [H | H]].
    + simpl in H.
      assert (exists a', a = p ++ a') as [a' ->].
      { exists (skipn (length p) a).
        rewrite <- (firstn_skipn (length p) a) at 1. f_equal.
        assert (firstn (length p) (p ++ r) = p) as F1.
        { rewrite firstn_app, Nat.sub_diag, firstn_O, app_nil_r.
          apply firstn_all. }
        assert (firstn (length p) (a ++ q ++ b) = firstn (length p) a) as F2.
        { rewrite firstn_app. replace (length p - length a) with 0 by lia.
          rewrite firstn_O, app_nil_r. reflexivity. }
        congruence. }
      rewrite <- app_assoc. rewrite replaceAll_match by exact Hp.
      apply includes_app_r.
      apply (IH (length a')); [|reflexivity].
      subst n. rewrite length_app. destruct p; [contradiction | simpl; lia].
    + simpl in H. destruct q; [contradiction | simpl in H; lia].
    + contradiction.
  - destruct a as [|c a].
    + simpl. rewrite (replaceAll_through p q v b Hp Hapart Hneq q [])
        by reflexivity.
      apply includes_iff. exists [], (replaceAll b p v). reflexivity.
    + change ((c :: a) ++ q ++ b) with (c :: a ++ q ++ b) in *.
      rewrite replaceAll_step by exact E.
      apply (includes_app_r [c]).
      apply (IH (length a)); [subst n; simpl; lia | reflexivity].
Qed.

Lemma apart_of_head (g : ascii) (rp rq : str) :
  ~ In g rp -> ~ In g rq -> length rp = length rq ->
  apart (g :: rp) (g :: rq).
Proof.
  intros Hp Hq Hlen x y u w E.
  destruct (Nat.lt_trichotomy (length x) (length u)) as [L | [L | L]].
  - destruct (Nat.le_gt_cases (length x + length (g :: rp)) (length u))
      as [L2 | L2]; [left; exact L2 | exfalso].
    apply Hp.
    assert (nth (length u) (x ++ (g :: rp) ++ y) g = g) as H.
    { rewrite E, app_nth2, Nat.sub_diag by lia. reflexivity. }
    rewrite app_nth2 in H by lia.
    simpl in L2. rewrite app_nth1 in H by (simpl; lia).
    destruct (length u - length x) as [|k] eqn:Hk; [lia|].
    simpl in H. rewrite <- H. apply nth_In. lia.
  - right; right.
    destruct (app_eq_length _ _ _ _ _ E L) as [_ E2].
    apply app_eq_length in E2 as [E2 _]; [exact E2 | simpl; lia].
  - destruct (Nat.le_gt_cases (length u + length (g :: rq)) (length x))
      as [L2 | L2]; [right; left; exact L2 | exfalso].
    apply Hq.
    assert (nth (length x) (u ++ (g :: rq) ++ w) g = g) as H.
    { rewrite <- E, app_nth2, Nat.sub_diag by lia. reflexivity. }
    rewrite app_nth2 in H by lia.
    simpl in L2. rewrite app_nth1 in H by (simpl; lia).
    destruct (length x - length u) as [|k] eqn:Hk; [lia|].
    simpl in H. rewrite <- H. apply nth_In. lia.
Qed.

(** *** Hex digits and placeholders *)

Lemma code_bounded (c : ascii) : (code c < 256)%N.
Proof. apply N_ascii_bounded. Qed.

Lemma code_ascii_of_N (n : N) : (n < 256)%N -> code (ascii_of_N n) = n.
Proof. apply N_ascii_embedding. Qed.

Lemma code_hexDigit (n : N) :
  (n < 16)%N ->
  code (hexDigit n) = (if n <? 10 then n + 48 else n + 87)%N.
Proof.
  intros H. unfold hexDigit. destruct (n <? 10)%N;
    apply code_ascii_of_N; lia.
Qed.

Lemma hexDigit_isHexChar (n : N) : (n < 16)%N -> isHexChar (hexDigit n) = true.
Proof.
  intros H. unfold isHexChar, isDigit. rewrite code_hexDigit by exact H.
  destruct (n <? 10)%N eqn:E.
  - apply N.ltb_lt in E. apply orb_true_iff. left.
    apply andb_true_iff; split; apply N.leb_le; lia.
  - apply N.ltb_ge in E. apply orb_true_iff. right.
    apply andb_true_iff; split; apply N.leb_le; lia.
Qed.

Lemma nibbles_bounded (b : ascii) :
  (code b / 16 < 16)%N /\ (code b mod 16 < 16)%N.
Proof.
  pose proof (code_bounded b). split.
  - apply N.Div0.div_lt_upper_bound. lia.
  - apply N.mod_lt. lia.
Qed.

Lemma toHex_isHexChar (bs : list ascii) : forallb isHexChar (toHex bs) = true.
Proof.
  induction bs as [|b bs IH]; [reflexivity|].
  destruct (nibbles_bounded b) as [H1 H2].
  unfold toHex in *. simpl.
  rewrite !hexDigit_isHexChar by assumption. exact IH.
Qed.

Lemma toHex_length (bs : list ascii) : length (toHex bs) = 2 * length bs.
Proof.
  induction bs as [|b bs IH]; [reflexivity|].
  unfold toHex in *. simpl. rewrite IH. lia.
Qed.

Lemma isHexChar_not_G (c : ascii) : isHexChar c = true -> c <> "G"%char.
Proof. intros H ->. discriminate H. Qed.

Lemma placeholder_shape (p : str) :
  isPlaceholder p ->
  exists rest, p = "G"%char :: rest /\ ~ In "G"%char rest /\ length p = 64.
Proof.
  intros [bytes [Hlen ->]].
  exists (lit "ONDOLIN_SECRET_" ++ toHex bytes). split; [reflexivity|]. split.
  - intros H. apply in_app_or in H as [H | H].
    + simpl in H. repeat (destruct H as [H | H]; [discriminate H|]). exact H.
    + pose proof (toHex_isHexChar bytes) as F.
      rewrite forallb_forall in F. apply F in H.
      apply isHexChar_not_G in H. congruence.
  - rewrite length_app, toHex_length, Hlen. reflexivity.
Qed.

Lemma placeholder_nonempty (p : str) : isPlaceholder p -> p <> [].
Proof.
  intros H. apply placeholder_shape in H as [rest [-> _]]. discriminate.
Qed.

Lemma placeholders_apart (p q : str) :
  isPlaceholder p -> isPlaceholder q -> apart p q.
Proof.
  intros Hp Hq.
  apply placeholder_shape in Hp as [rp [-> [Np Lp]]].
  apply placeholder_shape in Hq as [rq [-> [Nq Lq]]].
  apply apart_of_head; try assumption. simpl in Lp, Lq. lia.
Qed.

(** *** The pattern of a Basic credential *)

Lemma span_spec (f : ascii -> bool) (s a b : str) :
  span f s = (a, b) ->
  s = a ++ b /\ forallb f a = true
  /\ match b with c :: _ => f c = false | [] => True end.
Proof.
  revert a b; induction s as [|c s IH]; intros a b E; simpl in E.
  - injection E as <- <-. auto.
  - destruct (f c) eqn:Fc.
    + destruct (span f s) as [a' b'] eqn:E'. injection E as <- <-.
      destruct (IH a' b' eq_refl) as [-> [H1 H2]].
      simpl. rewrite Fc, H1. auto.
    + injection E as <- <-. simpl. rewrite Fc. auto.
Qed.

Lemma matchBasic_spec (v : str) (m : BasicMatch) :
  matchBasic v = Some m ->
  v = scheme m ++ whitespace m ++ token m ++ trailing m
  /\ ci_str_eqb (scheme m) (lit "Basic") = true
  /\ whitespace m <> [] /\ forallb isSpace (whitespace m) = true
  /\ token m <> []
  /\ forallb (fun c => negb (isSpace c)) (token m) = true
  /\ forallb isSpace (trailing m) = true.
Proof.
  unfold matchBasic. intros E.
  destruct (ci_str_eqb (firstn 5 v) (lit "Basic")) eqn:E1; [|discriminate].
  destruct (span isSpace (skipn 5 v)) as [ws r1] eqn:E2.
  destruct (span (fun c => negb (isSpace c)) r1) as [tok r2] eqn:E3.
  destruct (isEmpty ws || isEmpty tok || negb (forallb isSpace r2)) eqn:E4;
    [discriminate|].
  injection E as <-. cbn [scheme whitespace token trailing].
  apply orb_false_iff in E4 as [E4 E5]. apply orb_false_iff in E4 as [E4 E6].
  apply negb_false_iff in E5.
  apply span_spec in E2 as [E2 [S1 _]]. apply span_spec in E3 as [E3 [S2 _]].
  repeat split; try assumption.
  - rewrite <- E3, <- E2. symmetry. exact (firstn_skipn 5 v).
  - apply isEmpty_false. exact E4.
  - apply isEmpty_false. exact E6.
Qed.

(** ** Placeholder substitution *)

Section Substitution.

Context {platform : Platform}.

Lemma isBlocked_bind (A B : Type) (r : result A) (k : A -> result B) :
  isBlocked r = true -> isBlocked (bind r k) = true.
Proof. destruct r; simpl; congruence. Qed.

Lemma isBlocked_bind_inv (A B : Type) (r : result A) (k : A -> result B) :
  isBlocked (bind r k) = true ->
  isBlocked r = true \/ exists a, r = Ok a /\ isBlocked (k a) = true.
Proof. destruct r; simpl; eauto. Qed.

Lemma mapResult_blocked (A B : Type) (f : A -> result B) (l : list A) (a : A) :
  In a l -> isBlocked (f a) = true -> isBlocked (mapResult f l) = true.
Proof.
  induction l as [|x l IH]; intros Hin Hb; [contradiction|].
  simpl. destruct Hin as [-> | Hin].
  - apply isBlocked_bind. exact Hb.
  - destruct (f x); [|reflexivity]. simpl.
    apply isBlocked_bind. apply IH; assumption.
Qed.

(** One entry at its turn in the loop: an absent placeholder leaves the
    string alone. *)
Lemma replaceInString_absent (v hostname : str) entry rest :
  includes v (placeholder entry) = false ->
  replaceSecretPlaceholdersInString v hostname (entry :: rest)
  = replaceSecretPlaceholdersInString v hostname rest.
Proof. intros E. simpl. rewrite E. reflexivity. Qed.

(** A present placeholder of a secret allowed for the host is replaced. *)
Lemma replaceInString_allowed (v hostname : str) entry rest :
  includes v (placeholder entry) = true ->
  matchesAnyHost hostname (hosts entry) = true ->
  replaceSecretPlaceholdersInString v hostname (entry :: rest)
  = replaceSecretPlaceholdersInString
      (replaceAll v (placeholder entry) (value entry)) hostname rest.
Proof.
  intros E M. simpl. rewrite E. unfold assertSecretAllowedForHost.
  rewrite M. reflexivity.
Qed.

(** A present placeholder of a secret not allowed for the host throws. *)
Lemma replaceInString_denied (v hostname : str) entry rest :
  includes v (placeholder entry) = true ->
  matchesAnyHost hostname (hosts entry) = false ->
  replaceSecretPlaceholdersInString v hostname (entry :: rest)
  = HttpRequestBlockedError (notAllowedMessage entry hostname).
Proof.
  intros E M. simpl. rewrite E. unfold assertSecretAllowedForHost.
  rewrite M. reflexivity.
Qed.

Lemma replaceInString_none (v hostname : str) (entries : list SecretEntry) :
  Forall (fun e => includes v (placeholder e) = false) entries ->
  replaceSecretPlaceholdersInString v hostname entries = Ok v.
Proof.
  induction 1 as [|e rest H _ IH]; [reflexivity|].
  rewrite replaceInString_absent by exact H. exact IH.
Qed.

(** When every secret is allowed for the host the loop is the sequence of
    the replacements. *)
Lemma replaceInString_all_allowed (hostname : str) entries :
  Forall (fun e => matchesAnyHost hostname (hosts e) = true) entries ->
  forall v,
    replaceSecretPlaceholdersInString v hostname entries
    = Ok (fold_left
            (fun s e => replaceAll s (placeholder e) (value e)) entries v).
Proof.
  induction 1 as [|e rest H _ IH]; intros v; [reflexivity|].
  cbn [fold_left].
  destruct (includes v (placeholder e)) eqn:E.
  - rewrite replaceInString_allowed by assumption. apply IH.
  - rewrite replaceInString_absent by exact E.
    rewrite replaceAll_absent by exact E. apply IH.
Qed.

Lemma wellFormed_tail e (entries : list SecretEntry) :
  wellFormed (e :: entries) -> wellFormed entries.
Proof.
  intros [F N]. inversion F; subst. inversion N; subst. split; assumption.
Qed.

Lemma wellFormed_head e e' (entries : list SecretEntry) :
  wellFormed (e :: entries) -> In e' entries ->
  isPlaceholder (placeholder e) /\ isPlaceholder (placeholder e')
  /\ placeholder e <> placeholder e'.
Proof.
  intros [F N] Hin. inversion F as [|? ? He Hrest]; subst.
  inversion N as [|? ? Hnot _]; subst.
  rewrite Forall_forall in Hrest. repeat split; auto.
  intros E. apply Hnot. rewrite E. apply in_map. exact Hin.
Qed.

(** Among well-formed entries, the placeholder of a secret that is not
    allowed for the host makes the loop throw, wherever its entry stands
    in the table. *)
Lemma replaceInString_blocks (hostname : str) entries entry :
  wellFormed entries -> In entry entries ->
  matchesAnyHost hostname (hosts entry) = false ->
  forall v, includes v (placeholder entry) = true ->
    isBlocked (replaceSecretPlaceholdersInString v hostname entries) = true.
Proof.
  intros WF Hin M. induction entries as [|e rest IH]; [contradiction|].
  intros v Hv. destruct Hin as [-> | Hin].
  - rewrite replaceInString_denied by assumption. reflexivity.
  - destruct (wellFormed_head _ _ _ WF Hin) as [P1 [P2 Hneq]].
    apply wellFormed_tail in WF.
    destruct (includes v (placeholder e)) eqn:E.
    + destruct (matchesAnyHost hostname (hosts e)) eqn:M'.
      * rewrite replaceInString_allowed by assumption.
        apply IH; try assumption.
        apply replaceAll_keeps; auto using placeholder_nonempty,
          placeholders_apart.
      * rewrite replaceInString_denied by assumption. reflexivity.
    + rewrite replaceInString_absent by exact E. apply IH; assumption.
Qed.

Lemma replaceInHeaders_blocks (hostname : str) entries entry request n v :
  wellFormed entries -> In entry entries ->
  matchesAnyHost hostname (hosts entry) = false ->
  In (n, v) (headers request) -> includes v (placeholder entry) = true ->
  isBlocked (replaceSecretPlaceholdersInHeaders request hostname entries)
  = true.
Proof.
  intros WF Hin M Hh Hv. unfold replaceSecretPlaceholdersInHeaders.
  destruct entries as [|e0 rest]; [contradiction|].
  apply (mapResult_blocked _ _ _ _ _ Hh). unfold replaceInHeader.
  apply isBlocked_bind. apply (replaceInString_blocks _ _ _ WF Hin M). exact Hv.
Qed.

(** The Basic pass, on a credential header whose value has the pattern:
    the value is its four groups, and the pass decodes the third,
    substitutes in it and, when that changed it, encodes it again between
    the other three. *)
Lemma replaceBasicAuth_spec (headerName headerValue hostname : str)
    entries (m : BasicMatch) :
  isCredentialHeader headerName = true ->
  matchBasic headerValue = Some m ->
  let decoded := utf8_toString (base64_decode (token m)) in
  headerValue = scheme m ++ whitespace m ++ token m ++ trailing m
  /\ replaceBasicAuthSecretPlaceholders headerName headerValue hostname entries
     = match replaceSecretPlaceholdersInString decoded hostname entries with
       | HttpRequestBlockedError msg => HttpRequestBlockedError msg
       | Ok updated =>
           if str_eqb updated decoded then Ok headerValue
           else Ok (scheme m ++ whitespace m
                    ++ base64_encode updated ++ trailing m)
       end.
Proof.
  intros Hc Hm decoded. split.
  - apply matchBasic_spec in Hm. tauto.
  - unfold replaceBasicAuthSecretPlaceholders. rewrite Hc, Hm. simpl.
    fold decoded.
    destruct (replaceSecretPlaceholdersInString decoded hostname entries);
      reflexivity.
Qed.

Lemma replaceBasicAuth_other (headerName headerValue hostname : str) entries :
  isCredentialHeader headerName = false \/ matchBasic headerValue = None ->
  replaceBasicAuthSecretPlaceholders headerName headerValue hostname entries
  = Ok headerValue.
Proof.
  unfold replaceBasicAuthSecretPlaceholders. intros [H | H].
  - rewrite H. reflexivity.
  - rewrite H. destruct (isCredentialHeader headerName); reflexivity.
Qed.

End Substitution.

(** ** Internal addresses *)

Lemma startsWith_single (c d : ascii) (s : str) :
  startsWith (c :: s) [d] = ascii_eqb d c.
Proof. simpl. destruct s; apply andb_true_r. Qed.

(** Splitting at a character: a piece free of it is cut off whole. *)
Lemma split_char_cons (d : ascii) (p rest : str) :
  Forall (fun c => c <> d) p ->
  split (p ++ d :: rest) [d] = p :: split rest [d].
Proof.
  unfold split. induction 1 as [|c p Hc _ IH].
  - apply (split_go_match [d] rest). discriminate.
  - change ((c :: p) ++ d :: rest) with (c :: (p ++ d :: rest)).
    rewrite split_go_step.
    + rewrite IH. reflexivity.
    + rewrite startsWith_single. apply ascii_eqb_neq. congruence.
Qed.

Lemma split_char_last (d : ascii) (p : str) :
  Forall (fun c => c <> d) p -> split p [d] = [p].
Proof.
  unfold split. induction 1 as [|c p Hc _ IH]; [reflexivity|].
  rewrite split_go_step.
  - rewrite IH. reflexivity.
  - rewrite startsWith_single. apply ascii_eqb_neq. congruence.
Qed.

(** The numbers below a bound, for checks by enumeration. *)
Lemma below_in_seq (n : N) (bound : nat) :
  (n < N.of_nat bound)%N -> In n (map N.of_nat (seq 0 bound)).
Proof.
  intros H. apply in_map_iff. exists (N.to_nat n). split.
  - apply N2Nat.id.
  - apply in_seq. lia.
Qed.

Lemma showOctet_facts (n : N) :
  (n < 256)%N ->
  octet (showOctet n) = Some n
  /\ forallb (fun c => negb (ascii_eqb c "."%char)) (showOctet n) = true
  /\ forallb isDigit (showOctet n) = true
  /\ digitsValue (showOctet n) = n.
Proof.
  intros H.
  assert (forallb
            (fun n =>
               match octet (showOctet n) with
               | Some m => (m =? n)%N
               | None => false
               end
               && forallb (fun c => negb (ascii_eqb c "."%char)) (showOctet n)
               && forallb isDigit (showOctet n)
               && (digitsValue (showOctet n) =? n)%N)
            (map N.of_nat (seq 0 256)) = true) as F by (vm_compute; reflexivity).
  rewrite forallb_forall in F.
  specialize (F n (below_in_seq n 256 H)).
  apply andb_true_iff in F as [F F4]. apply andb_true_iff in F as [F F3].
  apply andb_true_iff in F as [F1 F2].
  destruct (octet (showOctet n)) as [m|]; [|discriminate].
  apply N.eqb_eq in F1, F4. subst m. auto.
Qed.

Lemma showOctet_no_dot (n : N) :
  (n < 256)%N -> Forall (fun c => c <> "."%char) (showOctet n).
Proof.
  intros H. destruct (showOctet_facts n H) as [_ [F _]].
  rewrite forallb_forall in F. apply Forall_forall. intros c Hc.
  specialize (F c Hc). apply negb_true_iff, ascii_eqb_neq in F. exact F.
Qed.

Lemma split_dotted (a b c d : N) :
  (a < 256)%N -> (b < 256)%N -> (c < 256)%N -> (d < 256)%N ->
  split (dotted a b c d) (lit ".")
  = [showOctet a; showOctet b; showOctet c; showOctet d].
Proof.
  intros Ha Hb Hc Hd. unfold dotted.
  change (lit ".") with ["."%char]. cbn [app].
  rewrite !split_char_cons by (apply showOctet_no_dot; assumption).
  rewrite split_char_last by (apply showOctet_no_dot; assumption).
  reflexivity.
Qed.

Lemma net_isIPv4_dotted (a b c d : N) :
  (a < 256)%N -> (b < 256)%N -> (c < 256)%N -> (d < 256)%N ->
  net_isIPv4 (dotted a b c d) = true.
Proof.
  intros Ha Hb Hc Hd. unfold net_isIPv4.
  rewrite split_dotted by assumption. cbn [map].
  destruct (showOctet_facts a Ha) as [-> _].
  destruct (showOctet_facts b Hb) as [-> _].
  destruct (showOctet_facts c Hc) as [-> _].
  destruct (showOctet_facts d Hd) as [-> _]. reflexivity.
Qed.

Ltac octet_arith :=
  unfold inCidr, ipv4Number;
  apply eq_true_iff_eq;
  rewrite ?andb_true_iff, ?Z.eqb_eq, ?Z.leb_le;
  split; intros; Z.div_mod_to_equations; lia.

Lemma inCidr_8 (a b c d a0 : Z) :
  (0 <= a < 256 -> 0 <= b < 256 -> 0 <= c < 256 -> 0 <= d < 256 ->
   0 <= a0 < 256 ->
   inCidr 32 (ipv4Number a b c d) (ipv4Number a0 0 0 0) 8 = (a =? a0))%Z.
Proof.
  intros. change (2 ^ (32 - 8))%Z with 16777216%Z. octet_arith.
Qed.

Lemma inCidr_16 (a b c d a0 b0 : Z) :
  (0 <= a < 256 -> 0 <= b < 256 -> 0 <= c < 256 -> 0 <= d < 256 ->
   0 <= a0 < 256 -> 0 <= b0 < 256 ->
   inCidr 32 (ipv4Number a b c d) (ipv4Number a0 b0 0 0) 16
   = (a =? a0) && (b =? b0))%Z.
Proof.
  intros. unfold inCidr. change (2 ^ (32 - 16))%Z with 65536%Z. octet_arith.
Qed.

Lemma inCidr_12 (a b c d : Z) :
  (0 <= a < 256 -> 0 <= b < 256 -> 0 <= c < 256 -> 0 <= d < 256 ->
   inCidr 32 (ipv4Number a b c d) (ipv4Number 172 16 0 0) 12
   = (a =? 172) && (16 <=? b) && (b <=? 31))%Z.
Proof.
  intros. unfold inCidr. change (2 ^ (32 - 12))%Z with 1048576%Z. octet_arith.
Qed.

Lemma inCidr_10 (a b c d : Z) :
  (0 <= a < 256 -> 0 <= b < 256 -> 0 <= c < 256 -> 0 <= d < 256 ->
   inCidr 32 (ipv4Number a b c d) (ipv4Number 100 64 0 0) 10
   = (a =? 100) && (64 <=? b) && (b <=? 127))%Z.
Proof.
  intros. unfold inCidr. change (2 ^ (32 - 10))%Z with 4194304%Z. octet_arith.
Qed.

Lemma below_in_seq_Z (z : Z) (bound : nat) :
  (0 <= z < Z.of_nat bound)%Z -> In z (map Z.of_nat (seq 0 bound)).
Proof.
  intros H. apply in_map_iff. exists (Z.to_nat z). split.
  - apply Z2Nat.id. lia.
  - apply in_seq. lia.
Qed.

(** The two masks of [isPrivateIPv6] on a number of 16 bits, checked on
    every pair of a high and a low byte. *)
Lemma hextet_masks (h : Z) :
  (0 <= h < 65536)%Z ->
  (Z.land (toInt32 h) 65024 =? 64512)%Z = (h / 512 =? 126)%Z
  /\ (Z.land (toInt32 h) 65472 =? 65152)%Z = (h / 64 =? 1018)%Z.
Proof.
  intros H.
  pose (bytes := map Z.of_nat (seq 0 256)).
  assert (forallb
            (fun hi =>
               forallb
                 (fun lo =>
                    let h := (hi * 256 + lo)%Z in
                    Bool.eqb (Z.land (toInt32 h) 65024 =? 64512)%Z
                             (h / 512 =? 126)%Z
                    && Bool.eqb (Z.land (toInt32 h) 65472 =? 65152)%Z
                                (h / 64 =? 1018)%Z)
                 bytes)
            bytes = true) as F
    by (vm_compute; reflexivity).
  rewrite forallb_forall in F.
  assert (In (h / 256)%Z bytes) as Hhi.
  { apply below_in_seq_Z. change (Z.of_nat 256) with 256%Z.
    Z.div_mod_to_equations. lia. }
  assert (In (h mod 256)%Z bytes) as Hlo.
  { apply below_in_seq_Z. change (Z.of_nat 256) with 256%Z.
    Z.div_mod_to_equations. lia. }
  specialize (F _ Hhi). rewrite forallb_forall in F.
  specialize (F _ Hlo). cbv zeta in F.
  replace (h / 256 * 256 + h mod 256)%Z with h in F
    by (Z.div_mod_to_equations; lia).
  apply andb_true_iff in F as [F1 F2].
  apply Bool.eqb_prop in F1, F2. auto.
Qed.

Lemma ipv6_blocks_arith (h0 h1 h2 h3 h4 h5 h6 h7 : Z) :
  Forall (fun h => (0 <= h < 65536)%Z) [h0; h1; h2; h3; h4; h5; h6; h7] ->
  inInternalIPv6Blocks [h0; h1; h2; h3; h4; h5; h6; h7]
  = (forallb (Z.eqb 0) [h0; h1; h2; h3; h4; h5; h6; h7]
     || forallb (Z.eqb 0) [h0; h1; h2; h3; h4; h5; h6] && (h7 =? 1)%Z
     || (h0 / 512 =? 126)%Z || (h0 / 64 =? 1018)%Z).
Proof.
  intros F.
  repeat match goal with
         | H : Forall _ (_ :: _) |- _ => inversion H; clear H; subst
         end.
  unfold inInternalIPv6Blocks, inCidr.
  change (ipv6Number [64512; 0; 0; 0; 0; 0; 0; 0] / 2 ^ (128 - 7))%Z
    with 126%Z.
  change (ipv6Number [65152; 0; 0; 0; 0; 0; 0; 0] / 2 ^ (128 - 10))%Z
    with 1018%Z.
  change (2 ^ (128 - 7))%Z with 2658455991569831745807614120560689152%Z.
  change (2 ^ (128 - 10))%Z with 332306998946228968225951765070086144%Z.
  unfold ipv6Number. cbn [fold_left forallb].
  apply eq_true_iff_eq.
  rewrite ?orb_true_iff, ?andb_true_iff, ?Z.eqb_eq.
  split; intros; Z.div_mod_to_equations; lia.
Qed.

Section Admission.

Context {platform : Platform}.

(** What the proofs need of [Number]: the decimal text of an octet is
    converted to that octet. *)
Hypothesis Number_octet :
  forall n, (n < 256)%N -> Number_integer (showOctet n) = Some (Z.of_N n).

Lemma isPrivateIPv4_dotted (a b c d : N) :
  (a < 256)%N -> (b < 256)%N -> (c < 256)%N -> (d < 256)%N ->
  isPrivateIPv4 (dotted a b c d)
  = inInternalIPv4Blocks (Z.of_N a) (Z.of_N b) (Z.of_N c) (Z.of_N d).
Proof.
  intros Ha Hb Hc Hd. unfold isPrivateIPv4.
  rewrite split_dotted by assumption. cbn [map].
  rewrite !Number_octet by assumption.
  cbn [length Nat.eqb negb existsb isNone orb].
  unfold inInternalIPv4Blocks, internalIPv4Blocks. cbn [existsb].
  rewrite !inCidr_8, !inCidr_16, inCidr_12, inCidr_10 by lia.
  repeat match goal with
         | |- context [if ?x then true else _] => destruct x; cbn [orb]
         end; reflexivity.
Qed.

Lemma isInternalAddress_dotted (a b c d : N) :
  (a < 256)%N -> (b < 256)%N -> (c < 256)%N -> (d < 256)%N ->
  isInternalAddress (dotted a b c d)
  = inInternalIPv4Blocks (Z.of_N a) (Z.of_N b) (Z.of_N c) (Z.of_N d).
Proof.
  intros Ha Hb Hc Hd. unfold isInternalAddress, net_isIP.
  rewrite net_isIPv4_dotted by assumption. cbn [Z.eqb Pos.eqb].
  apply isPrivateIPv4_dotted; assumption.
Qed.

End Admission.

Section AdmissionIPv6.

Context {platform : Platform}.

Lemma isPrivateIPv6_blocks (ip : str) (hextets : list Z) :
  parseIPv6Hextets ip = Some hextets -> isHextets hextets ->
  isPrivateIPv6 ip = inInternalIPv6Blocks hextets || mappedIsPrivate hextets.
Proof.
  intros Hp [Hlen Hr]. unfold isPrivateIPv6, mappedIsPrivate. rewrite Hp.
  destruct hextets as [|h0 [|h1 [|h2 [|h3 [|h4 [|h5 [|h6 [|h7 [|]]]]]]]]];
    try discriminate Hlen.
  rewrite ipv6_blocks_arith by exact Hr.
  assert (0 <= h0 < 65536)%Z as H0 by (inversion Hr; assumption).
  destruct (hextet_masks h0 H0) as [M1 M2].
  unfold hextetAnd. cbn [nth firstn nth_error]. rewrite M1, M2.
  destruct (forallb (Z.eqb 0) [h0; h1; h2; h3; h4; h5; h6; h7]);
    destruct (forallb (Z.eqb 0) [h0; h1; h2; h3; h4; h5; h6] && (h7 =? 1)%Z);
    destruct (h0 / 512 =? 126)%Z; destruct (h0 / 64 =? 1018)%Z;
    destruct (extractIPv4Mapped [h0; h1; h2; h3; h4; h5; h6; h7]) as [m|];
    try reflexivity; destruct (isEmpty m); reflexivity.
Qed.

Lemma net_isIP_6 (ip : str) :
  net_isIP ip = 6%Z -> isInternalAddress ip = isPrivateIPv6 ip.
Proof.
  unfold isInternalAddress. intros ->. reflexivity.
Qed.

Lemma isPrivateIPv6_mapped (ip : str) (hextets : list Z) (mapped : str) :
  parseIPv6Hextets ip = Some hextets ->
  extractIPv4Mapped hextets = Some mapped ->
  mapped <> [] -> isPrivateIPv4 mapped = true ->
  isPrivateIPv6 ip = true.
Proof.
  intros Hp He Hne Hm. unfold isPrivateIPv6. rewrite Hp, He, Hm.
  apply isEmpty_false in Hne. rewrite Hne.
  repeat match goal with |- (if ?x then true else _) = true =>
    destruct x; [reflexivity|] end.
  reflexivity.
Qed.

(** The admission denies whenever one of the built-in checks does, with
    the hook untouched, and otherwise gives what the hook gives. *)
Lemma isIpAllowed_cases (St : Type) (blockInternal : bool)
    (allowed : list str) (hook : option (IpHook St)) (info : IpInfo) (st : St) :
  (builtinAllows blockInternal allowed info = false ->
   isIpAllowed blockInternal allowed hook info st = (Some false, st))
  /\ (builtinAllows blockInternal allowed info = true ->
      isIpAllowed blockInternal allowed hook info st
      = match hook with Some h => h info st | None => (Some true, st) end).
Proof.
  unfold builtinAllows, isIpAllowed.
  destruct (blockInternal && isInternalAddress (info_ip info));
    destruct ((0 <? length allowed)
              && negb (matchesAnyHost (info_hostname info) allowed));
    simpl; split; intros H; try discriminate H; reflexivity.
Qed.

Lemma builtinAllows_false (blockInternal : bool) (allowed : list str)
    (info : IpInfo) :
  builtinAllows blockInternal allowed info = false
  <-> (blockInternal = true /\ isInternalAddress (info_ip info) = true)
      \/ (allowed <> []
          /\ matchesAnyHost (info_hostname info) allowed = false).
Proof.
  unfold builtinAllows.
  rewrite andb_false_iff, !negb_false_iff, !andb_true_iff, negb_true_iff.
  rewrite Nat.ltb_lt. split.
  - intros [H | [H1 H2]]; [left; exact H | right; split; [|exact H2]].
    intros ->. simpl in H1. lia.
  - intros [H | [H1 H2]]; [left; exact H | right; split; [|exact H2]].
    destruct allowed; [contradiction | simpl; lia].
Qed.

End AdmissionIPv6.

(** ** Globs *)

Lemma escapePart_cons (c : ascii) (part : str) :
  escapePart (c :: part)
  = (if isRegexSpecial c then ["\"%char; c] else [c]) ++ escapePart part.
Proof. reflexivity. Qed.

Lemma join_map_push_front (sep : str) (c : ascii) (pieces : list str) :
  pieces <> [] ->
  join sep (map escapePart (push_front c pieces))
  = (if isRegexSpecial c then ["\"%char; c] else [c])
    ++ join sep (map escapePart pieces).
Proof.
  destruct pieces as [|p [|q ps]]; [contradiction| |]; intros _.
  - simpl push_front. cbn [map join]. apply escapePart_cons.
  - simpl push_front. cbn [map]. rewrite !join_cons by discriminate.
    rewrite escapePart_cons, <- app_assoc. reflexivity.
Qed.

(** The source of the regular expression, character by character. *)
Lemma escaped_flat_map (pattern : str) :
  join (lit ".*") (map escapePart (split pattern (lit "*")))
  = flat_map globChar pattern.
Proof.
  unfold split. change (lit "*") with ["*"%char].
  induction pattern as [|c pattern IH]; [reflexivity|].
  cbn [flat_map]. unfold globChar at 1.
  destruct (ascii_eqb c "*"%char) eqn:E.
  - apply ascii_eqb_eq in E. subst c.
    change (split_go ["*"%char] ("*"%char :: pattern) 0)
      with (split_go ["*"%char] (["*"%char] ++ pattern) 0).
    rewrite (split_go_match ["*"%char] pattern) by discriminate.
    cbn [map]. rewrite join_cons.
    + rewrite IH. reflexivity.
    + destruct (split_go ["*"%char] pattern 0) eqn:E;
        [apply split_go_nonempty in E; contradiction | discriminate].
  - rewrite split_go_step.
    + rewrite join_map_push_front by apply split_go_nonempty.
      rewrite IH. reflexivity.
    + rewrite startsWith_single. apply ascii_eqb_neq.
      apply ascii_eqb_neq in E. congruence.
Qed.

Lemma not_special (c : ascii) :
  isRegexSpecial c = false ->
  ascii_eqb c "\"%char = false /\ ascii_eqb c "."%char = false
  /\ ascii_eqb c "^"%char = false /\ ascii_eqb c "$"%char = false.
Proof.
  unfold isRegexSpecial. intros H.
  repeat split; apply ascii_eqb_neq; intros ->; discriminate H.
Qed.

Lemma tokens_globChar (c : ascii) (rest : str) :
  tokens (globChar c ++ rest) false = globTokens c ++ tokens rest false.
Proof.
  unfold globChar, globTokens. destruct (ascii_eqb c "*"%char) eqn:E.
  - reflexivity.
  - destruct (isRegexSpecial c) eqn:S.
    + cbn [app tokens]. change (ascii_eqb "\"%char "\"%char) with true.
      cbv iota. rewrite S. reflexivity.
    + destruct (not_special c S) as [E1 [E2 [E3 E4]]].
      cbn [app tokens]. rewrite E1, E2, E, E3, E4, S. reflexivity.
Qed.

Lemma tokens_globSource (pattern : str) :
  tokens (globSource pattern) false
  = TBol :: flat_map globTokens pattern ++ [TEol].
Proof.
  unfold globSource. rewrite escaped_flat_map.
  change (lit "^" ++ flat_map globChar pattern ++ lit "$")
    with ("^"%char :: (flat_map globChar pattern ++ lit "$")).
  cbn [tokens]. change (ascii_eqb "^"%char "\"%char) with false.
  change (ascii_eqb "^"%char "."%char) with false.
  change (ascii_eqb "^"%char "*"%char) with false.
  change (ascii_eqb "^"%char "^"%char) with true. cbv iota. f_equal.
  induction pattern as [|c pattern IH]; [reflexivity|].
  cbn [flat_map]. rewrite <- !app_assoc, tokens_globChar, IH. reflexivity.
Qed.

Lemma items_of_glob (pattern : str) :
  items_of (flat_map globTokens pattern ++ [TEol])
  = Some (map globItem pattern ++ [Eol]).
Proof.
  induction pattern as [|c pattern IH]; [reflexivity|].
  cbn [flat_map map]. unfold globTokens at 1, globItem at 1.
  destruct (ascii_eqb c "*"%char).
  - cbn [app items_of]. rewrite IH. reflexivity.
  - cbn [app]. destruct pattern as [|d pattern].
    + reflexivity.
    + cbn [flat_map app] in *.
      unfold globTokens at 1 in IH. unfold globTokens at 1.
      destruct (ascii_eqb d "*"%char); cbn [app items_of] in *;
        rewrite IH; reflexivity.
Qed.

(** The constructor does not throw on the source of a glob. *)
Lemma RegExp_new_globSource (pattern : str) :
  RegExp_new (globSource pattern) = Some (Bol :: map globItem pattern ++ [Eol]).
Proof.
  unfold RegExp_new. rewrite tokens_globSource.
  cbn [items_of]. rewrite items_of_glob. reflexivity.
Qed.

Lemma rmatch_glob (pattern : str) :
  forall atStart hostname,
    rmatch (map globItem pattern ++ [Eol]) atStart hostname
    = globMatch pattern hostname.
Proof.
  induction pattern as [|c pattern IH]; intros atStart hostname.
  - cbn [map app rmatch globMatch]. apply andb_true_r.
  - cbn [map app globMatch]. unfold globItem at 1.
    destruct (ascii_eqb c "*"%char).
    + cbn [rmatch]. revert atStart.
      induction hostname as [|d h IHh]; intros atStart.
      * rewrite IH. reflexivity.
      * rewrite IH. cbn [atom_matches]. rewrite IHh. reflexivity.
    + cbn [rmatch]. destruct hostname as [|d h]; [reflexivity|].
      cbn [atom_matches]. rewrite IH. reflexivity.
Qed.

Lemma rsearch_Bol_false (its : list item) (s : str) :
  rsearch (Bol :: its) false s = false.
Proof. induction s as [|c s IH]; [reflexivity | exact IH]. Qed.

Lemma RegExp_test_anchored (its : list item) (s : str) :
  RegExp_test (Bol :: its) s = rmatch its true s.
Proof.
  unfold RegExp_test. destruct s as [|c s]; cbn [rsearch rmatch andb].
  - apply orb_false_r.
  - rewrite rsearch_Bol_false. apply orb_false_r.
Qed.

(** [matchHostname] decides the reading of globs of [globMatch]; the lone
    star is answered before any regular expression is made. *)
Lemma matchHostname_globMatch (hostname pattern : str) :
  matchHostname hostname pattern
  = if isEmpty pattern then false
    else if str_eqb pattern (lit "*") then true
    else globMatch pattern hostname.
Proof.
  unfold matchHostname. rewrite RegExp_new_globSource.
  rewrite RegExp_test_anchored, rmatch_glob. reflexivity.
Qed.

Lemma globMatch_literal (pattern : str) :
  Forall (fun c => c <> "*"%char) pattern ->
  forall hostname, globMatch pattern hostname = ci_str_eqb pattern hostname.
Proof.
  induction 1 as [|c pattern Hc _ IH]; intros hostname.
  - destruct hostname; reflexivity.
  - cbn [globMatch ci_str_eqb]. apply ascii_eqb_neq in Hc. rewrite Hc.
    destruct hostname as [|d h]; [reflexivity|]. rewrite IH. reflexivity.
Qed.

Lemma globMatch_star (pattern segment rest : str) :
  forallb (fun c => negb (isLineTerminator c)) segment = true ->
  globMatch pattern rest = true ->
  globMatch ("*"%char :: pattern) (segment ++ rest) = true.
Proof.
  intros Hseg Hrest. cbn [globMatch].
  change (ascii_eqb "*"%char "*"%char) with true. cbv iota.
  induction segment as [|c segment IH].
  - destruct rest; cbn [app]; rewrite Hrest; reflexivity.
  - cbn [forallb] in Hseg. apply andb_true_iff in Hseg as [Hc Hseg].
    cbn [app]. rewrite Hc, (IH Hseg). apply orb_true_r.
Qed.

Lemma globMatch_literal_prefix (pre pre' pattern hostname : str) :
  Forall (fun c => c <> "*"%char) pre ->
  ci_str_eqb pre pre' = true ->
  globMatch (pre ++ pattern) (pre' ++ hostname) = globMatch pattern hostname.
Proof.
  intros H. revert pre'. induction H as [|c pre Hc _ IH]; intros pre' E.
  - destruct pre'; [reflexivity | discriminate].
  - destruct pre' as [|d pre']; [discriminate|].
    cbn [ci_str_eqb] in E. apply andb_true_iff in E as [E1 E2].
    cbn [app globMatch]. apply ascii_eqb_neq in Hc. rewrite Hc, E1.
    apply IH. exact E2.
Qed.

(** ** The secret allowlist defence *)

Section Defence.

Context {platform : Platform}.

Lemma includes_nil_l (v : str) : v <> [] -> includes [] v = false.
Proof. apply includes_nil_false. Qed.

Lemma decodeBasicAuth_nil : decodeBasicAuth [] = None.
Proof. reflexivity. Qed.

(** The scan of the headers for a value that is not empty. *)
Lemma requestContainsSecretValueInHeaders_spec
    (hdrs : list (str * str)) (entry : SecretEntry) :
  requestContainsSecretValueInHeaders hdrs entry
  = negb (isEmpty (value entry)) && valueAppearsInHeaders (value entry) hdrs.
Proof.
  unfold requestContainsSecretValueInHeaders, valueAppearsInHeaders.
  destruct (isEmpty (value entry)) eqn:E; [reflexivity|].
  apply isEmpty_false in E. cbn [negb andb].
  induction hdrs as [|[n h] hdrs IH]; [reflexivity|].
  cbn [existsb]. rewrite IH. f_equal.
  unfold valueAppearsInHeader.
  destruct h as [|c h].
  - cbn [isEmpty]. rewrite (includes_nil_l _ E), decodeBasicAuth_nil.
    rewrite andb_false_r. reflexivity.
  - cbn [isEmpty]. destruct (includes (c :: h) (value entry)); [reflexivity|].
    cbn [orb]. destruct (isCredentialHeader n); [|reflexivity].
    cbn [andb]. destruct (decodeBasicAuth (c :: h)) as [d|]; [|reflexivity].
    destruct d as [|x d]; [|reflexivity].
    cbn [isEmpty negb andb]. rewrite (includes_nil_l _ E). reflexivity.
Qed.

Lemma requestContainsSecretValueInQuery_spec (u : str) (entry : SecretEntry) :
  requestContainsSecretValueInQuery u entry
  = negb (isEmpty (value entry)) && valueAppearsInQuery (value entry) u.
Proof.
  unfold requestContainsSecretValueInQuery, valueAppearsInQuery,
    queryParameters.
  destruct (isEmpty (value entry)); [reflexivity|]. cbn [negb andb].
  destruct (URL_parse u) as [parsed|]; [|reflexivity].
  destruct (isEmpty (URL_search parsed)); reflexivity.
Qed.

(** The defence throws for the first offending entry, and only then. *)
Lemma assertSecretValues_find (request : HttpHookRequest) (hostname : str)
    (entries : list SecretEntry) (checkQuery : bool) :
  assertSecretValuesAllowedForHost request hostname entries checkQuery
  = match find (offends request hostname checkQuery) entries with
    | Some e => HttpRequestBlockedError (notAllowedMessage e hostname)
    | None => Ok tt
    end.
Proof.
  induction entries as [|e rest IH]; [reflexivity|].
  cbn [assertSecretValuesAllowedForHost find]. unfold offends at 1.
  rewrite requestContainsSecretValueInHeaders_spec,
    requestContainsSecretValueInQuery_spec.
  destruct (matchesAnyHost hostname (hosts e)); [exact IH|].
  destruct (isEmpty (value e)); cbn [negb andb];
    [rewrite ?andb_false_r; exact IH|].
  destruct (valueAppearsInHeaders (value e) (headers request));
    [reflexivity|].
  destruct checkQuery; cbn [andb orb]; [|exact IH].
  destruct (valueAppearsInQuery (value e) (url request));
    [reflexivity | exact IH].
Qed.

Lemma find_existsb (A : Type) (f : A -> bool) (l : list A) :
  existsb f l = match find f l with Some _ => true | None => false end.
Proof.
  induction l as [|a l IH]; [reflexivity|]. simpl.
  destruct (f a); [reflexivity | exact IH].
Qed.

Lemma assertSecretValues_spec (request : HttpHookRequest) (hostname : str)
    (entries : list SecretEntry) (checkQuery : bool) :
  isBlocked (assertSecretValuesAllowedForHost request hostname entries
               checkQuery)
  = existsb (offends request hostname checkQuery) entries.
Proof.
  rewrite assertSecretValues_find, find_existsb.
  destruct (find (offends request hostname checkQuery) entries); reflexivity.
Qed.

Lemma applySecrets_blocked_by_defence (entries : list SecretEntry)
    (flag : option bool) (request : HttpHookRequest) :
  existsb (offends request (getHostname request) (orElse flag false)) entries
  = true ->
  isBlocked (applySecretsToRequest entries flag request) = true.
Proof.
  intros H. unfold applySecretsToRequest. apply isBlocked_bind.
  rewrite assertSecretValues_spec. exact H.
Qed.

Lemma applySecrets_blocked_by_headers (entries : list SecretEntry)
    (flag : option bool) (request : HttpHookRequest) :
  isBlocked (replaceSecretPlaceholdersInHeaders request
               (getHostname request) entries) = true ->
  isBlocked (applySecretsToRequest entries flag request) = true.
Proof.
  intros H. unfold applySecretsToRequest.
  destruct (assertSecretValuesAllowedForHost _ _ _ _); [|reflexivity].
  cbn [bind]. apply isBlocked_bind. exact H.
Qed.

End Defence.

(** ** Base64 and UTF-8 *)

Ltac nlia := zify; Z.to_euclidean_division_equations; lia.

Lemma unbase64_b64char (n : N) :
  (n < 64)%N -> unbase64 (b64char n) = Some n.
Proof.
  intros H.
  assert (forallb
            (fun n => match unbase64 (b64char n) with
                      | Some m => (m =? n)%N
                      | None => false
                      end)
            (map N.of_nat (seq 0 64)) = true) as F by (vm_compute; reflexivity).
  rewrite forallb_forall in F. specialize (F n (below_in_seq n 64 H)).
  destruct (unbase64 (b64char n)) as [m|]; [|discriminate].
  apply N.eqb_eq in F. congruence.
Qed.

Lemma sextets_b64char (n : N) (s : str) :
  (n < 64)%N -> sextets (b64char n :: s) = n :: sextets s.
Proof. intros H. cbn [sextets]. rewrite unbase64_b64char by exact H. reflexivity. Qed.

Lemma sextets_pad (s : str) : sextets ("="%char :: s) = [].
Proof. reflexivity. Qed.

Lemma byte_code (x : ascii) : byte (code x) = x.
Proof.
  unfold byte. rewrite N.mod_small by apply code_bounded.
  apply ascii_N_embedding.
Qed.

Lemma byte_eq (n : N) (x : ascii) : (n mod 256)%N = code x -> byte n = x.
Proof. intros E. unfold byte. rewrite E. apply ascii_N_embedding. Qed.

Lemma list_ind3 (A : Type) (P : list A -> Prop) :
  P [] -> (forall x, P [x]) -> (forall x y, P [x; y]) ->
  (forall x y z r, P r -> P (x :: y :: z :: r)) ->
  forall l, P l.
Proof.
  intros H0 H1 H2 H3.
  fix IH 1. intros [|x [|y [|z r]]];
    [exact H0 | apply H1 | apply H2 | apply H3; apply IH].
Qed.

(** Decoding what the encoder wrote gives the bytes back. *)
Lemma base64_decode_encode (bs : list ascii) :
  base64_decode (base64_encode bs) = bs.
Proof.
  unfold base64_decode. induction bs as [| x | x y | x y z r IH] using list_ind3.
  - reflexivity.
  - pose proof (code_bounded x). cbn [base64_encode].
    rewrite !sextets_b64char, sextets_pad by nlia.
    cbn [decode_groups]. f_equal. apply byte_eq. nlia.
  - pose proof (code_bounded x). pose proof (code_bounded y).
    cbn [base64_encode].
    rewrite !sextets_b64char, sextets_pad by nlia.
    cbn [decode_groups]. f_equal; [|f_equal]; apply byte_eq; nlia.
  - pose proof (code_bounded x). pose proof (code_bounded y).
    pose proof (code_bounded z). cbn [base64_encode].
    rewrite !sextets_b64char by nlia.
    cbn [decode_groups]. rewrite IH.
    f_equal; [|f_equal; [|f_equal]]; apply byte_eq; nlia.
Qed.

(** The decoder of UTF-8 leaves ASCII text as it is. *)
Lemma utf8_toString_ascii (bs : list ascii) :
  Forall (fun b => (code b <= 127)%N) bs -> utf8_toString bs = bs.
Proof.
  unfold utf8_toString. induction 1 as [|b bs Hb _ IH]; [reflexivity|].
  cbn [utf8_go]. unfold utf8_start.
  apply N.leb_le in Hb. rewrite Hb. cbn [app]. rewrite IH. reflexivity.
Qed.

(** ** The list of allowed hosts *)

Lemma ascii_forall (P : ascii -> bool) :
  forallb P (map ascii_of_N (map N.of_nat (seq 0 256))) = true ->
  forall c, P c = true.
Proof.
  intros F c. rewrite forallb_forall in F. apply F.
  rewrite <- (ascii_N_embedding c). apply in_map.
  apply below_in_seq. apply N_ascii_bounded.
Qed.

Lemma isSpace_lower (c : ascii) : isSpace (lower c) = isSpace c.
Proof.
  apply Bool.eqb_prop.
  apply (ascii_forall (fun c => Bool.eqb (isSpace (lower c)) (isSpace c))).
  vm_compute. reflexivity.
Qed.

Lemma lower_lower (c : ascii) : lower (lower c) = lower c.
Proof.
  apply ascii_eqb_eq.
  apply (ascii_forall (fun c => ascii_eqb (lower (lower c)) (lower c))).
  vm_compute. reflexivity.
Qed.

Lemma toLowerCase_idem (s : str) : toLowerCase (toLowerCase s) = toLowerCase s.
Proof.
  unfold toLowerCase. rewrite map_map. apply map_ext. apply lower_lower.
Qed.

Lemma trimStart_map_lower (s : str) :
  trimStart (map lower s) = map lower (trimStart s).
Proof.
  induction s as [|c s IH]; [reflexivity|].
  cbn [map trimStart]. rewrite isSpace_lower.
  destruct (isSpace c); [exact IH | reflexivity].
Qed.

Lemma trim_toLowerCase (s : str) : trim (toLowerCase s) = toLowerCase (trim s).
Proof.
  unfold trim, toLowerCase.
  rewrite trimStart_map_lower, <- map_rev, trimStart_map_lower, <- map_rev.
  reflexivity.
Qed.

Lemma trimStart_split (s : str) :
  exists ws, s = ws ++ trimStart s /\ forallb isSpace ws = true.
Proof.
  induction s as [|c s [ws [E F]]]; [exists []; auto|].
  cbn [trimStart]. destruct (isSpace c) eqn:Sc.
  - exists (c :: ws). split; [simpl; congruence | simpl; rewrite Sc; exact F].
  - exists []. auto.
Qed.

Lemma trimStart_head (s x : str) (c : ascii) :
  trimStart s = c :: x -> isSpace c = false.
Proof.
  induction s as [|d s IH]; [discriminate|].
  cbn [trimStart]. destruct (isSpace d) eqn:Sd; [exact IH|].
  intros E. injection E as <- _. exact Sd.
Qed.

Lemma trimStart_fixed (s : str) :
  match s with c :: _ => isSpace c = false | [] => True end ->
  trimStart s = s.
Proof. destruct s as [|c s]; [reflexivity|]. simpl. intros ->. reflexivity. Qed.

Lemma trimStart_idem (s : str) : trimStart (trimStart s) = trimStart s.
Proof.
  apply trimStart_fixed. destruct (trimStart s) as [|c x] eqn:E; [exact I|].
  apply (trimStart_head s x c E).
Qed.

Lemma trim_idem (s : str) : trim (trim s) = trim s.
Proof.
  unfold trim at 1.
  assert (trimStart (trim s) = trim s) as H1.
  { apply trimStart_fixed. unfold trim.
    set (t := trimStart s).
    destruct (trimStart_split (rev t)) as [ws [E _]].
    set (u := trimStart (rev t)) in *.
    destruct (rev u) as [|c r] eqn:Er; [exact I|].
    assert (t = (c :: r) ++ rev ws) as Ht.
    { rewrite <- (rev_involutive t), E, rev_app_distr, Er. reflexivity. }
    apply (trimStart_head s (r ++ rev ws) c). exact Ht. }
  rewrite H1. unfold trim. rewrite rev_involutive, trimStart_idem.
  reflexivity.
Qed.

Lemma normalize_idem (pattern : str) :
  normalizeHostnamePattern (normalizeHostnamePattern pattern)
  = normalizeHostnamePattern pattern.
Proof.
  unfold normalizeHostnamePattern.
  rewrite trim_toLowerCase, toLowerCase_idem, trim_idem. reflexivity.
Qed.

Lemma filter_filter (A : Type) (f g : A -> bool) (l : list A) :
  filter f (filter g l) = filter (fun x => g x && f x) l.
Proof.
  induction l as [|a l IH]; [reflexivity|]. simpl.
  destruct (g a); simpl; [destruct (f a)|]; rewrite ?IH; reflexivity.
Qed.

Lemma has_cons (n y : str) (seen : list str) :
  has (n :: seen) y = str_eqb y n || has seen y.
Proof. reflexivity. Qed.

Lemma uniqueHosts_loop_spec (hostList : list str) :
  forall seen result,
    uniqueHosts_loop hostList seen result
    = result ++ filter (fun y => negb (has seen y))
                       (keepFirst (keptPatterns hostList)).
Proof.
  induction hostList as [|host rest IH]; intros seen result.
  - simpl. rewrite app_nil_r. reflexivity.
  - cbn [uniqueHosts_loop]. unfold keptPatterns. cbn [map filter].
    fold (keptPatterns rest).
    destruct (isEmpty (normalizeHostnamePattern host)) eqn:E.
    + cbn [orb negb]. apply IH.
    + cbn [orb negb keepFirst filter].
      destruct (has seen (normalizeHostnamePattern host)) eqn:H.
      * rewrite IH. cbn [negb]. f_equal. rewrite filter_filter.
        apply filter_ext_in. intros y _.
        destruct (str_eqb y (normalizeHostnamePattern host)) eqn:Ey;
          [|reflexivity].
        apply str_eqb_eq in Ey. subst y. rewrite H. reflexivity.
      * rewrite IH. cbn [negb]. rewrite <- app_assoc. cbn [app].
        f_equal. f_equal. rewrite filter_filter.
        apply filter_ext. intros y. rewrite has_cons.
        destruct (str_eqb y (normalizeHostnamePattern host)); reflexivity.
Qed.

Lemma uniqueHosts_keepFirst (hostList : list str) :
  uniqueHosts hostList = keepFirst (keptPatterns hostList).
Proof.
  unfold uniqueHosts. rewrite uniqueHosts_loop_spec. cbn [app].
  rewrite <- (filter_ext (fun _ => true)) by reflexivity.
  induction (keepFirst (keptPatterns hostList)) as [|x l IH];
    [reflexivity | simpl; congruence].
Qed.

Lemma In_keepFirst (x : str) (l : list str) : In x (keepFirst l) <-> In x l.
Proof.
  induction l as [|a l IH]; [reflexivity|].
  cbn [keepFirst In]. rewrite filter_In, IH, negb_true_iff, str_eqb_neq.
  split.
  - intros [E | [H _]]; auto.
  - intros [E | H]; [auto|].
    destruct (str_eqb x a) eqn:Ex.
    + apply str_eqb_eq in Ex. auto.
    + apply str_eqb_neq in Ex. auto.
Qed.

Lemma NoDup_keepFirst (l : list str) : NoDup (keepFirst l).
Proof.
  induction l as [|a l IH]; [constructor|].
  cbn [keepFirst]. constructor.
  - rewrite filter_In, negb_true_iff, str_eqb_neq. intros [_ H]. auto.
  - apply NoDup_filter. exact IH.
Qed.

(** ** createHttpHooks *)

Section Creation.

Context {platform : Platform}.

Lemma buildSecretEntries_cons (n : str) (secret : SecretDefinition)
    (rest : list (str * SecretDefinition)) (g : Rng) :
  buildSecretEntries ((n, secret) :: rest) g
  = (mkSecretEntry n
       (placeholderPrefix ++ toHex (fst (randomBytes 24 g)))
       (def_value secret)
       (map normalizeHostnamePattern (def_hosts secret))
       :: fst (buildSecretEntries rest (snd (randomBytes 24 g))),
     snd (buildSecretEntries rest (snd (randomBytes 24 g)))).
Proof.
  cbn [buildSecretEntries]. destruct (randomBytes 24 g) as [bytes g1].
  cbn [fst snd]. destruct (buildSecretEntries rest g1). reflexivity.
Qed.




End Creation.

(** * The claims *)

Lemma existsb_ext' (A : Type) (f g : A -> bool) (l : list A) :
  (forall x, f x = g x) -> existsb f l = existsb g l.
Proof.
  intros H. induction l as [|a l IH]; [reflexivity|].
  simpl. rewrite H, IH. reflexivity.
Qed.

Lemma existsb_In (A : Type) (f : A -> bool) (l : list A) :
  existsb f l = true <-> exists x, In x l /\ f x = true.
Proof. apply existsb_exists. Qed.

Lemma offends_iff {platform : Platform} (request : HttpHookRequest)
    (hostname : str) (checkQuery : bool) (e : SecretEntry) :
  offends request hostname checkQuery e = true
  <-> matchesAnyHost hostname (hosts e) = false /\ value e <> []
      /\ (valueAppearsInHeaders (value e) (headers request) = true
          \/ (checkQuery = true
              /\ valueAppearsInQuery (value e) (url request) = true)).
Proof.
  unfold offends.
  rewrite !andb_true_iff, !negb_true_iff, orb_true_iff, andb_true_iff.
  rewrite isEmpty_false. tauto.
Qed.

(** C1, as amended.  For every request, hostname and table of secrets, the
    allowlist defence throws [HttpRequestBlockedError] exactly when some
    secret whose host patterns do not match the hostname has a value that
    is not empty and occurs literally in a header value, or in the decoded
    credentials of an [Authorization] or [Proxy-Authorization] header of
    the Basic scheme, or, when the query is checked, in the name or the
    value of a query parameter; the error names the first such secret, and
    the request the hooks process then fails with it. *)
Theorem C1_secret_value_defence {platform : Platform}
    (request : HttpHookRequest) (hostname : str)
    (entries : list SecretEntry) (checkQuery : bool) :
  (isBlocked (assertSecretValuesAllowedForHost request hostname entries
                checkQuery) = true
   <-> exists e, In e entries
         /\ matchesAnyHost hostname (hosts e) = false /\ value e <> []
         /\ (valueAppearsInHeaders (value e) (headers request) = true
             \/ (checkQuery = true
                 /\ valueAppearsInQuery (value e) (url request) = true)))
  /\ assertSecretValuesAllowedForHost request hostname entries checkQuery
     = match find (offends request hostname checkQuery) entries with
       | Some e => HttpRequestBlockedError (notAllowedMessage e hostname)
       | None => Ok tt
       end
  /\ (forall flag,
        hostname = getHostname request -> checkQuery = orElse flag false ->
        isBlocked (assertSecretValuesAllowedForHost request hostname entries
                     checkQuery) = true ->
        isBlocked (applySecretsToRequest entries flag request) = true).
Proof.
  split; [|split].
  - rewrite assertSecretValues_spec, existsb_In.
    split; intros [e [Hin H]]; exists e; (split; [exact Hin|]);
      apply offends_iff; exact H.
  - apply assertSecretValues_find.
  - intros flag -> -> H. apply applySecrets_blocked_by_defence.
    rewrite <- assertSecretValues_spec. exact H.
Qed.

Lemma C1_secret_value_defence_witness :
  isBlocked (applySecretsToRequest (platform := demoPlatform)
               exampleEntries None leakRequest) = true.
Proof.
  pose proof (C1_secret_value_defence (platform := demoPlatform)
                leakRequest (lit "evil.test") exampleEntries false)
    as [H1 [_ H3]].
  apply (H3 None); [reflexivity | reflexivity |].
  apply H1.
  exists (mkSecretEntry (lit "TOKEN") examplePlaceholder (lit "s3cr3t")
            [lit "api.example.com"]).
  split; [left; reflexivity|]. split; [reflexivity|].
  split; [discriminate|]. left. reflexivity.
Defined.

(** C1 as it is written fails for a secret whose value is the empty
    string: the empty string occurs in every header value, the host is not
    one of the secret's, and the request passes unchanged. *)
Lemma C1_empty_secret_value_counterexample :
  (exists e, In e emptySecretEntries
     /\ matchesAnyHost (lit "evil.test") (hosts e) = false
     /\ valueAppearsInHeaders (value e) (headers plainRequest) = true)
  /\ getHostname (platform := demoPlatform) plainRequest = lit "evil.test"
  /\ assertSecretValuesAllowedForHost (platform := demoPlatform)
       plainRequest (lit "evil.test") emptySecretEntries true = Ok tt
  /\ applySecretsToRequest (platform := demoPlatform)
       emptySecretEntries (Some true) plainRequest = Ok plainRequest.
Proof.
  split; [|vm_compute; auto].
  exists (mkSecretEntry (lit "TOKEN") examplePlaceholder []
            [lit "api.example.com"]).
  vm_compute. auto.
Qed.

(** *** The entries of [createHttpHooks] *)

Lemma buildSecretEntries_hosts {platform : Platform}
    (secrets : list (str * SecretDefinition)) :
  forall g,
    Forall (fun e => Forall (fun p => normalizeHostnamePattern p = p) (hosts e))
           (fst (buildSecretEntries secrets g)).
Proof.
  induction secrets as [|[n secret] rest IH]; intros g.
  - constructor.
  - rewrite buildSecretEntries_cons. cbn [fst]. constructor; [|apply IH].
    cbn [hosts]. apply Forall_forall. intros p Hp.
    apply in_map_iff in Hp as [raw [<- _]]. apply normalize_idem.
Qed.


Lemma createHttpHooks_fields {platform : Platform} (St : Type)
    (options : CreateHttpHooksOptions St) (g : Rng) :
  secretEntries (fst (createHttpHooks options g))
  = fst (buildSecretEntries (orElse (opt_secrets options) []) g)
  /\ env (fst (createHttpHooks options g))
     = fold_left (fun o e => assign o (name e) (placeholder e))
         (secretEntries (fst (createHttpHooks options g))) []
  /\ allowedHosts (fst (createHttpHooks options g))
     = uniqueHosts (orElse (opt_allowedHosts options) []
                    ++ flat_map hosts
                         (secretEntries (fst (createHttpHooks options g)))).
Proof.
  unfold createHttpHooks.
  destruct (buildSecretEntries (orElse (opt_secrets options) []) g).
  cbn [fst secretEntries env allowedHosts]. auto.
Qed.


(** *** What the passes return *)

Lemma replaceInString_ok (hostname : str) (entries : list SecretEntry) :
  forall v u,
    replaceSecretPlaceholdersInString v hostname entries = Ok u ->
    u = substituteAll entries v.
Proof.
  induction entries as [|e rest IH]; intros v u E.
  - injection E as <-. reflexivity.
  - unfold substituteAll. cbn [fold_left].
    cbn [replaceSecretPlaceholdersInString] in E.
    destruct (includes v (placeholder e)) eqn:I; cbn [negb] in E.
    + unfold assertSecretAllowedForHost in E.
      destruct (matchesAnyHost hostname (hosts e)); cbn [bind] in E;
        [apply IH; exact E | discriminate E].
    + rewrite replaceAll_absent by exact I. apply IH. exact E.
Qed.

Lemma replaceInString_substituteAll (hostname : str)
    (entries : list SecretEntry) :
  Forall (fun e => matchesAnyHost hostname (hosts e) = true) entries ->
  forall v,
    replaceSecretPlaceholdersInString v hostname entries
    = Ok (substituteAll entries v).
Proof. apply replaceInString_all_allowed. Qed.

Lemma replaceBasicAuth_ok (n v hostname : str) (entries : list SecretEntry)
    (v' : str) :
  replaceBasicAuthSecretPlaceholders n v hostname entries = Ok v' ->
  v' = substitutedBasic entries n v.
Proof.
  unfold replaceBasicAuthSecretPlaceholders, substitutedBasic.
  destruct (isCredentialHeader n); cbn [negb];
    [|intros E; injection E as <-; reflexivity].
  destruct (matchBasic v) as [m|]; [|intros E; injection E as <-; reflexivity].
  destruct (replaceSecretPlaceholdersInString
              (utf8_toString (base64_decode (token m))) hostname entries)
    as [u|] eqn:Eu; cbn [bind]; [|discriminate].
  apply replaceInString_ok in Eu. subst u.
  destruct (str_eqb _ _); intros E; injection E as <-; reflexivity.
Qed.

Lemma replaceBasicAuth_all_allowed (n v hostname : str)
    (entries : list SecretEntry) :
  Forall (fun e => matchesAnyHost hostname (hosts e) = true) entries ->
  replaceBasicAuthSecretPlaceholders n v hostname entries
  = Ok (substitutedBasic entries n v).
Proof.
  intros H. unfold replaceBasicAuthSecretPlaceholders, substitutedBasic.
  destruct (isCredentialHeader n); cbn [negb]; [|reflexivity].
  destruct (matchBasic v) as [m|]; [|reflexivity].
  rewrite (replaceInString_substituteAll hostname entries H). cbn [bind].
  destruct (str_eqb _ _); reflexivity.
Qed.

Lemma mapResult_ok_map (A B : Type) (f : A -> result B) (h : A -> B)
    (l : list A) (l' : list B) :
  (forall x y, f x = Ok y -> y = h x) ->
  mapResult f l = Ok l' -> l' = map h l.
Proof.
  intros Hf. revert l'. induction l as [|x l IH]; intros l' E.
  - injection E as <-. reflexivity.
  - cbn [mapResult] in E. destruct (f x) as [y|] eqn:Ey; [|discriminate E].
    cbn [bind] in E. destruct (mapResult f l) as [ys|]; [|discriminate E].
    cbn [bind] in E. injection E as <-. cbn [map].
    rewrite (Hf x y Ey), (IH ys eq_refl). reflexivity.
Qed.

Lemma mapResult_all (A B : Type) (f : A -> result B) (h : A -> B)
    (l : list A) :
  (forall x, f x = Ok (h x)) -> mapResult f l = Ok (map h l).
Proof.
  intros Hf. induction l as [|x l IH]; [reflexivity|].
  cbn [mapResult map]. rewrite Hf, IH. reflexivity.
Qed.

Lemma substitutedHeader_none (l : list (str * str)) :
  map (substitutedHeader []) l = l.
Proof.
  induction l as [|[n v] l IH]; [reflexivity|].
  cbn [map]. rewrite IH. f_equal.
  unfold substitutedHeader, substitutedBasic, substituteAll.
  cbn [fst snd fold_left].
  destruct (isCredentialHeader n); [|reflexivity].
  destruct (matchBasic v); [|reflexivity].
  rewrite str_eqb_refl. reflexivity.
Qed.

Lemma substitutedParameter_none (l : list (str * str)) :
  map (substitutedParameter []) l = l.
Proof.
  induction l as [|[n v] l IH]; [reflexivity|].
  cbn [map]. rewrite IH. reflexivity.
Qed.

Lemma replaceInHeader_ok (hostname : str) (entries : list SecretEntry)
    (x y : str * str) :
  replaceInHeader hostname entries x = Ok y -> y = substitutedHeader entries x.
Proof.
  destruct x as [n v]. unfold replaceInHeader, substitutedHeader.
  cbn [fst snd].
  destruct (replaceSecretPlaceholdersInString v hostname entries) as [u|]
    eqn:Eu; cbn [bind]; [|discriminate].
  apply replaceInString_ok in Eu. subst u.
  destruct (replaceBasicAuthSecretPlaceholders n _ hostname entries) as [u'|]
    eqn:Eb; cbn [bind]; [|discriminate].
  apply replaceBasicAuth_ok in Eb. subst u'.
  intros E. injection E as <-. reflexivity.
Qed.

Lemma replaceInHeader_all_allowed (hostname : str)
    (entries : list SecretEntry) :
  Forall (fun e => matchesAnyHost hostname (hosts e) = true) entries ->
  forall x, replaceInHeader hostname entries x
            = Ok (substitutedHeader entries x).
Proof.
  intros H [n v]. unfold replaceInHeader, substitutedHeader. cbn [fst snd].
  rewrite (replaceInString_substituteAll hostname entries H). cbn [bind].
  rewrite (replaceBasicAuth_all_allowed _ _ hostname entries H). reflexivity.
Qed.

(** The headers the pass returns are the substituted ones. *)
Lemma replaceInHeaders_ok (request : HttpHookRequest) (hostname : str)
    (entries : list SecretEntry) (hdrs : list (str * str)) :
  replaceSecretPlaceholdersInHeaders request hostname entries = Ok hdrs ->
  hdrs = map (substitutedHeader entries) (headers request).
Proof.
  unfold replaceSecretPlaceholdersInHeaders.
  destruct entries as [|e0 rest] eqn:Ee.
  - intros E. injection E as <-. symmetry. apply substitutedHeader_none.
  - rewrite <- Ee.
    apply (mapResult_ok_map _ _ _ _ _ _ (replaceInHeader_ok hostname entries)).
Qed.

(** The pass returns when every secret is allowed for the host. *)
Lemma replaceInHeaders_all_allowed (request : HttpHookRequest)
    (hostname : str) (entries : list SecretEntry) :
  Forall (fun e => matchesAnyHost hostname (hosts e) = true) entries ->
  replaceSecretPlaceholdersInHeaders request hostname entries
  = Ok (map (substitutedHeader entries) (headers request)).
Proof.
  intros H. unfold replaceSecretPlaceholdersInHeaders.
  destruct entries as [|e0 rest] eqn:Ee.
  - rewrite substitutedHeader_none. reflexivity.
  - rewrite <- Ee in *.
    apply mapResult_all. apply replaceInHeader_all_allowed. exact H.
Qed.

Lemma replaceInParameter_ok (hostname : str) (entries : list SecretEntry)
    (x y : str * str) :
  replaceInParameter hostname entries x = Ok y ->
  y = substitutedParameter entries x.
Proof.
  destruct x as [n v]. unfold replaceInParameter, substitutedParameter.
  cbn [fst snd].
  destruct (replaceSecretPlaceholdersInString n hostname entries) as [n'|]
    eqn:En; cbn [bind]; [|discriminate].
  destruct (replaceSecretPlaceholdersInString v hostname entries) as [v'|]
    eqn:Ev; cbn [bind]; [|discriminate].
  apply replaceInString_ok in En, Ev. subst n' v'.
  intros E. injection E as <-. reflexivity.
Qed.

Lemma replaceInParameter_all_allowed (hostname : str)
    (entries : list SecretEntry) :
  Forall (fun e => matchesAnyHost hostname (hosts e) = true) entries ->
  forall x, replaceInParameter hostname entries x
            = Ok (substitutedParameter entries x).
Proof.
  intros H [n v]. unfold replaceInParameter, substitutedParameter.
  cbn [fst snd].
  rewrite !(replaceInString_substituteAll hostname entries H). reflexivity.
Qed.

Lemma params_eqb_same (l : list (str * str)) : params_eqb l l = true.
Proof.
  induction l as [|[a b] l IH]; [reflexivity|].
  cbn [params_eqb]. unfold param_eqb. cbn [fst snd].
  rewrite !str_eqb_refl, IH. reflexivity.
Qed.

Lemma params_eqb_eq (a b : list (str * str)) :
  params_eqb a b = true -> a = b.
Proof.
  revert b. induction a as [|[n v] a IH]; intros [|[n' v'] b] E;
    try discriminate E; [reflexivity|].
  cbn [params_eqb] in E. unfold param_eqb in E. cbn [fst snd] in E.
  apply andb_true_iff in E as [E1 E2]. apply andb_true_iff in E1 as [En Ev].
  apply str_eqb_eq in En, Ev. subst. f_equal. apply IH. exact E2.
Qed.

Lemma substitutedUrl_none {platform : Platform} (u : str) :
  substitutedUrl [] u = u.
Proof.
  unfold substitutedUrl. destruct (URL_parse u) as [parsed|]; [|reflexivity].
  destruct (isEmpty (URL_search parsed)); [reflexivity|].
  rewrite substitutedParameter_none, params_eqb_same. reflexivity.
Qed.

(** The URL the pass returns with the flag on is the substituted one, and
    with the flag off the URL it was given. *)
Lemma replaceInUrl_ok {platform : Platform} (u hostname : str)
    (entries : list SecretEntry) (enabled : bool) (u' : str) :
  replaceSecretPlaceholdersInUrlParameters u hostname entries enabled = Ok u' ->
  u' = if enabled then substitutedUrl entries u else u.
Proof.
  unfold replaceSecretPlaceholdersInUrlParameters.
  destruct enabled; cbn [negb orb];
    [|intros E; injection E as <-; reflexivity].
  destruct entries as [|e0 rest] eqn:Ee.
  - cbn [length Nat.eqb]. intros E. injection E as <-.
    symmetry. apply substitutedUrl_none.
  - rewrite <- Ee. replace (length entries =? 0) with false
      by (rewrite Ee; reflexivity).
    unfold substitutedUrl.
    destruct (URL_parse u) as [parsed|];
      [|intros E; injection E as <-; reflexivity].
    destruct (isEmpty (URL_search parsed));
      [intros E; injection E as <-; reflexivity|].
    destruct (mapResult (replaceInParameter hostname entries)
                        (URL_searchParams parsed)) as [ps|] eqn:Em;
      cbn [bind]; [|discriminate].
    apply (mapResult_ok_map _ _ _ _ _ _
             (replaceInParameter_ok hostname entries)) in Em.
    subst ps. rewrite negb_involutive.
    destruct (params_eqb _ _); intros E; injection E as <-; reflexivity.
Qed.

Lemma replaceInUrl_all_allowed {platform : Platform} (u hostname : str)
    (entries : list SecretEntry) (enabled : bool) :
  Forall (fun e => matchesAnyHost hostname (hosts e) = true) entries ->
  replaceSecretPlaceholdersInUrlParameters u hostname entries enabled
  = Ok (if enabled then substitutedUrl entries u else u).
Proof.
  intros H. unfold replaceSecretPlaceholdersInUrlParameters.
  destruct enabled; cbn [negb orb]; [|reflexivity].
  destruct entries as [|e0 rest] eqn:Ee.
  - cbn [length Nat.eqb]. rewrite substitutedUrl_none. reflexivity.
  - rewrite <- Ee in *. replace (length entries =? 0) with false
      by (rewrite Ee; reflexivity).
    unfold substitutedUrl.
    destruct (URL_parse u) as [parsed|]; [|reflexivity].
    destruct (isEmpty (URL_search parsed)); [reflexivity|].
    rewrite (mapResult_all _ _ _ (substitutedParameter entries)
               (URL_searchParams parsed)
               (replaceInParameter_all_allowed hostname entries H)).
    cbn [bind]. rewrite negb_involutive.
    destruct (params_eqb _ _); reflexivity.
Qed.

(** Among well-formed entries, the placeholder of a secret that is not
    allowed for the host, in the name or in the value of a query
    parameter, makes the pass throw when the flag is on. *)
Lemma replaceInUrl_blocks {platform : Platform} (u hostname : str)
    (entries : list SecretEntry) (entry : SecretEntry) (n v : str) :
  wellFormed entries -> In entry entries ->
  matchesAnyHost hostname (hosts entry) = false ->
  In (n, v) (queryParameters u) ->
  includes n (placeholder entry) || includes v (placeholder entry) = true ->
  isBlocked (replaceSecretPlaceholdersInUrlParameters u hostname entries true)
  = true.
Proof.
  intros WF Hin M Hq Hv. unfold replaceSecretPlaceholdersInUrlParameters.
  cbn [negb orb]. destruct entries as [|e0 rest] eqn:Ee; [contradiction|].
  rewrite <- Ee in *. replace (length entries =? 0) with false
    by (rewrite Ee; reflexivity).
  unfold queryParameters in Hq.
  destruct (URL_parse u) as [parsed|]; [|contradiction].
  destruct (isEmpty (URL_search parsed)); [contradiction|].
  apply isBlocked_bind. apply (mapResult_blocked _ _ _ _ _ Hq).
  unfold replaceInParameter.
  pose proof (replaceInString_blocks hostname entries entry WF Hin M) as B.
  destruct (includes n (placeholder entry)) eqn:In1.
  - apply isBlocked_bind. apply B. exact In1.
  - cbn [orb] in Hv.
    destruct (replaceSecretPlaceholdersInString n hostname entries);
      [|reflexivity].
    cbn [bind]. apply isBlocked_bind. apply B. exact Hv.
Qed.

Lemma assertSecretValues_all_allowed {platform : Platform}
    (request : HttpHookRequest) (hostname : str)
    (entries : list SecretEntry) (checkQuery : bool) :
  Forall (fun e => matchesAnyHost hostname (hosts e) = true) entries ->
  assertSecretValuesAllowedForHost request hostname entries checkQuery = Ok tt.
Proof.
  induction 1 as [|e rest H _ IH]; [reflexivity|].
  cbn [assertSecretValuesAllowedForHost]. rewrite H. exact IH.
Qed.

(** A request the hooks return is the substituted request. *)
Lemma applySecrets_ok_result {platform : Platform}
    (entries : list SecretEntry) (flag : option bool)
    (request r : HttpHookRequest) :
  applySecretsToRequest entries flag request = Ok r ->
  r = substitutedRequest entries flag request.
Proof.
  unfold applySecretsToRequest, substitutedRequest.
  destruct (assertSecretValuesAllowedForHost _ _ _ _) as [[]|]; [|discriminate].
  cbn [bind].
  destruct (replaceSecretPlaceholdersInHeaders _ _ _) as [hdrs|] eqn:Eh;
    [|discriminate].
  cbn [bind].
  destruct (replaceSecretPlaceholdersInUrlParameters _ _ _ _) as [u|] eqn:Eu;
    [|discriminate].
  cbn [bind]. apply replaceInHeaders_ok in Eh. apply replaceInUrl_ok in Eu.
  subst hdrs u. intros E. injection E as <-. reflexivity.
Qed.

(** The hooks return when every secret is allowed for the host of the
    request. *)
Lemma applySecrets_all_allowed {platform : Platform}
    (entries : list SecretEntry) (flag : option bool)
    (request : HttpHookRequest) :
  Forall (fun e => matchesAnyHost (getHostname request) (hosts e) = true)
         entries ->
  applySecretsToRequest entries flag request
  = Ok (substitutedRequest entries flag request).
Proof.
  intros H. unfold applySecretsToRequest, substitutedRequest.
  rewrite (assertSecretValues_all_allowed _ _ _ _ H). cbn [bind].
  rewrite (replaceInHeaders_all_allowed _ _ _ H). cbn [bind].
  rewrite (replaceInUrl_all_allowed _ _ _ _ H). reflexivity.
Qed.



Lemma demo_Number_octet (n : N) :
  (n < 256)%N -> demo_Number (showOctet n) = Some (Z.of_N n).
Proof.
  intros H. destruct (showOctet_facts n H) as [E [_ [D V]]].
  unfold demo_Number. rewrite D, V.
  destruct (showOctet n); [discriminate E | reflexivity].
Qed.

(** C3.  [blockInternalRanges] is true when the option is absent, and the
    admission of the hooks then returns false, without consulting the
    caller's hook, for every address [isInternalAddress] holds of.  On the dotted text of an IPv4
    address it holds exactly of the blocks 0.0.0.0/8, 10/8, 127/8,
    169.254/16, 172.16/12, 192.168/16, 100.64/10 and 255/8.  On an IPv6
    text whose hextets the parser of [ip-utils] gives, it holds exactly of
    [::], [::1], fc00::/7 and fe80::/10 and of the addresses whose mapped
    IPv4 text [isPrivateIPv4] holds of; in particular of every mapped
    address whose dotted IPv4 text lies in an IPv4 block.  It holds of no
    text that is not an IP address. *)
Theorem C3_internal_ranges {platform : Platform} :
  (forall n, (n < 256)%N -> Number_integer (showOctet n) = Some (Z.of_N n)) ->
  (forall (St : Type) (options : CreateHttpHooksOptions St) g,
     opt_blockInternalRanges options = None ->
     blockInternalRanges (fst (createHttpHooks options g)) = true)
  /\ (forall (St : Type) allowed (hook : option (IpHook St)) info st,
        isInternalAddress (info_ip info) = true ->
        isIpAllowed true allowed hook info st = (Some false, st))
  /\ (forall (St : Type) (options : CreateHttpHooksOptions St) g info st,
        opt_blockInternalRanges options = None ->
        isInternalAddress (info_ip info) = true ->
        httpHooks_isIpAllowed options (fst (createHttpHooks options g))
          info st = (Some false, st))
  /\ (forall a b c d,
        (a < 256)%N -> (b < 256)%N -> (c < 256)%N -> (d < 256)%N ->
        isInternalAddress (dotted a b c d)
        = inInternalIPv4Blocks (Z.of_N a) (Z.of_N b) (Z.of_N c) (Z.of_N d))
  /\ (forall ip hextets,
        net_isIP ip = 6%Z -> parseIPv6Hextets ip = Some hextets ->
        isHextets hextets ->
        isInternalAddress ip
        = inInternalIPv6Blocks hextets || mappedIsPrivate hextets)
  /\ (forall ip hextets a b c d,
        net_isIP ip = 6%Z -> parseIPv6Hextets ip = Some hextets ->
        extractIPv4Mapped hextets = Some (dotted a b c d) ->
        (a < 256)%N -> (b < 256)%N -> (c < 256)%N -> (d < 256)%N ->
        inInternalIPv4Blocks (Z.of_N a) (Z.of_N b) (Z.of_N c) (Z.of_N d)
        = true ->
        isInternalAddress ip = true)
  /\ (forall ip, net_isIP ip = 0%Z -> isInternalAddress ip = false).
Proof.
  intros HN.
  assert (forall (St : Type) (options : CreateHttpHooksOptions St) g,
            opt_blockInternalRanges options = None ->
            blockInternalRanges (fst (createHttpHooks options g)) = true)
    as Hdefault.
  { intros St options g E. unfold createHttpHooks.
    destruct (buildSecretEntries _ g). cbn [fst blockInternalRanges].
    rewrite E. reflexivity. }
  split; [exact Hdefault|]. split; [|split; [|split; [|split; [|split]]]].
  - intros St allowed hook info st H. unfold isIpAllowed. rewrite H.
    reflexivity.
  - intros St options g info st E H. unfold httpHooks_isIpAllowed.
    rewrite (Hdefault St options g E). unfold isIpAllowed. rewrite H.
    reflexivity.
  - intros a b c d Ha Hb Hc Hd. apply isInternalAddress_dotted; assumption.
  - intros ip hextets H6 Hp Hh. rewrite net_isIP_6 by exact H6.
    apply isPrivateIPv6_blocks; assumption.
  - intros ip hextets a b c d H6 Hp He Ha Hb Hc Hd Hin.
    rewrite net_isIP_6 by exact H6.
    apply (isPrivateIPv6_mapped ip hextets (dotted a b c d) Hp He).
    + unfold dotted. destruct (showOctet a) eqn:E; [|discriminate].
      destruct (showOctet_facts a Ha) as [F _]. rewrite E in F.
      discriminate F.
    + rewrite isPrivateIPv4_dotted by assumption. exact Hin.
  - intros ip H0. unfold isInternalAddress. rewrite H0. reflexivity.
Qed.

Lemma C3_internal_ranges_witness :
  isInternalAddress (platform := demoPlatform) (lit "172.31.255.254") = true
  /\ isInternalAddress (platform := demoPlatform) (lit "172.32.0.1") = false
  /\ isInternalAddress (platform := demoPlatform) (lit "fe80::1") = true
  /\ isInternalAddress (platform := demoPlatform) (lit "2001:db8::1") = false
  /\ isInternalAddress (platform := demoPlatform) (lit "::ffff:10.0.0.1")
     = true
  /\ isIpAllowed (platform := demoPlatform) true [] (None : option (IpHook unit))
       (mkIpInfo (lit "localhost") (lit "127.0.0.1")) tt = (Some false, tt).
Proof.
  pose proof (C3_internal_ranges (platform := demoPlatform) demo_Number_octet)
    as [_ [H2 [_ [H3 [H4 [H5 _]]]]]].
  split; [|split; [|split; [|split; [|split]]]].
  - apply (H3 172 31 255 254)%N; reflexivity.
  - apply (H3 172 32 0 1)%N; reflexivity.
  - rewrite (H4 (lit "fe80::1") [65152; 0; 0; 0; 0; 0; 0; 1]%Z);
      [reflexivity | reflexivity | reflexivity |].
    split; [reflexivity|]. repeat constructor; discriminate.
  - rewrite (H4 (lit "2001:db8::1") [8193; 3512; 0; 0; 0; 0; 0; 1]%Z);
      [reflexivity | reflexivity | reflexivity |].
    split; [reflexivity|]. repeat constructor; discriminate.
  - apply (H5 (lit "::ffff:10.0.0.1") [0; 0; 0; 0; 0; 65535; 2560; 1]%Z
              10 0 0 1)%N; reflexivity.
  - apply H2. apply (H3 127 0 0 1)%N; reflexivity.
Defined.

(** C4.  For every hostname and every pattern that is not empty,
    [matchHostname] decides whether the pattern accounts for the whole
    hostname, from its first to its last character, each star standing for
    any run of characters other than line terminators (so for any label
    segment, and the lone star for every hostname) and every other
    character, the metacharacters of regular expressions among them, for
    itself whatever the case of letters; the empty pattern matches
    nothing.  A pattern without a star matches exactly the hostnames equal
    to it up to case.  When the list of allowed hosts is empty the
    admission does not look at the hostname. *)
Theorem C4_hostname_matching {platform : Platform} :
  (forall hostname pattern,
     pattern <> [] ->
     matchHostname hostname pattern
     = if str_eqb pattern (lit "*") then true
       else globMatch pattern hostname)
  /\ (forall hostname, matchHostname hostname [] = false)
  /\ (forall hostname pattern,
        pattern <> [] -> Forall (fun c => c <> "*"%char) pattern ->
        matchHostname hostname pattern = ci_str_eqb pattern hostname)
  /\ (forall pre pre' segment post rest,
        Forall (fun c => c <> "*"%char) pre ->
        ci_str_eqb pre pre' = true ->
        forallb (fun c => negb (isLineTerminator c)) segment = true ->
        globMatch post rest = true ->
        matchHostname (pre' ++ segment ++ rest) (pre ++ "*"%char :: post)
        = true)
  /\ (forall (St : Type) blockInternal (hook : option (IpHook St)) info st,
        isIpAllowed blockInternal [] hook info st
        = if blockInternal && isInternalAddress (info_ip info)
          then (Some false, st)
          else match hook with
               | Some h => h info st
               | None => (Some true, st)
               end).
Proof.
  split; [|split; [|split; [|split]]].
  - intros hostname pattern Hne. rewrite matchHostname_globMatch.
    apply isEmpty_false in Hne. rewrite Hne. reflexivity.
  - intros hostname. reflexivity.
  - intros hostname pattern Hne Hlit. rewrite matchHostname_globMatch.
    apply isEmpty_false in Hne. rewrite Hne.
    destruct (str_eqb pattern (lit "*")) eqn:E.
    + apply str_eqb_eq in E. subst pattern. inversion Hlit; subst.
      congruence.
    + apply globMatch_literal. exact Hlit.
  - intros pre pre' segment post rest Hpre Eq Hseg Hrest.
    rewrite matchHostname_globMatch.
    destruct (isEmpty (pre ++ "*"%char :: post)) eqn:E.
    + apply isEmpty_true in E. destruct pre; discriminate E.
    + destruct (str_eqb (pre ++ "*"%char :: post) (lit "*")); [reflexivity|].
      rewrite globMatch_literal_prefix by assumption.
      apply globMatch_star; assumption.
  - intros St blockInternal hook info st. unfold isIpAllowed.
    destruct (blockInternal && isInternalAddress (info_ip info)); reflexivity.
Qed.

Lemma C4_hostname_matching_witness :
  matchHostname (lit "api.github.com") (lit "*.GitHub.com") = true
  /\ matchHostname (lit "apixgithub.com") (lit "*.github.com") = false
  /\ matchHostname (lit "example.com.evil.test") (lit "example.com") = false
  /\ matchHostname (lit "EXAMPLE.com") (lit "example.com") = true.
Proof.
  pose proof (C4_hostname_matching (platform := demoPlatform))
    as [H1 [_ [H3 [H4 _]]]].
  split; [|split; [|split]].
  - apply (H4 [] [] (lit "api") (lit ".GitHub.com") (lit ".github.com"));
      [constructor | reflexivity | reflexivity | reflexivity].
  - rewrite H1 by discriminate. reflexivity.
  - rewrite H3; [reflexivity | discriminate |].
    repeat (constructor; [discriminate|]). constructor.
  - rewrite H3; [reflexivity | discriminate |].
    repeat (constructor; [discriminate|]). constructor.
Defined.

(** C5.  For every hook a caller supplies and every hostname and address:
    when a built-in check denies (the address is internal while internal
    ranges are blocked, or the list of allowed hosts is not empty and the
    hostname matches none of it) the admission is a denial whatever the
    hook would return, and the state of the hook is untouched; when both
    built-in checks pass the admission is what the hook gives; so an
    admission with a hook implies the admission without it. *)
Theorem C5_hook_narrows {platform : Platform} (St : Type)
    (blockInternal : bool) (allowed : list str) (info : IpInfo) :
  ((blockInternal = true /\ isInternalAddress (info_ip info) = true)
   \/ (allowed <> [] /\ matchesAnyHost (info_hostname info) allowed = false) ->
   forall (hook : option (IpHook St)) st,
     isIpAllowed blockInternal allowed hook info st = (Some false, st))
  /\ (builtinAllows blockInternal allowed info = true ->
      forall (hook : option (IpHook St)) st,
        isIpAllowed blockInternal allowed hook info st
        = match hook with
          | Some h => h info st
          | None => (Some true, st)
          end)
  /\ (forall (hook : option (IpHook St)) st,
        fst (isIpAllowed blockInternal allowed hook info st) = Some true ->
        fst (isIpAllowed blockInternal allowed None info st) = Some true).
Proof.
  split; [|split].
  - intros H hook st. apply builtinAllows_false in H.
    apply (isIpAllowed_cases St blockInternal allowed hook info st). exact H.
  - intros H hook st.
    apply (isIpAllowed_cases St blockInternal allowed hook info st). exact H.
  - intros hook st H.
    destruct (builtinAllows blockInternal allowed info) eqn:B.
    + destruct (isIpAllowed_cases St blockInternal allowed None info st)
        as [_ E]. rewrite (E B). reflexivity.
    + destruct (isIpAllowed_cases St blockInternal allowed hook info st)
        as [E _]. rewrite (E B) in H. discriminate H.
Qed.

Lemma C5_hook_narrows_witness :
  isIpAllowed (platform := demoPlatform) true [lit "api.example.com"]
    (Some (fun (_ : IpInfo) (calls : nat) => (Some true, S calls)))
    (mkIpInfo (lit "api.example.com") (lit "10.0.0.7")) 0
  = (Some false, 0)
  /\ isIpAllowed (platform := demoPlatform) true [lit "api.example.com"]
       (Some (fun (_ : IpInfo) (calls : nat) => (Some false, S calls)))
       (mkIpInfo (lit "api.example.com") (lit "93.184.216.34")) 0
     = (Some false, 1).
Proof.
  split.
  - apply (proj1 (C5_hook_narrows (platform := demoPlatform) nat true
                    [lit "api.example.com"]
                    (mkIpInfo (lit "api.example.com") (lit "10.0.0.7")))).
    left. split; reflexivity.
  - rewrite (proj1 (proj2
               (C5_hook_narrows (platform := demoPlatform) nat true
                  [lit "api.example.com"]
                  (mkIpInfo (lit "api.example.com") (lit "93.184.216.34")))));
      reflexivity.
Defined.

Lemma applySecrets_ok_inv {platform : Platform} (entries : list SecretEntry)
    (flag : option bool) (request r : HttpHookRequest) :
  applySecretsToRequest entries flag request = Ok r ->
  assertSecretValuesAllowedForHost request (getHostname request) entries
    (orElse flag false) = Ok tt
  /\ replaceSecretPlaceholdersInHeaders request (getHostname request) entries
     = Ok (headers r)
  /\ replaceSecretPlaceholdersInUrlParameters (url request)
       (getHostname request) entries (orElse flag false) = Ok (url r)
  /\ method r = method request /\ body r = body request.
Proof.
  unfold applySecretsToRequest.
  destruct (assertSecretValuesAllowedForHost _ _ _ _) as [[]|]; [|discriminate].
  cbn [bind].
  destruct (replaceSecretPlaceholdersInHeaders _ _ _) as [hdrs|];
    [|discriminate].
  cbn [bind].
  destruct (replaceSecretPlaceholdersInUrlParameters _ _ _ _) as [u|];
    [|discriminate].
  cbn [bind]. intros E. injection E as <-. auto.
Qed.

(** C6.  [replaceSecretsInQuery] absent is [replaceSecretsInQuery] false.
    With the flag off the hooks run the defence on the headers alone, the
    substitution on the headers, and return the URL of the request as it
    is: the defence throws exactly for an offending header, whatever the
    query holds, and no placeholder is replaced in the query.  With the
    flag on the defence throws for an offending header or query parameter,
    and the URL returned is the substituted one: every placeholder
    replaced in the name and in the value of every query parameter and the
    query written again when that changed a parameter, the URL as it is
    otherwise; among the entries [createHttpHooks] makes from distinct
    draws, a query parameter with the placeholder of a secret not allowed
    for the host then fails the request.  Whatever the flag, an offending
    header fails the request, the headers returned are the substituted
    ones, and the hooks return when every secret is allowed for the
    host. *)
Theorem C6_query_flag {platform : Platform}
    (entries : list SecretEntry) (request : HttpHookRequest) :
  applySecretsToRequest entries None request
  = applySecretsToRequest entries (Some false) request
  /\ applySecretsToRequest entries (Some false) request
     = (_ <- assertSecretValuesAllowedForHost request (getHostname request)
               entries false ;;
        hdrs <- replaceSecretPlaceholdersInHeaders request
                  (getHostname request) entries ;;
        Ok (mkRequest (method request) (url request) hdrs (body request)))
  /\ isBlocked (assertSecretValuesAllowedForHost request
                  (getHostname request) entries false)
     = existsb
         (fun e =>
            negb (matchesAnyHost (getHostname request) (hosts e))
            && negb (isEmpty (value e))
            && valueAppearsInHeaders (value e) (headers request))
         entries
  /\ isBlocked (assertSecretValuesAllowedForHost request
                  (getHostname request) entries true)
     = existsb
         (fun e =>
            negb (matchesAnyHost (getHostname request) (hosts e))
            && negb (isEmpty (value e))
            && (valueAppearsInHeaders (value e) (headers request)
                || valueAppearsInQuery (value e) (url request)))
         entries
  /\ (forall e,
        In e entries ->
        matchesAnyHost (getHostname request) (hosts e) = false ->
        value e <> [] ->
        valueAppearsInQuery (value e) (url request) = true ->
        isBlocked (applySecretsToRequest entries (Some true) request) = true)
  /\ (forall flag r,
        applySecretsToRequest entries flag request = Ok r ->
        replaceSecretPlaceholdersInHeaders request (getHostname request)
          entries = Ok (headers r)
        /\ replaceSecretPlaceholdersInUrlParameters (url request)
             (getHostname request) entries (orElse flag false) = Ok (url r))
  /\ (forall hostname,
        replaceSecretPlaceholdersInUrlParameters (url request) hostname
          entries false = Ok (url request))
  /\ (forall hostname u,
        replaceSecretPlaceholdersInUrlParameters (url request) hostname
          entries true = Ok u ->
        u = substitutedUrl entries (url request))
  /\ (forall hostname,
        Forall (fun e => matchesAnyHost hostname (hosts e) = true) entries ->
        replaceSecretPlaceholdersInUrlParameters (url request) hostname
          entries true = Ok (substitutedUrl entries (url request)))
  /\ (forall parsed,
        URL_parse (url request) = Some parsed ->
        URL_search parsed <> [] ->
        map (substitutedParameter entries) (URL_searchParams parsed)
        <> URL_searchParams parsed ->
        substitutedUrl entries (url request)
        = URL_toString_withSearch parsed
            (if isEmpty (URLSearchParams_toString
                           (map (substitutedParameter entries)
                                (URL_searchParams parsed)))
             then []
             else lit "?" ++ URLSearchParams_toString
                               (map (substitutedParameter entries)
                                    (URL_searchParams parsed))))
  /\ (forall flag r,
        applySecretsToRequest entries flag request = Ok r ->
        r = substitutedRequest entries flag request)
  /\ (forall flag,
        Forall (fun e => matchesAnyHost (getHostname request) (hosts e) = true)
               entries ->
        applySecretsToRequest entries flag request
        = Ok (substitutedRequest entries flag request))
  /\ (wellFormed entries ->
      forall entry n v,
        In entry entries ->
        matchesAnyHost (getHostname request) (hosts entry) = false ->
        In (n, v) (queryParameters (url request)) ->
        includes n (placeholder entry) || includes v (placeholder entry)
        = true ->
        isBlocked (applySecretsToRequest entries (Some true) request) = true)
  /\ (forall flag e,
        In e entries ->
        matchesAnyHost (getHostname request) (hosts e) = false ->
        value e <> [] ->
        valueAppearsInHeaders (value e) (headers request) = true ->
        isBlocked (applySecretsToRequest entries flag request) = true).
Proof.
  split; [reflexivity|].
  split; [|split; [|split; [|split; [|split; [|split; [|split; [|split;
    [|split; [|split; [|split; [|split]]]]]]]]]]].
  - unfold applySecretsToRequest. cbn [orElse].
    destruct (assertSecretValuesAllowedForHost _ _ _ _); [|reflexivity].
    cbn [bind].
    destruct (replaceSecretPlaceholdersInHeaders _ _ _); reflexivity.
  - rewrite assertSecretValues_spec. apply existsb_ext'. intros e.
    unfold offends. cbn [andb]. rewrite orb_false_r. reflexivity.
  - rewrite assertSecretValues_spec. reflexivity.
  - intros e Hin M Hv Hq. apply applySecrets_blocked_by_defence.
    apply existsb_In. exists e. split; [exact Hin|].
    apply offends_iff. repeat split; auto.
  - intros flag r E. apply applySecrets_ok_inv in E. tauto.
  - intros hostname. reflexivity.
  - intros hostname u E. apply replaceInUrl_ok in E. exact E.
  - intros hostname H.
    apply (replaceInUrl_all_allowed (url request) hostname entries true H).
  - intros parsed Hp Hs Hch. unfold substitutedUrl. rewrite Hp.
    apply isEmpty_false in Hs. rewrite Hs.
    destruct (params_eqb _ _) eqn:E; [|reflexivity].
    exfalso. apply Hch. apply params_eqb_eq. exact E.
  - intros flag r. apply applySecrets_ok_result.
  - intros flag H. apply applySecrets_all_allowed. exact H.
  - intros WF entry n v Hin M Hq Hv. unfold applySecretsToRequest.
    destruct (assertSecretValuesAllowedForHost _ _ _ _); [|reflexivity].
    cbn [bind].
    destruct (replaceSecretPlaceholdersInHeaders _ _ _); [|reflexivity].
    cbn [bind orElse]. apply isBlocked_bind.
    apply (replaceInUrl_blocks _ _ entries entry n v); assumption.
  - intros flag e Hin M Hv Hh. apply applySecrets_blocked_by_defence.
    apply existsb_In. exists e. split; [exact Hin|].
    apply offends_iff. repeat split; auto.
Qed.

Lemma C6_query_flag_witness :
  applySecretsToRequest (platform := demoPlatform) exampleEntries None
    queryLeakRequest = Ok queryLeakRequest
  /\ isBlocked (applySecretsToRequest (platform := demoPlatform)
                  exampleEntries (Some true) queryLeakRequest) = true
  /\ isBlocked (applySecretsToRequest (platform := demoPlatform)
                  exampleEntries None leakRequest) = true
  /\ applySecretsToRequest (platform := demoPlatform) exampleEntries
       (Some true) queryRequest = Ok queryResult
  /\ applySecretsToRequest (platform := demoPlatform) exampleEntries
       None queryRequest = Ok queryResultFlagOff.
Proof.
  pose proof (C6_query_flag (platform := demoPlatform) exampleEntries
                queryLeakRequest) as [H1 [H2 [_ [_ [H5 _]]]]].
  pose proof (C6_query_flag (platform := demoPlatform) exampleEntries
                queryRequest)
    as [_ [_ [_ [_ [_ [_ [_ [_ [_ [_ [_ [H12 _]]]]]]]]]]]].
  assert (Forall (fun e => matchesAnyHost
                             (getHostname (platform := demoPlatform)
                                queryRequest) (hosts e) = true)
                 exampleEntries) as A
    by (apply Forall_cons; [reflexivity | apply Forall_nil]).
  split; [|split; [|split; [|split]]].
  - rewrite H1, H2. reflexivity.
  - apply (H5 (mkSecretEntry (lit "TOKEN") examplePlaceholder (lit "s3cr3t")
                 [lit "api.example.com"])).
    + left; reflexivity.
    + reflexivity.
    + discriminate.
    + reflexivity.
  - pose proof (C6_query_flag (platform := demoPlatform) exampleEntries
                  leakRequest)
      as [_ [_ [_ [_ [_ [_ [_ [_ [_ [_ [_ [_ [_ H14]]]]]]]]]]]]].
    apply (H14 None (mkSecretEntry (lit "TOKEN") examplePlaceholder
                       (lit "s3cr3t") [lit "api.example.com"])).
    + left; reflexivity.
    + reflexivity.
    + discriminate.
    + reflexivity.
  - rewrite (H12 (Some true) A). reflexivity.
  - rewrite (H12 None A). reflexivity.
Defined.

(** C10.  When the URL of a request does not parse, the hostname the hooks
    work with is the empty string.  Then, among the entries
    [createHttpHooks] makes from distinct draws, a header whose value
    contains the placeholder of a secret none of whose patterns matches the
    empty hostname makes the request fail with [HttpRequestBlockedError],
    whatever the query flag: nothing is substituted.  A pattern that is
    the lone star matches the empty hostname, so such a secret has none. *)
Theorem C10_unparsed_url {platform : Platform}
    (entries : list SecretEntry) (flag : option bool)
    (request : HttpHookRequest) :
  URL_parse (url request) = None ->
  getHostname request = []
  /\ (forall patterns,
        matchesAnyHost [] patterns = false -> ~ In (lit "*") patterns)
  /\ (wellFormed entries ->
      forall entry n v,
        In entry entries ->
        matchesAnyHost [] (hosts entry) = false ->
        In (n, v) (headers request) ->
        includes v (placeholder entry) = true ->
        isBlocked (applySecretsToRequest entries flag request) = true).
Proof.
  intros Hp.
  assert (getHostname request = []) as Hh.
  { unfold getHostname. rewrite Hp. reflexivity. }
  split; [exact Hh|]. split.
  - intros patterns M Hin. unfold matchesAnyHost in M.
    assert (existsb (fun pattern => matchHostname (toLowerCase []) pattern)
                    patterns = true) as E.
    { apply existsb_In. exists (lit "*"). split; [exact Hin | reflexivity]. }
    congruence.
  - intros WF entry n v Hin M Hhdr Hv.
    apply applySecrets_blocked_by_headers. rewrite Hh.
    apply (replaceInHeaders_blocks [] entries entry request n v); assumption.
Qed.

Lemma C10_unparsed_url_witness :
  isBlocked (applySecretsToRequest (platform := demoPlatform) exampleEntries
               None brokenRequest) = true.
Proof.
  destruct (C10_unparsed_url (platform := demoPlatform) exampleEntries None
              brokenRequest eq_refl) as [_ [_ H]].
  assert (wellFormed exampleEntries) as WF.
  { split.
    - apply Forall_cons;
        [exists (repeat (byte 0) 24); split; reflexivity | apply Forall_nil].
    - apply NoDup_cons; [intros [] | apply NoDup_nil]. }
  apply (H WF
           (mkSecretEntry (lit "TOKEN") examplePlaceholder (lit "s3cr3t")
              [lit "api.example.com"])
           (lit "Authorization") (lit "Bearer " ++ examplePlaceholder)).
  - left; reflexivity.
  - reflexivity.
  - left; reflexivity.
  - reflexivity.
Defined.

(** *** The env object *)











(** C8, as amended.  Decoding and encoding again gives the token back
    when the token is what the encoder writes for credentials that are
    well-formed UTF-8 (ASCII credentials are).  For every header value the
    Basic pass returns the value unchanged whenever no placeholder occurs
    in the decoded credentials, because the pass compares the credentials
    before and after the substitution; and when it returns another value,
    that value has the scheme word, the white space and the trailing white
    space of the header around the encoding of the substituted
    credentials. *)
Theorem C8_basic_pass (hostname : str) (entries : list SecretEntry) :
  (forall bytes,
     utf8_toString bytes = bytes ->
     base64_encode
       (utf8_bytes (utf8_toString (base64_decode (base64_encode bytes))))
     = base64_encode bytes)
  /\ (forall bytes,
        Forall (fun b => (code b <= 127)%N) bytes ->
        utf8_toString bytes = bytes)
  /\ (forall headerName headerValue,
        (forall decoded,
           decodeBasicAuth headerValue = Some decoded ->
           Forall (fun e => includes decoded (placeholder e) = false) entries) ->
        replaceBasicAuthSecretPlaceholders headerName headerValue hostname
          entries = Ok headerValue)
  /\ (forall headerName headerValue updatedValue,
        replaceBasicAuthSecretPlaceholders headerName headerValue hostname
          entries = Ok updatedValue ->
        updatedValue <> headerValue ->
        exists m updated,
          matchBasic headerValue = Some m
          /\ headerValue = scheme m ++ whitespace m ++ token m ++ trailing m
          /\ replaceSecretPlaceholdersInString
               (utf8_toString (base64_decode (token m))) hostname entries
             = Ok updated
          /\ updatedValue
             = scheme m ++ whitespace m ++ base64_encode updated
               ++ trailing m).
Proof.
  split; [|split; [|split]].
  - intros bytes H. rewrite base64_decode_encode, H. reflexivity.
  - apply utf8_toString_ascii.
  - intros headerName headerValue H.
    destruct (isCredentialHeader headerName) eqn:Hc;
      [|apply replaceBasicAuth_other; left; exact Hc].
    destruct (matchBasic headerValue) as [m|] eqn:Hm;
      [|apply replaceBasicAuth_other; right; exact Hm].
    destruct (replaceBasicAuth_spec headerName headerValue hostname entries m
                Hc Hm) as [_ ->].
    rewrite replaceInString_none.
    + rewrite str_eqb_refl. reflexivity.
    + apply H. unfold decodeBasicAuth. rewrite Hm. reflexivity.
  - intros headerName headerValue updatedValue E Hneq.
    destruct (isCredentialHeader headerName) eqn:Hc.
    2:{ rewrite replaceBasicAuth_other in E by (left; exact Hc). congruence. }
    destruct (matchBasic headerValue) as [m|] eqn:Hm.
    2:{ rewrite replaceBasicAuth_other in E by (right; exact Hm). congruence. }
    destruct (replaceBasicAuth_spec headerName headerValue hostname entries m
                Hc Hm) as [Hv E'].
    rewrite E' in E.
    destruct (replaceSecretPlaceholdersInString _ hostname entries)
      as [updated|] eqn:Er; [|discriminate E].
    destruct (str_eqb updated (utf8_toString (base64_decode (token m))));
      [congruence|].
    injection E as <-. exists m, updated. auto.
Qed.

Lemma C8_basic_pass_witness :
  base64_encode
    (utf8_bytes (utf8_toString (base64_decode (lit "dXNlcjpwYXNz"))))
  = lit "dXNlcjpwYXNz"
  /\ replaceBasicAuthSecretPlaceholders (lit "Authorization")
       (lit "Basic dXNlcjpwYXNz") (lit "evil.test") exampleEntries
     = Ok (lit "Basic dXNlcjpwYXNz").
Proof.
  pose proof (C8_basic_pass (lit "evil.test") exampleEntries)
    as [H1 [H2 [H3 _]]].
  split.
  - apply (H1 (lit "user:pass")). apply H2.
    repeat (constructor; [apply N.leb_le; reflexivity|]). constructor.
  - apply H3. intros decoded E. injection E as <-.
    constructor; [reflexivity | constructor].
Defined.

(** C8 as it is written fails on a token without padding: the header
    [Basic YQ] has the pattern, its token decodes to the letter a, and
    encoding again gives [YQ==]. *)
Lemma C8_unpadded_token_counterexample :
  option_map token (matchBasic (lit "Basic YQ")) = Some (lit "YQ")
  /\ decodeBasicAuth (lit "Basic YQ") = Some (lit "a")
  /\ base64_encode (utf8_bytes (utf8_toString (base64_decode (lit "YQ"))))
     = lit "YQ=="
  /\ lit "YQ==" <> lit "YQ".
Proof. repeat split; try reflexivity. discriminate. Qed.

(** C9, as amended.  The list of allowed hosts [createHttpHooks] returns
    is made of the caller's allowed hosts followed by the patterns of the
    secrets, each trimmed and put in lower case, the empty ones dropped,
    and of what is left the first occurrence of each, in order: it has no
    duplicates and holds exactly the patterns that are not empty.
    Consequently a hostname that matches a pattern of a secret matches the
    list, and passes the hostname check of the admission, even when the
    caller's allowed hosts do not list it. *)
Theorem C9_allowed_hosts {platform : Platform} (St : Type)
    (options : CreateHttpHooksOptions St) (g : Rng) :
  let r := fst (createHttpHooks options g) in
  allowedHosts r
  = keepFirst
      (keptPatterns (orElse (opt_allowedHosts options) []
                     ++ flat_map hosts (secretEntries r)))
  /\ NoDup (allowedHosts r)
  /\ (forall p,
        In p (allowedHosts r)
        <-> p <> []
            /\ (In p (map normalizeHostnamePattern
                        (orElse (opt_allowedHosts options) []))
                \/ exists e, In e (secretEntries r) /\ In p (hosts e)))
  /\ (forall e hostname,
        In e (secretEntries r) ->
        matchesAnyHost hostname (hosts e) = true ->
        matchesAnyHost hostname (allowedHosts r) = true)
  /\ (forall e info,
        In e (secretEntries r) ->
        matchesAnyHost (info_hostname info) (hosts e) = true ->
        (0 <? length (allowedHosts r))
        && negb (matchesAnyHost (info_hostname info) (allowedHosts r))
        = false).
Proof.
  intros r.
  destruct (createHttpHooks_fields St options g) as [E1 [_ E3]].
  fold r in E1, E3.
  assert (Forall (fun e => Forall (fun p => normalizeHostnamePattern p = p)
                                  (hosts e)) (secretEntries r)) as Hnorm.
  { rewrite E1. apply buildSecretEntries_hosts. }
  assert (forall p,
            In p (allowedHosts r)
            <-> p <> []
                /\ (In p (map normalizeHostnamePattern
                            (orElse (opt_allowedHosts options) []))
                    \/ exists e, In e (secretEntries r) /\ In p (hosts e)))
    as Hmem.
  { intros p. rewrite E3, uniqueHosts_keepFirst, In_keepFirst.
    unfold keptPatterns. rewrite filter_In, negb_true_iff, isEmpty_false.
    rewrite map_app, in_app_iff.
    assert (In p (map normalizeHostnamePattern
                    (flat_map hosts (secretEntries r)))
            <-> exists e, In e (secretEntries r) /\ In p (hosts e)) as Hs.
    { rewrite in_map_iff. split.
      - intros [raw [<- Hraw]]. apply in_flat_map in Hraw as [e [He Hp]].
        exists e. split; [exact He|].
        rewrite Forall_forall in Hnorm. specialize (Hnorm e He).
        rewrite Forall_forall in Hnorm. rewrite (Hnorm raw Hp). exact Hp.
      - intros [e [He Hp]]. exists p. split.
        + rewrite Forall_forall in Hnorm. specialize (Hnorm e He).
          rewrite Forall_forall in Hnorm. apply Hnorm. exact Hp.
        + apply in_flat_map. exists e. auto. }
    rewrite Hs. tauto. }
  assert (forall e hostname,
            In e (secretEntries r) ->
            matchesAnyHost hostname (hosts e) = true ->
            matchesAnyHost hostname (allowedHosts r) = true) as Hcons.
  { intros e hostname He M. unfold matchesAnyHost in *.
    apply existsb_In in M as [p [Hp Mp]]. apply existsb_In.
    exists p. split; [|exact Mp]. apply Hmem. split.
    - intros ->. discriminate Mp.
    - right. exists e. auto. }
  split; [|split; [|split; [|split]]].
  - rewrite E3. apply uniqueHosts_keepFirst.
  - rewrite E3, uniqueHosts_keepFirst. apply NoDup_keepFirst.
  - exact Hmem.
  - exact Hcons.
  - intros e info He M. rewrite (Hcons e _ He M). apply andb_false_r.
Qed.

Lemma C9_allowed_hosts_witness :
  matchesAnyHost (lit "API.GitHub.com")
    (allowedHosts
       (fst (createHttpHooks (platform := demoPlatform) twoSecretOptions 0%N)))
  = true.
Proof.
  pose proof (C9_allowed_hosts (platform := demoPlatform) unit
                twoSecretOptions 0%N) as [_ [_ [_ [H _]]]].
  apply (H (mkSecretEntry (lit "KEY") secondPlaceholder (lit "hunter2")
              [lit "*.github.com"])).
  - right; left; reflexivity.
  - reflexivity.
Defined.

(** C9 as it is written fails on a blank pattern: trimmed it is the empty
    string, which the union of the normalized patterns holds and the list
    returned does not. *)
Lemma C9_blank_pattern_counterexample :
  allowedHosts
    (fst (createHttpHooks (platform := demoPlatform) blankPatternOptions 0%N))
  = [lit "example.com"]
  /\ keepFirst
       (map normalizeHostnamePattern
          (orElse (opt_allowedHosts blankPatternOptions) []
           ++ flat_map hosts
                (secretEntries
                   (fst (createHttpHooks (platform := demoPlatform)
                           blankPatternOptions 0%N)))))
     = [[]; lit "example.com"].
Proof. split; reflexivity. Qed.

(** * Further properties *)

(** ** replaceAll *)

(** X1.  Replacing a string by itself changes nothing: splitting at a
    separator and joining with it gives the string back. *)
Theorem X1_replaceAll_same (v search : str) : replaceAll v search search = v.
Proof.
  unfold replaceAll. destruct (isEmpty search) eqn:E; [reflexivity|].
  apply join_split. apply isEmpty_false. exact E.
Qed.

(** X2.  [replaceAll] returns the string as it is when the search string
    does not occur in it. *)
Theorem X2_replaceAll_absent (v search replacement : str) :
  includes v search = false -> replaceAll v search replacement = v.
Proof.
  induction v as [|c v IH]; intros H.
  - apply replaceAll_nil.
  - rewrite includes_cons in H. apply orb_false_iff in H as [H1 H2].
    rewrite replaceAll_step by exact H1. rewrite IH by exact H2. reflexivity.
Qed.

Lemma X2_replaceAll_absent_witness :
  replaceAll (lit "Bearer token") examplePlaceholder (lit "s3cr3t")
  = lit "Bearer token".
Proof. apply X2_replaceAll_absent. reflexivity. Defined.

Lemma startsWith_shorter (a b p : str) :
  length p <= length a -> startsWith (a ++ b) p = startsWith a p.
Proof.
  revert a. induction p as [|c p IH]; intros a H.
  - destruct a; destruct b; reflexivity.
  - destruct a as [|d a]; [simpl in H; lia|].
    cbn [app startsWith]. rewrite IH by (simpl in H; lia). reflexivity.
Qed.

(** X3.  When the search string occurs once, [replaceAll] replaces that
    occurrence and nothing else: what stands before it and what stands
    behind it are kept. *)
Theorem X3_replaceAll_single_occurrence (pre search post replacement : str) :
  search <> [] ->
  includes (pre ++ removelast search) search = false ->
  includes post search = false ->
  replaceAll (pre ++ search ++ post) search replacement
  = pre ++ replacement ++ post.
Proof.
  intros Hne Hpre Hpost. induction pre as [|c pre IH].
  - cbn [app]. rewrite replaceAll_match by exact Hne.
    rewrite replaceAll_absent by exact Hpost. reflexivity.
  - cbn [app] in *. rewrite includes_cons in Hpre.
    apply orb_false_iff in Hpre as [H1 H2].
    rewrite replaceAll_step.
    + rewrite IH by exact H2. reflexivity.
    + rewrite <- H1.
      assert (search = removelast search ++ [last search "*"%char]) as Es
        by (apply app_removelast_last; exact Hne).
      rewrite Es at 1.
      replace (c :: pre ++ (removelast search ++ [last search "*"%char])
                 ++ post)
        with ((c :: pre ++ removelast search)
              ++ [last search "*"%char] ++ post)
        by (cbn [app]; rewrite <- !app_assoc; reflexivity).
      apply startsWith_shorter.
      cbn [length]. rewrite length_app.
      assert (length search = length (removelast search) + 1) as L.
      { rewrite Es at 1. rewrite length_app. reflexivity. }
      lia.
Qed.

Lemma X3_replaceAll_single_occurrence_witness :
  replaceAll (lit "Bearer " ++ examplePlaceholder ++ lit "; v=1")
    examplePlaceholder (lit "s3cr3t")
  = lit "Bearer " ++ lit "s3cr3t" ++ lit "; v=1".
Proof.
  apply X3_replaceAll_single_occurrence;
    [discriminate | reflexivity | reflexivity].
Defined.

(** ** Host patterns *)

(** X4.  A normalized pattern is a fixed point of the normalization, of
    [trim] and of [toLowerCase]. *)
Theorem X4_normalize_fixed (pattern : str) :
  normalizeHostnamePattern (normalizeHostnamePattern pattern)
  = normalizeHostnamePattern pattern
  /\ trim (normalizeHostnamePattern pattern) = normalizeHostnamePattern pattern
  /\ toLowerCase (normalizeHostnamePattern pattern)
     = normalizeHostnamePattern pattern.
Proof.
  split; [apply normalize_idem|]. unfold normalizeHostnamePattern. split.
  - rewrite trim_toLowerCase, trim_idem. reflexivity.
  - apply toLowerCase_idem.
Qed.

Lemma keepFirst_NoDup (l : list str) : NoDup l -> keepFirst l = l.
Proof.
  induction 1 as [|x l Hx _ IH]; [reflexivity|].
  cbn [keepFirst]. rewrite IH. f_equal.
  apply forallb_filter_id. apply forallb_forall. intros y Hy.
  apply negb_true_iff, str_eqb_neq. intros ->. contradiction.
Qed.

Lemma keptPatterns_fixed (l : list str) :
  Forall (fun p => normalizeHostnamePattern p = p /\ p <> []) l ->
  keptPatterns l = l.
Proof.
  induction 1 as [|p l [Hn Hne] _ IH]; [reflexivity|].
  unfold keptPatterns in *. cbn [map filter]. rewrite Hn.
  apply isEmpty_false in Hne. rewrite Hne. cbn [negb]. rewrite IH. reflexivity.
Qed.

Lemma uniqueHosts_elements (l : list str) :
  Forall (fun p => normalizeHostnamePattern p = p /\ p <> []) (uniqueHosts l).
Proof.
  rewrite uniqueHosts_keepFirst. apply Forall_forall. intros p Hp.
  apply (proj1 (In_keepFirst _ _)) in Hp. unfold keptPatterns in Hp.
  apply filter_In in Hp as [Hp Hne]. apply in_map_iff in Hp as [raw [<- _]].
  split; [apply normalize_idem|]. apply isEmpty_false.
  apply negb_true_iff in Hne. exact Hne.
Qed.

(** X5.  [uniqueHosts] is idempotent; its result has no duplicates and
    holds only normalized patterns that are not empty. *)
Theorem X5_uniqueHosts_idempotent (hostList : list str) :
  uniqueHosts (uniqueHosts hostList) = uniqueHosts hostList
  /\ NoDup (uniqueHosts hostList)
  /\ Forall (fun p => normalizeHostnamePattern p = p /\ p <> [])
            (uniqueHosts hostList).
Proof.
  assert (NoDup (uniqueHosts hostList)) as N
    by (rewrite uniqueHosts_keepFirst; apply NoDup_keepFirst).
  split; [|split; [exact N | apply uniqueHosts_elements]].
  rewrite (uniqueHosts_keepFirst (uniqueHosts hostList)).
  rewrite keptPatterns_fixed by apply uniqueHosts_elements.
  apply keepFirst_NoDup. exact N.
Qed.

Lemma lower_of_upper (c : ascii) : lower (upper c) = lower c.
Proof.
  apply ascii_eqb_eq.
  apply (ascii_forall (fun c => ascii_eqb (lower (upper c)) (lower c))).
  vm_compute. reflexivity.
Qed.

Lemma upper_star (c : ascii) :
  ascii_eqb (upper c) (upper "*"%char) = ascii_eqb c "*"%char.
Proof.
  apply Bool.eqb_prop.
  apply (ascii_forall
           (fun c => Bool.eqb (ascii_eqb (upper c) (upper "*"%char))
                              (ascii_eqb c "*"%char))).
  vm_compute. reflexivity.
Qed.

Lemma isLineTerminator_upper (c : ascii) :
  isLineTerminator c = isLineTerminator (upper c).
Proof.
  apply Bool.eqb_prop.
  apply (ascii_forall
           (fun x => Bool.eqb (isLineTerminator x)
                              (isLineTerminator (upper x)))).
  vm_compute. reflexivity.
Qed.

Lemma ci_eqb_lower (c d : ascii) : ci_eqb c d = true -> lower c = lower d.
Proof.
  unfold ci_eqb. intros E. apply ascii_eqb_eq in E.
  rewrite <- (lower_of_upper c), <- (lower_of_upper d), E. reflexivity.
Qed.

Lemma ci_str_eqb_toLowerCase (a b : str) :
  ci_str_eqb a b = true -> toLowerCase a = toLowerCase b.
Proof.
  revert b. induction a as [|c a IH]; intros [|d b] E; try discriminate E;
    [reflexivity|].
  cbn [ci_str_eqb] in E. apply andb_true_iff in E as [E1 E2].
  cbn [toLowerCase map]. rewrite (ci_eqb_lower c d E1).
  f_equal. apply IH. exact E2.
Qed.

Lemma ci_eqb_congr (c c' d d' : ascii) :
  ci_eqb c c' = true -> ci_eqb d d' = true -> ci_eqb c d = ci_eqb c' d'.
Proof.
  unfold ci_eqb. intros E1 E2. apply ascii_eqb_eq in E1, E2.
  rewrite E1, E2. reflexivity.
Qed.

Lemma ci_eqb_star (c c' : ascii) :
  ci_eqb c c' = true -> ascii_eqb c "*"%char = ascii_eqb c' "*"%char.
Proof.
  unfold ci_eqb. intros E. apply ascii_eqb_eq in E.
  rewrite <- (upper_star c), <- (upper_star c'), E. reflexivity.
Qed.

Lemma ci_eqb_lineTerminator (d d' : ascii) :
  ci_eqb d d' = true -> isLineTerminator d = isLineTerminator d'.
Proof.
  unfold ci_eqb. intros E. apply ascii_eqb_eq in E.
  rewrite (isLineTerminator_upper d), (isLineTerminator_upper d'), E.
  reflexivity.
Qed.

Lemma globMatch_ci (p p' : str) :
  ci_str_eqb p p' = true ->
  forall h h', ci_str_eqb h h' = true -> globMatch p h = globMatch p' h'.
Proof.
  revert p'. induction p as [|c p IH]; intros [|c' p'] Ep; try discriminate Ep.
  - intros [|d h] [|d' h'] Eh; try discriminate Eh; reflexivity.
  - cbn [ci_str_eqb] in Ep. apply andb_true_iff in Ep as [Ec Ep].
    cbn [globMatch]. rewrite (ci_eqb_star c c' Ec).
    destruct (ascii_eqb c' "*"%char).
    + intros h. induction h as [|d h IHh]; intros [|d' h'] Eh;
        try discriminate Eh.
      * rewrite (IH p' Ep [] [] eq_refl). reflexivity.
      * cbn [ci_str_eqb] in Eh. apply andb_true_iff in Eh as [Ed Eh].
        rewrite (IH p' Ep (d :: h) (d' :: h')).
        2:{ cbn [ci_str_eqb]. rewrite Ed, Eh. reflexivity. }
        rewrite (IHh h' Eh), (ci_eqb_lineTerminator d d' Ed). reflexivity.
    + intros [|d h] [|d' h'] Eh; try discriminate Eh; [reflexivity|].
      cbn [ci_str_eqb] in Eh. apply andb_true_iff in Eh as [Ed Eh].
      rewrite (ci_eqb_congr c c' d d' Ec Ed), (IH p' Ep h h' Eh). reflexivity.
Qed.

Lemma ci_str_eqb_lone_star (p p' : str) :
  ci_str_eqb p p' = true ->
  str_eqb p (lit "*") = str_eqb p' (lit "*").
Proof.
  change (lit "*") with ["*"%char].
  destruct p as [|c p]; destruct p' as [|c' p']; intros E;
    try discriminate E; [reflexivity|].
  cbn [ci_str_eqb] in E. apply andb_true_iff in E as [Ec Ep].
  cbn [str_eqb]. rewrite (ci_eqb_star c c' Ec). f_equal.
  destruct p, p'; try discriminate Ep; reflexivity.
Qed.

(** X6.  Matching does not see the case of letters: two hostnames that
    differ only in case match the same patterns, and two patterns that
    differ only in case match the same hostnames. *)
Theorem X6_matching_ignores_case (hostname hostname' pattern pattern' : str) :
  ci_str_eqb hostname hostname' = true ->
  ci_str_eqb pattern pattern' = true ->
  matchHostname hostname pattern = matchHostname hostname' pattern'
  /\ forall patterns,
       matchesAnyHost hostname patterns = matchesAnyHost hostname' patterns.
Proof.
  intros Eh Ep. split.
  - rewrite !matchHostname_globMatch.
    rewrite (ci_str_eqb_lone_star pattern pattern' Ep).
    rewrite (globMatch_ci pattern pattern' Ep hostname hostname' Eh).
    destruct pattern, pattern'; try discriminate Ep; reflexivity.
  - intros patterns. unfold matchesAnyHost.
    rewrite (ci_str_eqb_toLowerCase hostname hostname' Eh). reflexivity.
Qed.

Lemma X6_matching_ignores_case_witness :
  matchHostname (lit "API.Example.COM") (lit "*.example.com")
  = matchHostname (lit "api.example.com") (lit "*.EXAMPLE.com").
Proof.
  apply (proj1 (X6_matching_ignores_case (lit "API.Example.COM")
                  (lit "api.example.com") (lit "*.example.com")
                  (lit "*.EXAMPLE.com") eq_refl eq_refl)).
Defined.

Lemma globMatch_star_iff (pattern hostname : str) :
  globMatch ("*"%char :: pattern) hostname = true
  <-> exists x y, hostname = x ++ y /\ noLineTerminator x = true
                  /\ globMatch pattern y = true.
Proof.
  cbn [globMatch]. change (ascii_eqb "*"%char "*"%char) with true. cbv iota.
  induction hostname as [|d h IH].
  - rewrite orb_false_r. split.
    + intros H. exists [], []. auto.
    + intros [x [y [E [_ H]]]]. symmetry in E.
      apply app_eq_nil in E as [-> ->]. exact H.
  - rewrite orb_true_iff, andb_true_iff, IH. split.
    + intros [H | [Hd [x [y [E [Hx Hy]]]]]].
      * exists [], (d :: h). auto.
      * exists (d :: x), y. rewrite E. repeat split; [|exact Hy].
        unfold noLineTerminator in *. cbn [forallb]. rewrite Hd, Hx.
        reflexivity.
    + intros [[|c x] [y [E [Hx Hy]]]].
      * left. simpl in E. rewrite E. exact Hy.
      * right. injection E as -> ->.
        unfold noLineTerminator in Hx. cbn [forallb] in Hx.
        apply andb_true_iff in Hx as [Hc Hx]. split; [exact Hc|].
        exists x, y. auto.
Qed.

(** X7.  A pattern made of a star and a literal suffix matches exactly the
    hostnames that end with the suffix, up to case, behind any run of
    characters other than line terminators: the run may be empty and may
    hold dots, and the suffix itself is not optional. *)
Theorem X7_star_prefix_is_suffix_match (hostname suffix : str) :
  suffix <> [] -> Forall (fun c => c <> "*"%char) suffix ->
  (matchHostname hostname ("*"%char :: suffix) = true
   <-> exists x y, hostname = x ++ y /\ noLineTerminator x = true
                   /\ ci_str_eqb suffix y = true).
Proof.
  intros Hne Hlit. rewrite matchHostname_globMatch. cbn [isEmpty].
  assert (str_eqb ("*"%char :: suffix) (lit "*") = false) as E.
  { apply str_eqb_neq. intros E. injection E as E. contradiction. }
  rewrite E, globMatch_star_iff.
  split; intros [x [y [Eh [Hx Hy]]]]; exists x, y; repeat split; auto.
  - rewrite <- (globMatch_literal suffix Hlit). exact Hy.
  - rewrite (globMatch_literal suffix Hlit). exact Hy.
Qed.

Lemma X7_star_prefix_is_suffix_match_witness :
  matchHostname (lit "a.b.GitHub.com") (lit "*.github.com") = true.
Proof.
  apply (proj2 (X7_star_prefix_is_suffix_match (lit "a.b.GitHub.com")
                  (lit ".github.com") ltac:(discriminate)
                  ltac:(repeat (constructor; [discriminate|]); constructor))).
  exists (lit "a.b"), (lit ".GitHub.com"). repeat split.
Defined.

(** ** The whole request *)

Lemma request_eta (r : HttpHookRequest) :
  mkRequest (method r) (url r) (headers r) (body r) = r.
Proof. destruct r; reflexivity. Qed.

(** X8.  Without secrets the hooks hand every request back as it came,
    whatever the query flag. *)
Theorem X8_no_secrets_identity {platform : Platform} (flag : option bool)
    (request : HttpHookRequest) :
  applySecretsToRequest [] flag request = Ok request.
Proof.
  unfold applySecretsToRequest. cbn [assertSecretValuesAllowedForHost bind].
  unfold replaceSecretPlaceholdersInHeaders,
    replaceSecretPlaceholdersInUrlParameters.
  cbn [length Nat.eqb]. rewrite orb_true_r. cbn [bind].
  rewrite request_eta. reflexivity.
Qed.

Lemma mapResult_fst (A B C : Type) (f : A * B -> result (A * C))
    (l : list (A * B)) (l' : list (A * C)) :
  (forall x y, f x = Ok y -> fst y = fst x) ->
  mapResult f l = Ok l' -> map fst l' = map fst l.
Proof.
  intros Hf. revert l'. induction l as [|x l IH]; intros l' E.
  - injection E as <-. reflexivity.
  - cbn [mapResult] in E. destruct (f x) as [y|] eqn:Ey; [|discriminate E].
    cbn [bind] in E. destruct (mapResult f l) as [ys|]; [|discriminate E].
    cbn [bind] in E. injection E as <-. cbn [map].
    rewrite (Hf x y Ey), (IH ys eq_refl). reflexivity.
Qed.

Lemma replaceInHeader_name (hostname : str) (entries : list SecretEntry)
    (x y : str * str) :
  replaceInHeader hostname entries x = Ok y -> fst y = fst x.
Proof.
  destruct x as [n v]. unfold replaceInHeader.
  destruct (replaceSecretPlaceholdersInString v hostname entries) as [u|];
    [|discriminate].
  cbn [bind].
  destruct (replaceBasicAuthSecretPlaceholders n u hostname entries) as [u'|];
    [|discriminate].
  cbn [bind]. intros E. injection E as <-. reflexivity.
Qed.

(** X9.  A request the hooks let through keeps its method, its body and
    its header names, in their order and with their spelling: only header
    values and the URL can differ. *)
Theorem X9_request_shape_kept {platform : Platform}
    (entries : list SecretEntry) (flag : option bool)
    (request r : HttpHookRequest) :
  applySecretsToRequest entries flag request = Ok r ->
  method r = method request /\ body r = body request
  /\ map fst (headers r) = map fst (headers request).
Proof.
  intros E. apply applySecrets_ok_inv in E as [_ [Eh [_ [Em Eb]]]].
  repeat split; try assumption.
  unfold replaceSecretPlaceholdersInHeaders in Eh.
  destruct entries as [|e0 rest].
  - injection Eh as <-. reflexivity.
  - apply (mapResult_fst _ _ _ _ _ _ (replaceInHeader_name _ _) Eh).
Qed.

Lemma X9_request_shape_kept_witness :
  method bearerResult = method bearerRequest
  /\ body bearerResult = body bearerRequest
  /\ map fst (headers bearerResult) = map fst (headers bearerRequest).
Proof.
  apply (X9_request_shape_kept (platform := demoPlatform) exampleEntries None
           bearerRequest bearerResult).
  vm_compute. reflexivity.
Defined.

Lemma mapResult_id (A : Type) (f : A -> result A) (l : list A) :
  (forall x, In x l -> f x = Ok x) -> mapResult f l = Ok l.
Proof.
  induction l as [|x l IH]; intros H; [reflexivity|].
  cbn [mapResult]. rewrite (H x (or_introl eq_refl)). cbn [bind].
  rewrite IH by (intros y Hy; apply H; right; exact Hy). reflexivity.
Qed.

Lemma params_eqb_refl (l : list (str * str)) : params_eqb l l = true.
Proof.
  induction l as [|[a b] l IH]; [reflexivity|].
  cbn [params_eqb]. unfold param_eqb. cbn [fst snd].
  rewrite !str_eqb_refl, IH. reflexivity.
Qed.

Lemma replaceInUrl_clean {platform : Platform} (u hostname : str)
    (entries : list SecretEntry) (enabled : bool) :
  (forall n v, In (n, v) (queryParameters u) ->
     placeholderFree entries n /\ placeholderFree entries v) ->
  replaceSecretPlaceholdersInUrlParameters u hostname entries enabled = Ok u.
Proof.
  intros H. unfold replaceSecretPlaceholdersInUrlParameters.
  destruct (negb enabled || (length entries =? 0)); [reflexivity|].
  unfold queryParameters in H.
  destruct (URL_parse u) as [parsed|]; [|reflexivity].
  destruct (isEmpty (URL_search parsed)); [reflexivity|].
  rewrite mapResult_id.
  - cbn [bind]. rewrite params_eqb_refl. reflexivity.
  - intros [n v] Hin. destruct (H n v Hin) as [Hn Hv].
    unfold replaceInParameter.
    rewrite (replaceInString_none n hostname entries Hn). cbn [bind].
    rewrite (replaceInString_none v hostname entries Hv). reflexivity.
Qed.

(** X10.  When no query parameter holds a placeholder, in its name or in
    its value, the URL comes back as the very string that was given: it is
    not serialized again, so its spelling is kept. *)
Theorem X10_url_returned_as_is {platform : Platform} (u hostname : str)
    (entries : list SecretEntry) (enabled : bool) :
  (forall n v, In (n, v) (queryParameters u) ->
     placeholderFree entries n /\ placeholderFree entries v) ->
  replaceSecretPlaceholdersInUrlParameters u hostname entries enabled = Ok u.
Proof. apply replaceInUrl_clean. Qed.

Lemma X10_url_returned_as_is_witness :
  replaceSecretPlaceholdersInUrlParameters (platform := demoPlatform)
    (lit "HTTPS://API.example.com?q=1&z=2") (lit "api.example.com")
    exampleEntries true
  = Ok (lit "HTTPS://API.example.com?q=1&z=2").
Proof.
  apply (X10_url_returned_as_is (platform := demoPlatform)).
  intros n v Hin. vm_compute in Hin.
  destruct Hin as [E | [E | []]]; injection E as <- <-;
    split; (apply Forall_cons; [reflexivity | apply Forall_nil]).
Defined.

(** X11.  A request that carries neither the value nor the placeholder of
    any secret passes unchanged: the defence being silent, and the header
    values, the decoded Basic credentials and, with the flag on, the query
    parameters being free of placeholders, the result is the request
    itself. *)
Theorem X11_clean_request_passes {platform : Platform}
    (entries : list SecretEntry) (flag : option bool)
    (request : HttpHookRequest) :
  existsb (offends request (getHostname request) (orElse flag false)) entries
  = false ->
  (forall n v, In (n, v) (headers request) -> placeholderFree entries v) ->
  (forall n v decoded,
     In (n, v) (headers request) -> isCredentialHeader n = true ->
     decodeBasicAuth v = Some decoded -> placeholderFree entries decoded) ->
  (orElse flag false = true ->
   forall n v, In (n, v) (queryParameters (url request)) ->
     placeholderFree entries n /\ placeholderFree entries v) ->
  applySecretsToRequest entries flag request = Ok request.
Proof.
  intros Hd Hh Hb Hq. unfold applySecretsToRequest.
  pose proof (assertSecretValues_spec request (getHostname request) entries
                (orElse flag false)) as S.
  rewrite Hd in S.
  destruct (assertSecretValuesAllowedForHost request (getHostname request)
              entries (orElse flag false)) as [[]|]; [|discriminate S].
  cbn [bind].
  assert (replaceSecretPlaceholdersInHeaders request (getHostname request)
            entries = Ok (headers request)) as Eh.
  { unfold replaceSecretPlaceholdersInHeaders.
    destruct entries as [|e0 rest] eqn:Ee; [reflexivity|]. rewrite <- Ee in *.
    apply mapResult_id. intros [n v] Hin. unfold replaceInHeader.
    rewrite (replaceInString_none v _ entries (Hh n v Hin)). cbn [bind].
    destruct (isCredentialHeader n) eqn:Hc.
    - destruct (matchBasic v) as [m|] eqn:Hm.
      + destruct (replaceBasicAuth_spec n v (getHostname request) entries m
                    Hc Hm) as [_ ->].
        rewrite replaceInString_none.
        * rewrite str_eqb_refl. reflexivity.
        * apply (Hb n v _ Hin Hc). unfold decodeBasicAuth. rewrite Hm.
          reflexivity.
      + rewrite replaceBasicAuth_other by (right; exact Hm). reflexivity.
    - rewrite replaceBasicAuth_other by (left; exact Hc). reflexivity. }
  rewrite Eh. cbn [bind].
  assert (replaceSecretPlaceholdersInUrlParameters (url request)
            (getHostname request) entries (orElse flag false)
          = Ok (url request)) as Eu.
  { destruct (orElse flag false) eqn:F.
    - apply replaceInUrl_clean. apply Hq. reflexivity.
    - reflexivity. }
  rewrite Eu. cbn [bind]. rewrite request_eta. reflexivity.
Qed.

Lemma X11_clean_request_passes_witness :
  applySecretsToRequest (platform := demoPlatform) exampleEntries (Some true)
    cleanRequest
  = Ok cleanRequest.
Proof.
  apply (X11_clean_request_passes (platform := demoPlatform)).
  - reflexivity.
  - intros n v Hin.
    destruct Hin as [E | [E | []]]; injection E as <- <-;
      (apply Forall_cons; [reflexivity | apply Forall_nil]).
  - intros n v decoded Hin Hc Hdec.
    destruct Hin as [E | [E | []]]; injection E as <- <-.
    + discriminate Hc.
    + vm_compute in Hdec. injection Hdec as <-.
      apply Forall_cons; [reflexivity | apply Forall_nil].
  - intros _ n v Hin. vm_compute in Hin.
    destruct Hin as [E | []]; injection E as <- <-;
      split; (apply Forall_cons; [reflexivity | apply Forall_nil]).
Defined.

Lemma assert_unparsed {platform : Platform} (request : HttpHookRequest)
    (hostname : str) (entries : list SecretEntry) (checkQuery : bool) :
  URL_parse (url request) = None ->
  assertSecretValuesAllowedForHost request hostname entries checkQuery
  = assertSecretValuesAllowedForHost request hostname entries false.
Proof.
  intros Hp. induction entries as [|e rest IH]; [reflexivity|].
  cbn [assertSecretValuesAllowedForHost]. rewrite IH.
  unfold requestContainsSecretValueInQuery. rewrite Hp.
  destruct (isEmpty (value e)); rewrite andb_false_r; reflexivity.
Qed.

(** X12.  A request whose URL does not parse is treated as if the query
    flag were off, whatever the flag says, and its URL is never
    rewritten. *)
Theorem X12_unparsed_url_ignores_flag {platform : Platform}
    (entries : list SecretEntry) (flag : option bool)
    (request : HttpHookRequest) :
  URL_parse (url request) = None ->
  applySecretsToRequest entries flag request
  = applySecretsToRequest entries None request
  /\ forall r, applySecretsToRequest entries flag request = Ok r ->
               url r = url request.
Proof.
  intros Hp.
  assert (forall enabled,
            replaceSecretPlaceholdersInUrlParameters (url request)
              (getHostname request) entries enabled = Ok (url request)) as Eu.
  { intros enabled. unfold replaceSecretPlaceholdersInUrlParameters.
    rewrite Hp. destruct (negb enabled || (length entries =? 0)); reflexivity. }
  split.
  - unfold applySecretsToRequest.
    rewrite (assert_unparsed request _ entries (orElse flag false) Hp).
    rewrite !Eu. reflexivity.
  - intros r E. apply applySecrets_ok_inv in E as [_ [_ [E _]]].
    rewrite Eu in E. injection E as <-. reflexivity.
Qed.

Lemma X12_unparsed_url_ignores_flag_witness :
  applySecretsToRequest (platform := demoPlatform) exampleEntries (Some true)
    brokenRequest
  = applySecretsToRequest (platform := demoPlatform) exampleEntries None
      brokenRequest.
Proof.
  apply (proj1 (X12_unparsed_url_ignores_flag (platform := demoPlatform)
                  exampleEntries (Some true) brokenRequest eq_refl)).
Defined.

(** ** Basic credentials *)

Lemma ci_str_eqb_length (a b : str) :
  ci_str_eqb a b = true -> length a = length b.
Proof.
  revert b. induction a as [|c a IH]; intros [|d b] E; try discriminate E;
    [reflexivity|].
  cbn [ci_str_eqb] in E. apply andb_true_iff in E as [_ E].
  simpl. f_equal. apply IH. exact E.
Qed.

Lemma span_app (f : ascii -> bool) (a b : str) :
  forallb f a = true ->
  match b with c :: _ => f c = false | [] => True end ->
  span f (a ++ b) = (a, b).
Proof.
  intros Ha Hb. induction a as [|c a IH].
  - destruct b as [|c b]; [reflexivity|]. cbn [app span]. rewrite Hb.
    reflexivity.
  - cbn [forallb] in Ha. apply andb_true_iff in Ha as [Hc Ha].
    cbn [app span]. rewrite Hc, (IH Ha). reflexivity.
Qed.

(** The pattern of a Basic credential, read the other way. *)
Lemma matchBasic_complete (sch ws tok tr : str) :
  ci_str_eqb sch (lit "Basic") = true ->
  ws <> [] -> forallb isSpace ws = true ->
  tok <> [] -> forallb (fun c => negb (isSpace c)) tok = true ->
  forallb isSpace tr = true ->
  matchBasic (sch ++ ws ++ tok ++ tr) = Some (mkBasicMatch sch ws tok tr).
Proof.
  intros Es Hws Sws Htok Stok Str. unfold matchBasic.
  pose proof (ci_str_eqb_length _ _ Es) as L. change (length (lit "Basic")) with 5 in L.
  assert (firstn 5 (sch ++ ws ++ tok ++ tr) = sch) as F.
  { rewrite <- L, firstn_app, Nat.sub_diag, firstn_O, app_nil_r.
    apply firstn_all. }
  assert (skipn 5 (sch ++ ws ++ tok ++ tr) = ws ++ tok ++ tr) as K.
  { rewrite <- L, skipn_app, Nat.sub_diag, skipn_all. reflexivity. }
  rewrite F, Es, K.
  rewrite (span_app isSpace ws (tok ++ tr) Sws).
  2:{ destruct tok as [|c tok]; [contradiction|]. cbn [app].
      cbn [forallb] in Stok. apply andb_true_iff in Stok as [Hc _].
      apply negb_true_iff in Hc. exact Hc. }
  rewrite (span_app (fun c => negb (isSpace c)) tok tr Stok).
  2:{ destruct tr as [|c tr]; [exact I|]. cbn [forallb] in Str.
      apply andb_true_iff in Str as [Hc _]. rewrite Hc. reflexivity. }
  apply isEmpty_false in Hws, Htok. rewrite Hws, Htok, Str. reflexivity.
Qed.

Lemma b64char_notSpace (n : N) : (n < 64)%N -> isSpace (b64char n) = false.
Proof.
  intros H.
  assert (forallb (fun n => negb (isSpace (b64char n)))
                  (map N.of_nat (seq 0 64)) = true) as F
    by (vm_compute; reflexivity).
  rewrite forallb_forall in F. specialize (F n (below_in_seq n 64 H)).
  apply negb_true_iff in F. exact F.
Qed.

Lemma base64_encode_notSpace (bs : list ascii) :
  forallb (fun c => negb (isSpace c)) (base64_encode bs) = true.
Proof.
  induction bs as [| x | x y | x y z r IH] using list_ind3.
  - reflexivity.
  - pose proof (code_bounded x). cbn [base64_encode forallb].
    rewrite !b64char_notSpace by nlia. reflexivity.
  - pose proof (code_bounded x). pose proof (code_bounded y).
    cbn [base64_encode forallb].
    rewrite !b64char_notSpace by nlia. reflexivity.
  - pose proof (code_bounded x). pose proof (code_bounded y).
    pose proof (code_bounded z). cbn [base64_encode forallb].
    rewrite !b64char_notSpace by nlia. rewrite IH. reflexivity.
Qed.

Lemma base64_encode_nonempty (bs : list ascii) :
  bs <> [] -> base64_encode bs <> [].
Proof.
  destruct bs as [|x [|y [|z r]]]; [contradiction| | |]; intros _;
    cbn [base64_encode]; discriminate.
Qed.

Lemma decodeBasicAuth_encoded (sch ws tr credentials : str) :
  ci_str_eqb sch (lit "Basic") = true ->
  ws <> [] -> forallb isSpace ws = true -> forallb isSpace tr = true ->
  credentials <> [] ->
  decodeBasicAuth (sch ++ ws ++ base64_encode credentials ++ tr)
  = Some (utf8_toString credentials).
Proof.
  intros Es Hws Sws Str Hc. unfold decodeBasicAuth.
  rewrite (matchBasic_complete sch ws (base64_encode credentials) tr Es Hws Sws
             (base64_encode_nonempty _ Hc) (base64_encode_notSpace _) Str).
  cbn [token]. rewrite base64_decode_encode. reflexivity.
Qed.

(** X13.  [decodeBasicAuth] reads back what an encoder wrote: for the
    scheme in any case, white space, the base64 text of credentials that
    are not empty and trailing white space, it gives the credentials,
    decoded as UTF-8. *)
Theorem X13_decodeBasicAuth_round_trip (sch ws tr credentials : str) :
  ci_str_eqb sch (lit "Basic") = true ->
  ws <> [] -> forallb isSpace ws = true -> forallb isSpace tr = true ->
  credentials <> [] ->
  decodeBasicAuth (sch ++ ws ++ base64_encode credentials ++ tr)
  = Some (utf8_toString credentials).
Proof. apply decodeBasicAuth_encoded. Qed.

Lemma X13_decodeBasicAuth_round_trip_witness :
  decodeBasicAuth (lit "bAsIc" ++ lit "  " ++ base64_encode (lit "user:pw")
                   ++ lit " ")
  = Some (utf8_toString (lit "user:pw")).
Proof.
  apply X13_decodeBasicAuth_round_trip;
    [reflexivity | discriminate | reflexivity | reflexivity | discriminate].
Defined.

(** X14.  Substitution in a Basic credential, end to end: for a credential
    header whose token is the base64 text of well-formed credentials, the
    pass answers with a header value that an encoder's counterpart reads
    back as the credentials with the placeholders substituted, the scheme,
    the white space and the trailing part being kept. *)
Theorem X14_basic_credentials_substituted
    (headerName sch ws tr credentials hostname updated : str)
    (entries : list SecretEntry) :
  isCredentialHeader headerName = true ->
  ci_str_eqb sch (lit "Basic") = true ->
  ws <> [] -> forallb isSpace ws = true -> forallb isSpace tr = true ->
  credentials <> [] -> utf8_toString credentials = credentials ->
  replaceSecretPlaceholdersInString credentials hostname entries = Ok updated ->
  updated <> [] ->
  exists headerValue',
    replaceBasicAuthSecretPlaceholders headerName
      (sch ++ ws ++ base64_encode credentials ++ tr) hostname entries
    = Ok headerValue'
    /\ headerValue' = sch ++ ws ++ base64_encode updated ++ tr
    /\ decodeBasicAuth headerValue' = Some (utf8_toString updated).
Proof.
  intros Hn Es Hws Sws Str Hc Hu Er Hup.
  pose proof (matchBasic_complete sch ws (base64_encode credentials) tr Es Hws
                Sws (base64_encode_nonempty _ Hc) (base64_encode_notSpace _)
                Str) as Hm.
  destruct (replaceBasicAuth_spec headerName _ hostname entries _ Hn Hm)
    as [_ E].
  cbn [scheme whitespace token trailing] in E.
  rewrite base64_decode_encode, Hu, Er in E.
  destruct (str_eqb updated credentials) eqn:Eq.
  - apply str_eqb_eq in Eq. subst updated.
    exists (sch ++ ws ++ base64_encode credentials ++ tr).
    split; [exact E|]. split; [reflexivity|].
    apply decodeBasicAuth_encoded; assumption.
  - exists (sch ++ ws ++ base64_encode updated ++ tr).
    split; [exact E|]. split; [reflexivity|].
    apply decodeBasicAuth_encoded; assumption.
Qed.

Lemma X14_basic_credentials_substituted_witness :
  exists headerValue',
    replaceBasicAuthSecretPlaceholders (lit "Proxy-Authorization")
      (lit "Basic" ++ lit " "
       ++ base64_encode (lit "user:" ++ examplePlaceholder) ++ [])
      (lit "api.example.com") exampleEntries
    = Ok headerValue'
    /\ headerValue' = lit "Basic" ++ lit " "
                      ++ base64_encode (lit "user:s3cr3t") ++ []
    /\ decodeBasicAuth headerValue' = Some (utf8_toString (lit "user:s3cr3t")).
Proof.
  apply X14_basic_credentials_substituted;
    [ reflexivity | reflexivity | discriminate | reflexivity | reflexivity
    | discriminate | vm_compute; reflexivity | vm_compute; reflexivity
    | discriminate ].
Defined.

(** ** The admission of addresses *)

Lemma allowedHosts_In {platform : Platform} (St : Type) (options : CreateHttpHooksOptions St)
    (g : Rng) (p : str) :
  In p (allowedHosts (fst (createHttpHooks options g)))
  <-> p <> []
      /\ (In p (map normalizeHostnamePattern
                  (orElse (opt_allowedHosts options) []))
          \/ exists e, In e (secretEntries (fst (createHttpHooks options g)))
                       /\ In p (hosts e)).
Proof.
  destruct (createHttpHooks_fields St options g) as [E1 [_ E3]].
  set (r := fst (createHttpHooks options g)) in *.
  assert (Forall (fun e => Forall (fun p => normalizeHostnamePattern p = p)
                                  (hosts e)) (secretEntries r)) as Hnorm.
  { rewrite E1. apply buildSecretEntries_hosts. }
  rewrite E3, uniqueHosts_keepFirst, In_keepFirst.
  unfold keptPatterns. rewrite filter_In, negb_true_iff, isEmpty_false.
  rewrite map_app, in_app_iff.
  assert (In p (map normalizeHostnamePattern
                  (flat_map hosts (secretEntries r)))
          <-> exists e, In e (secretEntries r) /\ In p (hosts e)) as Hs.
  { rewrite in_map_iff. split.
    - intros [raw [<- Hraw]]. apply in_flat_map in Hraw as [e [He Hp]].
      exists e. split; [exact He|].
      rewrite Forall_forall in Hnorm. specialize (Hnorm e He).
      rewrite Forall_forall in Hnorm. rewrite (Hnorm raw Hp). exact Hp.
    - intros [e [He Hp]]. exists p. split.
      + rewrite Forall_forall in Hnorm. specialize (Hnorm e He).
        rewrite Forall_forall in Hnorm. apply Hnorm. exact Hp.
      + apply in_flat_map. exists e. auto. }
  rewrite Hs. tauto.
Qed.

Lemma matchesAnyHost_false (hostname : str) (patterns : list str) :
  matchesAnyHost hostname patterns = false
  <-> forall p, In p patterns -> matchHostname (toLowerCase hostname) p = false.
Proof.
  unfold matchesAnyHost. split.
  - intros H p Hp. destruct (matchHostname (toLowerCase hostname) p) eqn:E;
      [|reflexivity].
    assert (existsb (fun pattern => matchHostname (toLowerCase hostname) pattern)
                    patterns = true) as T
      by (apply existsb_exists; exists p; auto).
    congruence.
  - intros H. induction patterns as [|p ps IH]; [reflexivity|].
    cbn [existsb]. rewrite (H p (or_introl eq_refl)). cbn [orb].
    apply IH. intros q Hq. apply H. right. exact Hq.
Qed.

(** X15.  Secrets close an open policy: when the caller gives no allowed
    hosts but some secret has a pattern that is not blank, the hosts of
    the secrets are the allow list, and an address whose hostname matches
    no pattern of any secret is refused, before the caller's hook is
    asked. *)
Theorem X15_secret_hosts_close_the_policy {platform : Platform} (St : Type)
    (options : CreateHttpHooksOptions St) (g : Rng)
    (entry : SecretEntry) (pattern : str) (info : IpInfo) (st : St) :
  orElse (opt_allowedHosts options) [] = [] ->
  In entry (secretEntries (fst (createHttpHooks options g))) ->
  In pattern (hosts entry) -> pattern <> [] ->
  (forall e, In e (secretEntries (fst (createHttpHooks options g))) ->
     matchesAnyHost (info_hostname info) (hosts e) = false) ->
  httpHooks_isIpAllowed options (fst (createHttpHooks options g)) info st
  = (Some false, st).
Proof.
  intros Hopt He Hp Hne Hno.
  set (r := fst (createHttpHooks options g)) in *.
  assert (allowedHosts r <> []) as Hlist.
  { intros E. assert (In pattern (allowedHosts r)) as Hin.
    { apply allowedHosts_In. split; [exact Hne|]. right. exists entry. auto. }
    rewrite E in Hin. contradiction. }
  assert (matchesAnyHost (info_hostname info) (allowedHosts r) = false) as Hm.
  { apply matchesAnyHost_false. intros p Hin.
    apply allowedHosts_In in Hin as [_ [Hin | [e [Hin Hpe]]]].
    - rewrite Hopt in Hin. contradiction.
    - specialize (Hno e Hin).
      apply (proj1 (matchesAnyHost_false _ _) Hno p Hpe). }
  unfold httpHooks_isIpAllowed, isIpAllowed. rewrite Hm.
  destruct (blockInternalRanges r && isInternalAddress (info_ip info));
    [reflexivity|].
  destruct (allowedHosts r); [contradiction | reflexivity].
Qed.

Lemma X15_secret_hosts_close_the_policy_witness :
  httpHooks_isIpAllowed (platform := demoPlatform) twoSecretOptions
    (fst (createHttpHooks (platform := demoPlatform) twoSecretOptions 0%N))
    (mkIpInfo (lit "evil.test") (lit "93.184.216.34")) tt
  = (Some false, tt).
Proof.
  apply (X15_secret_hosts_close_the_policy (platform := demoPlatform) unit
           twoSecretOptions 0%N
           (mkSecretEntry (lit "TOKEN") examplePlaceholder (lit "s3cr3t")
              [lit "api.example.com"])
           (lit "api.example.com")).
  - reflexivity.
  - vm_compute. first [left; reflexivity | right; left; reflexivity].
  - left; reflexivity.
  - discriminate.
  - intros e He. vm_compute in He.
    destruct He as [<- | [<- | []]]; reflexivity.
Defined.

Lemma matchesAnyHost_app (hostname : str) (a b : list str) :
  matchesAnyHost hostname (a ++ b)
  = matchesAnyHost hostname a || matchesAnyHost hostname b.
Proof. unfold matchesAnyHost. apply existsb_app. Qed.

(** X16.  A longer allow list admits more: an address admitted under an
    allow list that is not empty is treated in the same way when patterns
    are added to the list.  The empty list is the exception, it admits
    every hostname. *)
Theorem X16_longer_list_admits_more {platform : Platform} (St : Type)
    (blockInternal : bool) (allowed more : list str)
    (hook : option (IpHook St)) (info : IpInfo) (st : St) :
  allowed <> [] ->
  fst (isIpAllowed blockInternal allowed hook info st) = Some true ->
  isIpAllowed blockInternal (allowed ++ more) hook info st
  = isIpAllowed blockInternal allowed hook info st.
Proof.
  intros Hne Hadm.
  destruct (matchesAnyHost (info_hostname info) allowed) eqn:Hm.
  - unfold isIpAllowed.
    rewrite matchesAnyHost_app, Hm. cbn [orb negb]. rewrite !andb_false_r.
    reflexivity.
  - unfold isIpAllowed in Hadm. rewrite Hm in Hadm.
    destruct (blockInternal && isInternalAddress (info_ip info));
      [discriminate Hadm|].
    destruct allowed as [|p ps]; [contradiction | discriminate Hadm].
Qed.

Lemma X16_longer_list_admits_more_witness :
  isIpAllowed (platform := demoPlatform) (St := unit) true
    ([lit "example.com"] ++ [lit "*.github.com"]) None
    (mkIpInfo (lit "Example.com") (lit "93.184.216.34")) tt
  = isIpAllowed (platform := demoPlatform) (St := unit) true
      [lit "example.com"] None
      (mkIpInfo (lit "Example.com") (lit "93.184.216.34")) tt.
Proof.
  apply (X16_longer_list_admits_more (platform := demoPlatform));
    [discriminate | vm_compute; reflexivity].
Defined.

(** ** Failures *)

Lemma namesDenied_tail (e0 : SecretEntry) (rest : list SecretEntry)
    (hostname m : str) :
  namesDeniedSecret rest hostname m -> namesDeniedSecret (e0 :: rest) hostname m.
Proof. intros [e [Hin H]]. exists e. split; [right; exact Hin | exact H]. Qed.

Lemma replaceInString_error (hostname : str) (entries : list SecretEntry) :
  forall v m,
    replaceSecretPlaceholdersInString v hostname entries
    = HttpRequestBlockedError m ->
    namesDeniedSecret entries hostname m.
Proof.
  induction entries as [|e rest IH]; intros v m E; [discriminate E|].
  cbn [replaceSecretPlaceholdersInString] in E.
  destruct (negb (includes v (placeholder e))).
  - apply namesDenied_tail. apply (IH v m E).
  - unfold assertSecretAllowedForHost in E.
    destruct (matchesAnyHost hostname (hosts e)) eqn:M; cbn [bind] in E.
    + apply namesDenied_tail. apply (IH _ m E).
    + injection E as <-. exists e. split; [left; reflexivity | auto].
Qed.

Lemma replaceBasicAuth_error (n v hostname : str) (entries : list SecretEntry)
    (m : str) :
  replaceBasicAuthSecretPlaceholders n v hostname entries
  = HttpRequestBlockedError m ->
  namesDeniedSecret entries hostname m.
Proof.
  unfold replaceBasicAuthSecretPlaceholders.
  destruct (negb (isCredentialHeader n)); [discriminate|].
  destruct (matchBasic v) as [bm|]; [|discriminate].
  destruct (replaceSecretPlaceholdersInString _ hostname entries) as [u|m']
    eqn:E; cbn [bind].
  - destruct (str_eqb u _); discriminate.
  - intros H. injection H as <-. apply (replaceInString_error _ _ _ _ E).
Qed.

Lemma mapResult_error (A B : Type) (f : A -> result B) (l : list A) (m : str) :
  mapResult f l = HttpRequestBlockedError m ->
  exists x, In x l /\ f x = HttpRequestBlockedError m.
Proof.
  induction l as [|x l IH]; intros E; [discriminate E|].
  cbn [mapResult] in E. destruct (f x) as [y|m'] eqn:Ex; cbn [bind] in E.
  - destruct (mapResult f l) as [ys|m'']; cbn [bind] in E; [discriminate E|].
    injection E as <-. destruct (IH eq_refl) as [x' [Hin Hx]].
    exists x'. split; [right; exact Hin | exact Hx].
  - injection E as <-. exists x. split; [left; reflexivity | exact Ex].
Qed.

Lemma replaceInHeaders_error (request : HttpHookRequest) (hostname : str)
    (entries : list SecretEntry) (m : str) :
  replaceSecretPlaceholdersInHeaders request hostname entries
  = HttpRequestBlockedError m ->
  namesDeniedSecret entries hostname m.
Proof.
  unfold replaceSecretPlaceholdersInHeaders.
  destruct entries as [|e0 rest] eqn:Ee; [discriminate|]. rewrite <- Ee.
  intros E. apply mapResult_error in E as [[n v] [_ E]].
  unfold replaceInHeader in E.
  destruct (replaceSecretPlaceholdersInString v hostname entries) as [u|m']
    eqn:E1; cbn [bind] in E.
  - destruct (replaceBasicAuthSecretPlaceholders n u hostname entries)
      as [u'|m''] eqn:E2; cbn [bind] in E; [discriminate E|].
    injection E as <-. apply (replaceBasicAuth_error _ _ _ _ _ E2).
  - injection E as <-. apply (replaceInString_error _ _ _ _ E1).
Qed.

Lemma replaceInUrl_error {platform : Platform} (u hostname : str) (entries : list SecretEntry)
    (enabled : bool) (m : str) :
  replaceSecretPlaceholdersInUrlParameters u hostname entries enabled
  = HttpRequestBlockedError m ->
  namesDeniedSecret entries hostname m.
Proof.
  unfold replaceSecretPlaceholdersInUrlParameters.
  destruct (negb enabled || (length entries =? 0)); [discriminate|].
  destruct (URL_parse u) as [parsed|]; [|discriminate].
  destruct (isEmpty (URL_search parsed)); [discriminate|].
  destruct (mapResult (replaceInParameter hostname entries)
                      (URL_searchParams parsed)) as [ps|m'] eqn:E;
    cbn [bind].
  - destruct (negb (negb (params_eqb ps (URL_searchParams parsed))));
      discriminate.
  - intros H. injection H as <-.
    apply mapResult_error in E as [[n v] [_ E]].
    unfold replaceInParameter in E.
    destruct (replaceSecretPlaceholdersInString n hostname entries) as [n'|m1]
      eqn:E1; cbn [bind] in E.
    + destruct (replaceSecretPlaceholdersInString v hostname entries)
        as [v'|m2] eqn:E2; cbn [bind] in E; [discriminate E|].
      injection E as <-. apply (replaceInString_error _ _ _ _ E2).
    + injection E as <-. apply (replaceInString_error _ _ _ _ E1).
Qed.

Lemma assertSecretValues_error {platform : Platform} (request : HttpHookRequest) (hostname : str)
    (entries : list SecretEntry) (checkQuery : bool) (m : str) :
  assertSecretValuesAllowedForHost request hostname entries checkQuery
  = HttpRequestBlockedError m ->
  namesDeniedSecret entries hostname m.
Proof.
  rewrite assertSecretValues_find.
  destruct (find (offends request hostname checkQuery) entries) as [e|] eqn:F;
    [|discriminate].
  intros E. injection E as <-. apply find_some in F as [Hin Ho].
  exists e. split; [exact Hin|]. split; [|reflexivity].
  apply offends_iff in Ho. tauto.
Qed.

(** X17.  The hooks fail for one reason only: every failure of
    [applySecretsToRequest] carries the message of a secret of the table
    that is not allowed for the host of the request.  So a request to a
    host every secret is allowed for is never blocked. *)
Theorem X17_failures_name_a_denied_secret {platform : Platform}
    (entries : list SecretEntry)
    (flag : option bool) (request : HttpHookRequest) :
  (forall m,
     applySecretsToRequest entries flag request = HttpRequestBlockedError m ->
     namesDeniedSecret entries (getHostname request) m)
  /\ (Forall (fun e => matchesAnyHost (getHostname request) (hosts e) = true)
             entries ->
      exists r, applySecretsToRequest entries flag request = Ok r).
Proof.
  assert (forall m,
            applySecretsToRequest entries flag request
            = HttpRequestBlockedError m ->
            namesDeniedSecret entries (getHostname request) m) as H.
  { intros m. unfold applySecretsToRequest.
    destruct (assertSecretValuesAllowedForHost _ _ _ _) as [[]|m1] eqn:E1;
      cbn [bind].
    - destruct (replaceSecretPlaceholdersInHeaders _ _ _) as [hdrs|m2] eqn:E2;
        cbn [bind].
      + destruct (replaceSecretPlaceholdersInUrlParameters _ _ _ _)
          as [u|m3] eqn:E3; cbn [bind]; [discriminate|].
        intros E. injection E as <-. apply (replaceInUrl_error _ _ _ _ _ E3).
      + intros E. injection E as <-. apply (replaceInHeaders_error _ _ _ _ E2).
    - intros E. injection E as <-.
      apply (assertSecretValues_error _ _ _ _ _ E1). }
  split; [exact H|]. intros Hall.
  destruct (applySecretsToRequest entries flag request) as [r|m] eqn:E;
    [exists r; reflexivity|].
  destruct (H m eq_refl) as [e [Hin [Hno _]]].
  rewrite Forall_forall in Hall. rewrite (Hall e Hin) in Hno. discriminate Hno.
Qed.

Lemma X17_failures_name_a_denied_secret_witness :
  namesDeniedSecret exampleEntries
    (getHostname (platform := demoPlatform) leakRequest)
    (notAllowedMessage
       (mkSecretEntry (lit "TOKEN") examplePlaceholder (lit "s3cr3t")
          [lit "api.example.com"])
       (lit "evil.test")).
Proof.
  apply (proj1 (X17_failures_name_a_denied_secret (platform := demoPlatform)
                  exampleEntries None leakRequest)).
  vm_compute. reflexivity.
Defined.

(** ** Build configuration *)

(** X18.  The default build configuration is valid, whatever the
    architecture of the process. *)
Theorem X18_default_config_valid (processArch : str) :
  validateBuildConfig (getDefaultBuildConfig processArch) = true.
Proof.
  unfold getDefaultBuildConfig, getDefaultArch.
  destruct (str_eqb processArch (lit "arm64")); reflexivity.
Qed.

(** X19.  The validation reads three properties of a configuration and
    nothing else: [arch], [distro] and the section named after the distro.
    Two objects that agree on these are both valid or both invalid, so
    the other sections ([rootfs], [container], [init], ...) are never
    checked. *)
Theorem X19_validation_reads (fields fields' : list (str * jsValue)) :
  lookup fields (lit "arch") = lookup fields' (lit "arch") ->
  lookup fields (lit "distro") = lookup fields' (lit "distro") ->
  (forall s, lookup fields (lit "distro") = VString s ->
             lookup fields s = lookup fields' s) ->
  validateBuildConfig (VObject fields) = validateBuildConfig (VObject fields').
Proof.
  intros Ha Hd Hs. unfold validateBuildConfig.
  cbn [notAnObject typeOf isNull getProp]. rewrite <- Ha, <- Hd.
  change (negb (str_eqb (lit "object") (lit "object")) || false) with false.
  cbv iota.
  destruct (lookup fields (lit "distro")) as [| | | |s| |] eqn:D;
    try reflexivity.
  cbn [isTheString].
  destruct (str_eqb s (lit "alpine")) eqn:E1.
  - apply str_eqb_eq in E1. subst s. rewrite <- (Hs _ eq_refl). reflexivity.
  - destruct (str_eqb s (lit "nixos")) eqn:E2.
    + apply str_eqb_eq in E2. subst s. rewrite <- (Hs _ eq_refl). reflexivity.
    + reflexivity.
Qed.

Lemma X19_validation_reads_witness :
  validateBuildConfig (VObject nixosFieldsWithRootfs)
  = validateBuildConfig (VObject nixosFields).
Proof.
  apply X19_validation_reads; [reflexivity | reflexivity |].
  intros s E. vm_compute in E. injection E as <-. reflexivity.
Defined.

(** ** The defence and Basic credentials *)

(** X20.  A secret in a Basic credential is caught: when a header named
    [Authorization] or [Proxy-Authorization] carries, in the Basic scheme,
    the base64 text of well-formed credentials that contain the value of a
    secret which is not empty and not allowed for the host of the request,
    the request fails, whatever the query flag. *)
Theorem X20_encoded_leak_is_blocked {platform : Platform}
    (entries : list SecretEntry) (flag : option bool)
    (request : HttpHookRequest) (entry : SecretEntry)
    (headerName sch ws tr credentials : str) :
  In entry entries ->
  matchesAnyHost (getHostname request) (hosts entry) = false ->
  value entry <> [] ->
  In (headerName, sch ++ ws ++ base64_encode credentials ++ tr)
     (headers request) ->
  isCredentialHeader headerName = true ->
  ci_str_eqb sch (lit "Basic") = true ->
  ws <> [] -> forallb isSpace ws = true -> forallb isSpace tr = true ->
  utf8_toString credentials = credentials ->
  includes credentials (value entry) = true ->
  isBlocked (applySecretsToRequest entries flag request) = true.
Proof.
  intros Hin Hno Hval Hhdr Hn Es Hws Sws Str Hu Hinc.
  assert (credentials <> []) as Hc.
  { intros ->. destruct (value entry); [contradiction | discriminate Hinc]. }
  apply applySecrets_blocked_by_defence. apply existsb_In.
  exists entry. split; [exact Hin|]. apply offends_iff.
  split; [exact Hno|]. split; [exact Hval|]. left.
  unfold valueAppearsInHeaders. apply existsb_In.
  exists (headerName, sch ++ ws ++ base64_encode credentials ++ tr).
  split; [exact Hhdr|]. unfold valueAppearsInHeader.
  rewrite Hn, (decodeBasicAuth_encoded sch ws tr credentials Es Hws Sws Str Hc).
  rewrite Hu, Hinc. apply orb_true_r.
Qed.

Lemma X20_encoded_leak_is_blocked_witness :
  isBlocked (applySecretsToRequest (platform := demoPlatform) exampleEntries
               (Some true) encodedLeakRequest) = true.
Proof.
  apply (X20_encoded_leak_is_blocked (platform := demoPlatform) exampleEntries
           (Some true) encodedLeakRequest
           (mkSecretEntry (lit "TOKEN") examplePlaceholder (lit "s3cr3t")
              [lit "api.example.com"])
           (lit "authorization") (lit "BASIC") (lit " ") []
           (lit "user:s3cr3t"));
    [ left; reflexivity | reflexivity | discriminate | left; reflexivity
    | reflexivity | reflexivity | discriminate | reflexivity | reflexivity
    | vm_compute; reflexivity | reflexivity ].
Defined.
